(** * A command-line contact book with birthdays

    A shallow embedding of [contacts_bot.py]: validated fields ([Name],
    [Phone], [Birthday]), contact records, the address book (an
    insertion-ordered dictionary of records), the upcoming-birthday query
    and the command handlers behind the [input_error] decorator.  The
    read-eval-print loop ([parse_input], [main]) only dispatches to the
    handlers; it is represented by the relation [reachable].

    Python values are modelled as follows.
    - [str] is a list of Unicode code points ([N]); the predicates
      [str.isdigit], [str.isalpha], ... read the character tables of the
      Unicode database that CPython 3.11 embeds (version 14.0.0).
    - [datetime.date] is a record of three integers ([Z]) with the
      proleptic Gregorian arithmetic of the [datetime] module.
    - An exception is a value of [exn]; code that can raise returns a
      [result]; methods that mutate the address book thread it explicitly
      and return it together with the outcome, so that the state left
      behind by a raising call is visible.
    - [datetime.now()] and the C library's rendering of [%Y] are inputs
      ([today], [c_runtime]). *)

From Stdlib Require Import ZArith NArith List Bool Lia String Ascii.
Import ListNotations.

(** ** Unicode character tables *)

Module Unicode.
Local Open Scope N_scope.

(** Code points with [Numeric_Type=Decimal] (category Nd): what [str.isdecimal], the
    regular-expression class [\d] and [int()] accept.  Every run is a multiple of ten
    long and the digit values cycle 0..9 from its first code point. *)
Definition decimal_ranges : list (N * N) :=
  [ (48, 57); (1632, 1641); (1776, 1785); (1984, 1993); (2406, 2415); (2534, 2543); (2662, 2671);
    (2790, 2799); (2918, 2927); (3046, 3055); (3174, 3183); (3302, 3311); (3430, 3439); (3558,
    3567); (3664, 3673); (3792, 3801); (3872, 3881); (4160, 4169); (4240, 4249); (6112, 6121);
    (6160, 6169); (6470, 6479); (6608, 6617); (6784, 6793); (6800, 6809); (6992, 7001); (7088,
    7097); (7232, 7241); (7248, 7257); (42528, 42537); (43216, 43225); (43264, 43273); (43472,
    43481); (43504, 43513); (43600, 43609); (44016, 44025); (65296, 65305); (66720, 66729); (68912,
    68921); (69734, 69743); (69872, 69881); (69942, 69951); (70096, 70105); (70384, 70393); (70736,
    70745); (70864, 70873); (71248, 71257); (71360, 71369); (71472, 71481); (71904, 71913); (72016,
    72025); (72784, 72793); (73040, 73049); (73120, 73129); (92768, 92777); (92864, 92873); (93008,
    93017); (120782, 120831); (123200, 123209); (123632, 123641); (125264, 125273); (130032, 130041) ].

(** Code points with [Numeric_Type] Decimal or Digit: what [str.isdigit] accepts. *)
Definition digit_ranges : list (N * N) :=
  [ (48, 57); (178, 179); (185, 185); (1632, 1641); (1776, 1785); (1984, 1993); (2406, 2415); (2534,
    2543); (2662, 2671); (2790, 2799); (2918, 2927); (3046, 3055); (3174, 3183); (3302, 3311);
    (3430, 3439); (3558, 3567); (3664, 3673); (3792, 3801); (3872, 3881); (4160, 4169); (4240,
    4249); (4969, 4977); (6112, 6121); (6160, 6169); (6470, 6479); (6608, 6618); (6784, 6793);
    (6800, 6809); (6992, 7001); (7088, 7097); (7232, 7241); (7248, 7257); (8304, 8304); (8308,
    8313); (8320, 8329); (9312, 9320); (9332, 9340); (9352, 9360); (9450, 9450); (9461, 9469);
    (9471, 9471); (10102, 10110); (10112, 10120); (10122, 10130); (42528, 42537); (43216, 43225);
    (43264, 43273); (43472, 43481); (43504, 43513); (43600, 43609); (44016, 44025); (65296, 65305);
    (66720, 66729); (68160, 68163); (68912, 68921); (69216, 69224); (69714, 69722); (69734, 69743);
    (69872, 69881); (69942, 69951); (70096, 70105); (70384, 70393); (70736, 70745); (70864, 70873);
    (71248, 71257); (71360, 71369); (71472, 71481); (71904, 71913); (72016, 72025); (72784, 72793);
    (73040, 73049); (73120, 73129); (92768, 92777); (92864, 92873); (93008, 93017); (120782,
    120831); (123200, 123209); (123632, 123641); (125264, 125273); (127232, 127242); (130032,
    130041) ].

(** Code points of the letter categories Lu, Ll, Lt, Lm, Lo: what [str.isalpha] accepts. *)
Definition alpha_ranges : list (N * N) :=
  [ (65, 90); (97, 122); (170, 170); (181, 181); (186, 186); (192, 214); (216, 246); (248, 705);
    (710, 721); (736, 740); (748, 748); (750, 750); (880, 884); (886, 887); (890, 893); (895, 895);
    (902, 902); (904, 906); (908, 908); (910, 929); (931, 1013); (1015, 1153); (1162, 1327); (1329,
    1366); (1369, 1369); (1376, 1416); (1488, 1514); (1519, 1522); (1568, 1610); (1646, 1647);
    (1649, 1747); (1749, 1749); (1765, 1766); (1774, 1775); (1786, 1788); (1791, 1791); (1808,
    1808); (1810, 1839); (1869, 1957); (1969, 1969); (1994, 2026); (2036, 2037); (2042, 2042);
    (2048, 2069); (2074, 2074); (2084, 2084); (2088, 2088); (2112, 2136); (2144, 2154); (2160,
    2183); (2185, 2190); (2208, 2249); (2308, 2361); (2365, 2365); (2384, 2384); (2392, 2401);
    (2417, 2432); (2437, 2444); (2447, 2448); (2451, 2472); (2474, 2480); (2482, 2482); (2486,
    2489); (2493, 2493); (2510, 2510); (2524, 2525); (2527, 2529); (2544, 2545); (2556, 2556);
    (2565, 2570); (2575, 2576); (2579, 2600); (2602, 2608); (2610, 2611); (2613, 2614); (2616,
    2617); (2649, 2652); (2654, 2654); (2674, 2676); (2693, 2701); (2703, 2705); (2707, 2728);
    (2730, 2736); (2738, 2739); (2741, 2745); (2749, 2749); (2768, 2768); (2784, 2785); (2809,
    2809); (2821, 2828); (2831, 2832); (2835, 2856); (2858, 2864); (2866, 2867); (2869, 2873);
    (2877, 2877); (2908, 2909); (2911, 2913); (2929, 2929); (2947, 2947); (2949, 2954); (2958,
    2960); (2962, 2965); (2969, 2970); (2972, 2972); (2974, 2975); (2979, 2980); (2984, 2986);
    (2990, 3001); (3024, 3024); (3077, 3084); (3086, 3088); (3090, 3112); (3114, 3129); (3133,
    3133); (3160, 3162); (3165, 3165); (3168, 3169); (3200, 3200); (3205, 3212); (3214, 3216);
    (3218, 3240); (3242, 3251); (3253, 3257); (3261, 3261); (3293, 3294); (3296, 3297); (3313,
    3314); (3332, 3340); (3342, 3344); (3346, 3386); (3389, 3389); (3406, 3406); (3412, 3414);
    (3423, 3425); (3450, 3455); (3461, 3478); (3482, 3505); (3507, 3515); (3517, 3517); (3520,
    3526); (3585, 3632); (3634, 3635); (3648, 3654); (3713, 3714); (3716, 3716); (3718, 3722);
    (3724, 3747); (3749, 3749); (3751, 3760); (3762, 3763); (3773, 3773); (3776, 3780); (3782,
    3782); (3804, 3807); (3840, 3840); (3904, 3911); (3913, 3948); (3976, 3980); (4096, 4138);
    (4159, 4159); (4176, 4181); (4186, 4189); (4193, 4193); (4197, 4198); (4206, 4208); (4213,
    4225); (4238, 4238); (4256, 4293); (4295, 4295); (4301, 4301); (4304, 4346); (4348, 4680);
    (4682, 4685); (4688, 4694); (4696, 4696); (4698, 4701); (4704, 4744); (4746, 4749); (4752,
    4784); (4786, 4789); (4792, 4798); (4800, 4800); (4802, 4805); (4808, 4822); (4824, 4880);
    (4882, 4885); (4888, 4954); (4992, 5007); (5024, 5109); (5112, 5117); (5121, 5740); (5743,
    5759); (5761, 5786); (5792, 5866); (5873, 5880); (5888, 5905); (5919, 5937); (5952, 5969);
    (5984, 5996); (5998, 6000); (6016, 6067); (6103, 6103); (6108, 6108); (6176, 6264); (6272,
    6276); (6279, 6312); (6314, 6314); (6320, 6389); (6400, 6430); (6480, 6509); (6512, 6516);
    (6528, 6571); (6576, 6601); (6656, 6678); (6688, 6740); (6823, 6823); (6917, 6963); (6981,
    6988); (7043, 7072); (7086, 7087); (7098, 7141); (7168, 7203); (7245, 7247); (7258, 7293);
    (7296, 7304); (7312, 7354); (7357, 7359); (7401, 7404); (7406, 7411); (7413, 7414); (7418,
    7418); (7424, 7615); (7680, 7957); (7960, 7965); (7968, 8005); (8008, 8013); (8016, 8023);
    (8025, 8025); (8027, 8027); (8029, 8029); (8031, 8061); (8064, 8116); (8118, 8124); (8126,
    8126); (8130, 8132); (8134, 8140); (8144, 8147); (8150, 8155); (8160, 8172); (8178, 8180);
    (8182, 8188); (8305, 8305); (8319, 8319); (8336, 8348); (8450, 8450); (8455, 8455); (8458,
    8467); (8469, 8469); (8473, 8477); (8484, 8484); (8486, 8486); (8488, 8488); (8490, 8493);
    (8495, 8505); (8508, 8511); (8517, 8521); (8526, 8526); (8579, 8580); (11264, 11492); (11499,
    11502); (11506, 11507); (11520, 11557); (11559, 11559); (11565, 11565); (11568, 11623); (11631,
    11631); (11648, 11670); (11680, 11686); (11688, 11694); (11696, 11702); (11704, 11710); (11712,
    11718); (11720, 11726); (11728, 11734); (11736, 11742); (11823, 11823); (12293, 12294); (12337,
    12341); (12347, 12348); (12353, 12438); (12445, 12447); (12449, 12538); (12540, 12543); (12549,
    12591); (12593, 12686); (12704, 12735); (12784, 12799); (13312, 19903); (19968, 42124); (42192,
    42237); (42240, 42508); (42512, 42527); (42538, 42539); (42560, 42606); (42623, 42653); (42656,
    42725); (42775, 42783); (42786, 42888); (42891, 42954); (42960, 42961); (42963, 42963); (42965,
    42969); (42994, 43009); (43011, 43013); (43015, 43018); (43020, 43042); (43072, 43123); (43138,
    43187); (43250, 43255); (43259, 43259); (43261, 43262); (43274, 43301); (43312, 43334); (43360,
    43388); (43396, 43442); (43471, 43471); (43488, 43492); (43494, 43503); (43514, 43518); (43520,
    43560); (43584, 43586); (43588, 43595); (43616, 43638); (43642, 43642); (43646, 43695); (43697,
    43697); (43701, 43702); (43705, 43709); (43712, 43712); (43714, 43714); (43739, 43741); (43744,
    43754); (43762, 43764); (43777, 43782); (43785, 43790); (43793, 43798); (43808, 43814); (43816,
    43822); (43824, 43866); (43868, 43881); (43888, 44002); (44032, 55203); (55216, 55238); (55243,
    55291); (63744, 64109); (64112, 64217); (64256, 64262); (64275, 64279); (64285, 64285); (64287,
    64296); (64298, 64310); (64312, 64316); (64318, 64318); (64320, 64321); (64323, 64324); (64326,
    64433); (64467, 64829); (64848, 64911); (64914, 64967); (65008, 65019); (65136, 65140); (65142,
    65276); (65313, 65338); (65345, 65370); (65382, 65470); (65474, 65479); (65482, 65487); (65490,
    65495); (65498, 65500); (65536, 65547); (65549, 65574); (65576, 65594); (65596, 65597); (65599,
    65613); (65616, 65629); (65664, 65786); (66176, 66204); (66208, 66256); (66304, 66335); (66349,
    66368); (66370, 66377); (66384, 66421); (66432, 66461); (66464, 66499); (66504, 66511); (66560,
    66717); (66736, 66771); (66776, 66811); (66816, 66855); (66864, 66915); (66928, 66938); (66940,
    66954); (66956, 66962); (66964, 66965); (66967, 66977); (66979, 66993); (66995, 67001); (67003,
    67004); (67072, 67382); (67392, 67413); (67424, 67431); (67456, 67461); (67463, 67504); (67506,
    67514); (67584, 67589); (67592, 67592); (67594, 67637); (67639, 67640); (67644, 67644); (67647,
    67669); (67680, 67702); (67712, 67742); (67808, 67826); (67828, 67829); (67840, 67861); (67872,
    67897); (67968, 68023); (68030, 68031); (68096, 68096); (68112, 68115); (68117, 68119); (68121,
    68149); (68192, 68220); (68224, 68252); (68288, 68295); (68297, 68324); (68352, 68405); (68416,
    68437); (68448, 68466); (68480, 68497); (68608, 68680); (68736, 68786); (68800, 68850); (68864,
    68899); (69248, 69289); (69296, 69297); (69376, 69404); (69415, 69415); (69424, 69445); (69488,
    69505); (69552, 69572); (69600, 69622); (69635, 69687); (69745, 69746); (69749, 69749); (69763,
    69807); (69840, 69864); (69891, 69926); (69956, 69956); (69959, 69959); (69968, 70002); (70006,
    70006); (70019, 70066); (70081, 70084); (70106, 70106); (70108, 70108); (70144, 70161); (70163,
    70187); (70272, 70278); (70280, 70280); (70282, 70285); (70287, 70301); (70303, 70312); (70320,
    70366); (70405, 70412); (70415, 70416); (70419, 70440); (70442, 70448); (70450, 70451); (70453,
    70457); (70461, 70461); (70480, 70480); (70493, 70497); (70656, 70708); (70727, 70730); (70751,
    70753); (70784, 70831); (70852, 70853); (70855, 70855); (71040, 71086); (71128, 71131); (71168,
    71215); (71236, 71236); (71296, 71338); (71352, 71352); (71424, 71450); (71488, 71494); (71680,
    71723); (71840, 71903); (71935, 71942); (71945, 71945); (71948, 71955); (71957, 71958); (71960,
    71983); (71999, 71999); (72001, 72001); (72096, 72103); (72106, 72144); (72161, 72161); (72163,
    72163); (72192, 72192); (72203, 72242); (72250, 72250); (72272, 72272); (72284, 72329); (72349,
    72349); (72368, 72440); (72704, 72712); (72714, 72750); (72768, 72768); (72818, 72847); (72960,
    72966); (72968, 72969); (72971, 73008); (73030, 73030); (73056, 73061); (73063, 73064); (73066,
    73097); (73112, 73112); (73440, 73458); (73648, 73648); (73728, 74649); (74880, 75075); (77712,
    77808); (77824, 78894); (82944, 83526); (92160, 92728); (92736, 92766); (92784, 92862); (92880,
    92909); (92928, 92975); (92992, 92995); (93027, 93047); (93053, 93071); (93760, 93823); (93952,
    94026); (94032, 94032); (94099, 94111); (94176, 94177); (94179, 94179); (94208, 100343);
    (100352, 101589); (101632, 101640); (110576, 110579); (110581, 110587); (110589, 110590);
    (110592, 110882); (110928, 110930); (110948, 110951); (110960, 111355); (113664, 113770);
    (113776, 113788); (113792, 113800); (113808, 113817); (119808, 119892); (119894, 119964);
    (119966, 119967); (119970, 119970); (119973, 119974); (119977, 119980); (119982, 119993);
    (119995, 119995); (119997, 120003); (120005, 120069); (120071, 120074); (120077, 120084);
    (120086, 120092); (120094, 120121); (120123, 120126); (120128, 120132); (120134, 120134);
    (120138, 120144); (120146, 120485); (120488, 120512); (120514, 120538); (120540, 120570);
    (120572, 120596); (120598, 120628); (120630, 120654); (120656, 120686); (120688, 120712);
    (120714, 120744); (120746, 120770); (120772, 120779); (122624, 122654); (123136, 123180);
    (123191, 123197); (123214, 123214); (123536, 123565); (123584, 123627); (124896, 124902);
    (124904, 124907); (124909, 124910); (124912, 124926); (124928, 125124); (125184, 125251);
    (125259, 125259); (126464, 126467); (126469, 126495); (126497, 126498); (126500, 126500);
    (126503, 126503); (126505, 126514); (126516, 126519); (126521, 126521); (126523, 126523);
    (126530, 126530); (126535, 126535); (126537, 126537); (126539, 126539); (126541, 126543);
    (126545, 126546); (126548, 126548); (126551, 126551); (126553, 126553); (126555, 126555);
    (126557, 126557); (126559, 126559); (126561, 126562); (126564, 126564); (126567, 126570);
    (126572, 126578); (126580, 126583); (126585, 126588); (126590, 126590); (126592, 126601);
    (126603, 126619); (126625, 126627); (126629, 126633); (126635, 126651); (131072, 173791);
    (173824, 177976); (177984, 178205); (178208, 183969); (183984, 191456); (194560, 195101);
    (196608, 201546) ].

(** Code points [str.isprintable] accepts; [repr] escapes every other one. *)
Definition printable_ranges : list (N * N) :=
  [ (32, 126); (161, 172); (174, 887); (890, 895); (900, 906); (908, 908); (910, 929); (931, 1327);
    (1329, 1366); (1369, 1418); (1421, 1423); (1425, 1479); (1488, 1514); (1519, 1524); (1542,
    1563); (1565, 1756); (1758, 1805); (1808, 1866); (1869, 1969); (1984, 2042); (2045, 2093);
    (2096, 2110); (2112, 2139); (2142, 2142); (2144, 2154); (2160, 2190); (2200, 2273); (2275,
    2435); (2437, 2444); (2447, 2448); (2451, 2472); (2474, 2480); (2482, 2482); (2486, 2489);
    (2492, 2500); (2503, 2504); (2507, 2510); (2519, 2519); (2524, 2525); (2527, 2531); (2534,
    2558); (2561, 2563); (2565, 2570); (2575, 2576); (2579, 2600); (2602, 2608); (2610, 2611);
    (2613, 2614); (2616, 2617); (2620, 2620); (2622, 2626); (2631, 2632); (2635, 2637); (2641,
    2641); (2649, 2652); (2654, 2654); (2662, 2678); (2689, 2691); (2693, 2701); (2703, 2705);
    (2707, 2728); (2730, 2736); (2738, 2739); (2741, 2745); (2748, 2757); (2759, 2761); (2763,
    2765); (2768, 2768); (2784, 2787); (2790, 2801); (2809, 2815); (2817, 2819); (2821, 2828);
    (2831, 2832); (2835, 2856); (2858, 2864); (2866, 2867); (2869, 2873); (2876, 2884); (2887,
    2888); (2891, 2893); (2901, 2903); (2908, 2909); (2911, 2915); (2918, 2935); (2946, 2947);
    (2949, 2954); (2958, 2960); (2962, 2965); (2969, 2970); (2972, 2972); (2974, 2975); (2979,
    2980); (2984, 2986); (2990, 3001); (3006, 3010); (3014, 3016); (3018, 3021); (3024, 3024);
    (3031, 3031); (3046, 3066); (3072, 3084); (3086, 3088); (3090, 3112); (3114, 3129); (3132,
    3140); (3142, 3144); (3146, 3149); (3157, 3158); (3160, 3162); (3165, 3165); (3168, 3171);
    (3174, 3183); (3191, 3212); (3214, 3216); (3218, 3240); (3242, 3251); (3253, 3257); (3260,
    3268); (3270, 3272); (3274, 3277); (3285, 3286); (3293, 3294); (3296, 3299); (3302, 3311);
    (3313, 3314); (3328, 3340); (3342, 3344); (3346, 3396); (3398, 3400); (3402, 3407); (3412,
    3427); (3430, 3455); (3457, 3459); (3461, 3478); (3482, 3505); (3507, 3515); (3517, 3517);
    (3520, 3526); (3530, 3530); (3535, 3540); (3542, 3542); (3544, 3551); (3558, 3567); (3570,
    3572); (3585, 3642); (3647, 3675); (3713, 3714); (3716, 3716); (3718, 3722); (3724, 3747);
    (3749, 3749); (3751, 3773); (3776, 3780); (3782, 3782); (3784, 3789); (3792, 3801); (3804,
    3807); (3840, 3911); (3913, 3948); (3953, 3991); (3993, 4028); (4030, 4044); (4046, 4058);
    (4096, 4293); (4295, 4295); (4301, 4301); (4304, 4680); (4682, 4685); (4688, 4694); (4696,
    4696); (4698, 4701); (4704, 4744); (4746, 4749); (4752, 4784); (4786, 4789); (4792, 4798);
    (4800, 4800); (4802, 4805); (4808, 4822); (4824, 4880); (4882, 4885); (4888, 4954); (4957,
    4988); (4992, 5017); (5024, 5109); (5112, 5117); (5120, 5759); (5761, 5788); (5792, 5880);
    (5888, 5909); (5919, 5942); (5952, 5971); (5984, 5996); (5998, 6000); (6002, 6003); (6016,
    6109); (6112, 6121); (6128, 6137); (6144, 6157); (6159, 6169); (6176, 6264); (6272, 6314);
    (6320, 6389); (6400, 6430); (6432, 6443); (6448, 6459); (6464, 6464); (6468, 6509); (6512,
    6516); (6528, 6571); (6576, 6601); (6608, 6618); (6622, 6683); (6686, 6750); (6752, 6780);
    (6783, 6793); (6800, 6809); (6816, 6829); (6832, 6862); (6912, 6988); (6992, 7038); (7040,
    7155); (7164, 7223); (7227, 7241); (7245, 7304); (7312, 7354); (7357, 7367); (7376, 7418);
    (7424, 7957); (7960, 7965); (7968, 8005); (8008, 8013); (8016, 8023); (8025, 8025); (8027,
    8027); (8029, 8029); (8031, 8061); (8064, 8116); (8118, 8132); (8134, 8147); (8150, 8155);
    (8157, 8175); (8178, 8180); (8182, 8190); (8208, 8231); (8240, 8286); (8304, 8305); (8308,
    8334); (8336, 8348); (8352, 8384); (8400, 8432); (8448, 8587); (8592, 9254); (9280, 9290);
    (9312, 11123); (11126, 11157); (11159, 11507); (11513, 11557); (11559, 11559); (11565, 11565);
    (11568, 11623); (11631, 11632); (11647, 11670); (11680, 11686); (11688, 11694); (11696, 11702);
    (11704, 11710); (11712, 11718); (11720, 11726); (11728, 11734); (11736, 11742); (11744, 11869);
    (11904, 11929); (11931, 12019); (12032, 12245); (12272, 12283); (12289, 12351); (12353, 12438);
    (12441, 12543); (12549, 12591); (12593, 12686); (12688, 12771); (12784, 12830); (12832, 42124);
    (42128, 42182); (42192, 42539); (42560, 42743); (42752, 42954); (42960, 42961); (42963, 42963);
    (42965, 42969); (42994, 43052); (43056, 43065); (43072, 43127); (43136, 43205); (43214, 43225);
    (43232, 43347); (43359, 43388); (43392, 43469); (43471, 43481); (43486, 43518); (43520, 43574);
    (43584, 43597); (43600, 43609); (43612, 43714); (43739, 43766); (43777, 43782); (43785, 43790);
    (43793, 43798); (43808, 43814); (43816, 43822); (43824, 43883); (43888, 44013); (44016, 44025);
    (44032, 55203); (55216, 55238); (55243, 55291); (63744, 64109); (64112, 64217); (64256, 64262);
    (64275, 64279); (64285, 64310); (64312, 64316); (64318, 64318); (64320, 64321); (64323, 64324);
    (64326, 64450); (64467, 64911); (64914, 64967); (64975, 64975); (65008, 65049); (65056, 65106);
    (65108, 65126); (65128, 65131); (65136, 65140); (65142, 65276); (65281, 65470); (65474, 65479);
    (65482, 65487); (65490, 65495); (65498, 65500); (65504, 65510); (65512, 65518); (65532, 65533);
    (65536, 65547); (65549, 65574); (65576, 65594); (65596, 65597); (65599, 65613); (65616, 65629);
    (65664, 65786); (65792, 65794); (65799, 65843); (65847, 65934); (65936, 65948); (65952, 65952);
    (66000, 66045); (66176, 66204); (66208, 66256); (66272, 66299); (66304, 66339); (66349, 66378);
    (66384, 66426); (66432, 66461); (66463, 66499); (66504, 66517); (66560, 66717); (66720, 66729);
    (66736, 66771); (66776, 66811); (66816, 66855); (66864, 66915); (66927, 66938); (66940, 66954);
    (66956, 66962); (66964, 66965); (66967, 66977); (66979, 66993); (66995, 67001); (67003, 67004);
    (67072, 67382); (67392, 67413); (67424, 67431); (67456, 67461); (67463, 67504); (67506, 67514);
    (67584, 67589); (67592, 67592); (67594, 67637); (67639, 67640); (67644, 67644); (67647, 67669);
    (67671, 67742); (67751, 67759); (67808, 67826); (67828, 67829); (67835, 67867); (67871, 67897);
    (67903, 67903); (67968, 68023); (68028, 68047); (68050, 68099); (68101, 68102); (68108, 68115);
    (68117, 68119); (68121, 68149); (68152, 68154); (68159, 68168); (68176, 68184); (68192, 68255);
    (68288, 68326); (68331, 68342); (68352, 68405); (68409, 68437); (68440, 68466); (68472, 68497);
    (68505, 68508); (68521, 68527); (68608, 68680); (68736, 68786); (68800, 68850); (68858, 68903);
    (68912, 68921); (69216, 69246); (69248, 69289); (69291, 69293); (69296, 69297); (69376, 69415);
    (69424, 69465); (69488, 69513); (69552, 69579); (69600, 69622); (69632, 69709); (69714, 69749);
    (69759, 69820); (69822, 69826); (69840, 69864); (69872, 69881); (69888, 69940); (69942, 69959);
    (69968, 70006); (70016, 70111); (70113, 70132); (70144, 70161); (70163, 70206); (70272, 70278);
    (70280, 70280); (70282, 70285); (70287, 70301); (70303, 70313); (70320, 70378); (70384, 70393);
    (70400, 70403); (70405, 70412); (70415, 70416); (70419, 70440); (70442, 70448); (70450, 70451);
    (70453, 70457); (70459, 70468); (70471, 70472); (70475, 70477); (70480, 70480); (70487, 70487);
    (70493, 70499); (70502, 70508); (70512, 70516); (70656, 70747); (70749, 70753); (70784, 70855);
    (70864, 70873); (71040, 71093); (71096, 71133); (71168, 71236); (71248, 71257); (71264, 71276);
    (71296, 71353); (71360, 71369); (71424, 71450); (71453, 71467); (71472, 71494); (71680, 71739);
    (71840, 71922); (71935, 71942); (71945, 71945); (71948, 71955); (71957, 71958); (71960, 71989);
    (71991, 71992); (71995, 72006); (72016, 72025); (72096, 72103); (72106, 72151); (72154, 72164);
    (72192, 72263); (72272, 72354); (72368, 72440); (72704, 72712); (72714, 72758); (72760, 72773);
    (72784, 72812); (72816, 72847); (72850, 72871); (72873, 72886); (72960, 72966); (72968, 72969);
    (72971, 73014); (73018, 73018); (73020, 73021); (73023, 73031); (73040, 73049); (73056, 73061);
    (73063, 73064); (73066, 73102); (73104, 73105); (73107, 73112); (73120, 73129); (73440, 73464);
    (73648, 73648); (73664, 73713); (73727, 74649); (74752, 74862); (74864, 74868); (74880, 75075);
    (77712, 77810); (77824, 78894); (82944, 83526); (92160, 92728); (92736, 92766); (92768, 92777);
    (92782, 92862); (92864, 92873); (92880, 92909); (92912, 92917); (92928, 92997); (93008, 93017);
    (93019, 93025); (93027, 93047); (93053, 93071); (93760, 93850); (93952, 94026); (94031, 94087);
    (94095, 94111); (94176, 94180); (94192, 94193); (94208, 100343); (100352, 101589); (101632,
    101640); (110576, 110579); (110581, 110587); (110589, 110590); (110592, 110882); (110928,
    110930); (110948, 110951); (110960, 111355); (113664, 113770); (113776, 113788); (113792,
    113800); (113808, 113817); (113820, 113823); (118528, 118573); (118576, 118598); (118608,
    118723); (118784, 119029); (119040, 119078); (119081, 119154); (119163, 119274); (119296,
    119365); (119520, 119539); (119552, 119638); (119648, 119672); (119808, 119892); (119894,
    119964); (119966, 119967); (119970, 119970); (119973, 119974); (119977, 119980); (119982,
    119993); (119995, 119995); (119997, 120003); (120005, 120069); (120071, 120074); (120077,
    120084); (120086, 120092); (120094, 120121); (120123, 120126); (120128, 120132); (120134,
    120134); (120138, 120144); (120146, 120485); (120488, 120779); (120782, 121483); (121499,
    121503); (121505, 121519); (122624, 122654); (122880, 122886); (122888, 122904); (122907,
    122913); (122915, 122916); (122918, 122922); (123136, 123180); (123184, 123197); (123200,
    123209); (123214, 123215); (123536, 123566); (123584, 123641); (123647, 123647); (124896,
    124902); (124904, 124907); (124909, 124910); (124912, 124926); (124928, 125124); (125127,
    125142); (125184, 125259); (125264, 125273); (125278, 125279); (126065, 126132); (126209,
    126269); (126464, 126467); (126469, 126495); (126497, 126498); (126500, 126500); (126503,
    126503); (126505, 126514); (126516, 126519); (126521, 126521); (126523, 126523); (126530,
    126530); (126535, 126535); (126537, 126537); (126539, 126539); (126541, 126543); (126545,
    126546); (126548, 126548); (126551, 126551); (126553, 126553); (126555, 126555); (126557,
    126557); (126559, 126559); (126561, 126562); (126564, 126564); (126567, 126570); (126572,
    126578); (126580, 126583); (126585, 126588); (126590, 126590); (126592, 126601); (126603,
    126619); (126625, 126627); (126629, 126633); (126635, 126651); (126704, 126705); (126976,
    127019); (127024, 127123); (127136, 127150); (127153, 127167); (127169, 127183); (127185,
    127221); (127232, 127405); (127462, 127490); (127504, 127547); (127552, 127560); (127568,
    127569); (127584, 127589); (127744, 128727); (128733, 128748); (128752, 128764); (128768,
    128883); (128896, 128984); (128992, 129003); (129008, 129008); (129024, 129035); (129040,
    129095); (129104, 129113); (129120, 129159); (129168, 129197); (129200, 129201); (129280,
    129619); (129632, 129645); (129648, 129652); (129656, 129660); (129664, 129670); (129680,
    129708); (129712, 129722); (129728, 129733); (129744, 129753); (129760, 129767); (129776,
    129782); (129792, 129938); (129940, 129994); (130032, 130041); (131072, 173791); (173824,
    177976); (177984, 178205); (178208, 183969); (183984, 191456); (194560, 195101); (196608,
    201546); (917760, 917999) ].

(** Code points [str.isspace] accepts. *)
Definition space_ranges : list (N * N) :=
  [ (9, 13); (28, 32); (133, 133); (160, 160); (5760, 5760); (8192, 8202); (8232, 8233); (8239,
    8239); (8287, 8287); (12288, 12288) ].

Definition in_ranges (rs : list (N * N)) (c : N) : bool :=
  existsb (fun r => (fst r <=? c) && (c <=? snd r)) rs.

Definition isdecimal (c : N) : bool := in_ranges decimal_ranges c.
Definition isdigit (c : N) : bool := in_ranges digit_ranges c.
Definition isalpha (c : N) : bool := in_ranges alpha_ranges c.
Definition isprintable (c : N) : bool := in_ranges printable_ranges c.
Definition isspace (c : N) : bool := in_ranges space_ranges c.

(** The value of a decimal digit ([unicodedata.decimal]). *)
Fixpoint decimal_in (rs : list (N * N)) (c : N) : option N :=
  match rs with
  | [] => None
  | (lo, hi) :: rs' =>
      if (lo <=? c) && (c <=? hi) then Some ((c - lo) mod 10)
      else decimal_in rs' c
  end.

Definition decimal (c : N) : option N := decimal_in decimal_ranges c.

End Unicode.

(** ** Strings *)

Definition str : Type := list N.

(** An ASCII literal as a Python string. *)
Definition lit (s : string) : str := map N_of_ascii (list_ascii_of_string s).

Fixpoint str_eqb (a b : str) : bool :=
  match a, b with
  | [], [] => true
  | x :: a', y :: b' => N.eqb x y && str_eqb a' b'
  | _, _ => false
  end.

Definition len (s : str) : Z := Z.of_nat (List.length s).

(** [str.isalpha()] and [str.isdigit()]: every character qualifies and
    there is at least one character. *)
Definition str_isalpha (s : str) : bool :=
  match s with [] => false | _ => forallb Unicode.isalpha s end.

Definition str_isdigit (s : str) : bool :=
  match s with [] => false | _ => forallb Unicode.isdigit s end.

(** [sep.join(parts)]. *)
Fixpoint join (sep : str) (parts : list str) : str :=
  match parts with
  | [] => []
  | [p] => p
  | p :: ps => p ++ sep ++ join sep ps
  end.

(** Truth value of a string ([if phone:] on a string that was passed). *)
Definition str_truthy (s : str) : bool :=
  match s with [] => false | _ => true end.

(** *** [repr] of a string *)

Local Open Scope N_scope.

Definition hexdigit (n : N) : N :=
  if n <? 10 then 48 + n else 97 + (n - 10).

(** [k] lower-case hexadecimal digits of [c], most significant first. *)
Fixpoint hex_digits (k : nat) (c : N) : str :=
  match k with
  | O => []
  | S k' => hex_digits k' (c / 16) ++ [hexdigit (c mod 16)]
  end.

Definition repr_quote (s : str) : N :=
  if existsb (N.eqb 39) s && negb (existsb (N.eqb 34) s) then 34 else 39.

Definition repr_char (quote c : N) : str :=
  if (c =? quote) || (c =? 92) then [92; c]
  else if c =? 9 then [92; 116]
  else if c =? 10 then [92; 110]
  else if c =? 13 then [92; 114]
  else if (c <? 32) || (c =? 127) then [92; 120] ++ hex_digits 2 c
  else if c <? 127 then [c]
  else if Unicode.isprintable c then [c]
  else if c <=? 255 then [92; 120] ++ hex_digits 2 c
  else if c <=? 65535 then [92; 117] ++ hex_digits 4 c
  else [92; 85] ++ hex_digits 8 c.

Definition repr (s : str) : str :=
  let q := repr_quote s in
  [q] ++ flat_map (repr_char q) s ++ [q].

Local Close Scope N_scope.

(** ** Exceptions and results *)

Inductive exn : Type :=
| ValidationException (msg : str)
| ValueError (msg : str)
| OverflowError (msg : str)
| IndexError (msg : str)
| KeyError (key : str).

(** [str(e)]: the single argument, except that [KeyError] shows the
    [repr] of its argument. *)
Definition exn_str (e : exn) : str :=
  match e with
  | ValidationException m | ValueError m | OverflowError m | IndexError m => m
  | KeyError k => repr k
  end.

Inductive result (A : Type) : Type :=
| Return (a : A)
| Raise (e : exn).
Arguments Return {A} a.
Arguments Raise {A} e.

Definition bind {A B} (r : result A) (k : A -> result B) : result B :=
  match r with
  | Return a => k a
  | Raise e => Raise e
  end.

Notation "x <- r ;; k" := (bind r (fun x => k))
  (at level 61, r at next level, right associativity).

Definition returns {A} (r : result A) : bool :=
  match r with Return _ => true | Raise _ => false end.

(** ** Validated fields *)

Record Name : Type := mkName { name_value : str }.
Record Phone : Type := mkPhone { phone_value : str }.

Definition validate_name (value : str) : result unit :=
  if negb (str_isalpha value)
  then Raise (ValidationException (lit "Name must contain only letters"))
  else Return tt.

Definition Name_init (value : str) : result Name :=
  _ <- validate_name value ;;
  Return (mkName value).

Definition validate_phone (value : str) : result unit :=
  if negb (str_isdigit value) || negb (len value =? 10)%Z
  then Raise (ValidationException (lit "Phone number must be 10 digits"))
  else Return tt.

Definition Phone_init (value : str) : result Phone :=
  _ <- validate_phone value ;;
  Return (mkPhone value).

(** ** [datetime.date]

    The calendar arithmetic follows the reference implementation of the
    [datetime] module ([_ymd2ord], [_ord2ymd], [date.toordinal],
    [date.fromordinal], [date.weekday], [date.__add__], [date.__sub__],
    [date.replace]); the exception messages are those of CPython 3.11. *)

Local Open Scope Z_scope.

Record date : Type := mkdate { year : Z; month : Z; day : Z }.

Definition MINYEAR : Z := 1.
Definition MAXYEAR : Z := 9999.
Definition MAXORDINAL : Z := 3652059.

Definition is_leap (y : Z) : bool :=
  (y mod 4 =? 0) && (negb (y mod 100 =? 0) || (y mod 400 =? 0)).

Definition DAYS_IN_MONTH (m : Z) : Z :=
  match m with
  | 1 => 31 | 2 => 28 | 3 => 31 | 4 => 30 | 5 => 31 | 6 => 30
  | 7 => 31 | 8 => 31 | 9 => 30 | 10 => 31 | 11 => 30 | 12 => 31
  | _ => -1
  end.

Definition DAYS_BEFORE_MONTH (m : Z) : Z :=
  match m with
  | 1 => 0 | 2 => 31 | 3 => 59 | 4 => 90 | 5 => 120 | 6 => 151
  | 7 => 181 | 8 => 212 | 9 => 243 | 10 => 273 | 11 => 304 | 12 => 334
  | _ => -1
  end.

Definition days_in_month (y m : Z) : Z :=
  if (m =? 2) && is_leap y then 29 else DAYS_IN_MONTH m.

Definition days_before_year (y : Z) : Z :=
  let y1 := y - 1 in
  y1 * 365 + y1 / 4 - y1 / 100 + y1 / 400.

Definition days_before_month (y m : Z) : Z :=
  DAYS_BEFORE_MONTH m + (if (2 <? m) && is_leap y then 1 else 0).

Definition ymd2ord (y m d : Z) : Z :=
  days_before_year y + days_before_month y m + d.

Definition DI400Y : Z := 146097.
Definition DI100Y : Z := 36524.
Definition DI4Y : Z := 1461.

Definition ord2ymd (n0 : Z) : Z * Z * Z :=
  let n := n0 - 1 in
  let n400 := n / DI400Y in
  let n := n mod DI400Y in
  let y := n400 * 400 + 1 in
  let n100 := n / DI100Y in
  let n := n mod DI100Y in
  let n4 := n / DI4Y in
  let n := n mod DI4Y in
  let n1 := n / 365 in
  let n := n mod 365 in
  let y := y + n100 * 100 + n4 * 4 + n1 in
  if (n1 =? 4) || (n100 =? 4) then (y - 1, 12, 31)
  else
    let leapyear := (n1 =? 3) && (negb (n4 =? 24) || (n100 =? 3)) in
    let m := Z.shiftr (n + 50) 5 in
    let preceding :=
      DAYS_BEFORE_MONTH m + (if (2 <? m) && leapyear then 1 else 0) in
    if n <? preceding then
      let m := m - 1 in
      let preceding :=
        preceding
        - (DAYS_IN_MONTH m + (if (m =? 2) && leapyear then 1 else 0)) in
      (y, m, n - preceding + 1)
    else (y, m, n - preceding + 1).

(** Decimal rendering of an integer ([str(n)], [%i], [%d]): the digits
    are produced from the last one; a number has no more decimal digits
    than binary ones, which bounds the recursion. *)
Fixpoint dec_digits (fuel : nat) (n : Z) (acc : str) : str :=
  let acc' := (48 + Z.to_N (n mod 10))%N :: acc in
  match fuel with
  | O => acc'
  | S fuel' => if n <? 10 then acc' else dec_digits fuel' (n / 10) acc'
  end.

Definition dec (z : Z) : str :=
  if z <? 0 then 45%N :: dec_digits (Z.to_nat (Z.log2 (- z))) (- z) []
  else dec_digits (Z.to_nat (Z.log2 z)) z [].

(** [date(year, month, day)]: the constructor checks its fields. *)
Definition date_new (y m d : Z) : result date :=
  if (y <? MINYEAR) || (MAXYEAR <? y)
  then Raise (ValueError (lit "year " ++ dec y ++ lit " is out of range"))
  else if (m <? 1) || (12 <? m)
  then Raise (ValueError (lit "month must be in 1..12"))
  else if (d <? 1) || (days_in_month y m <? d)
  then Raise (ValueError (lit "day is out of range for month"))
  else Return (mkdate y m d).

(** The invariant of a constructed [date]. *)
Definition date_ok (d : date) : bool :=
  (MINYEAR <=? year d) && (year d <=? MAXYEAR)
  && (1 <=? month d) && (month d <=? 12)
  && (1 <=? day d) && (day d <=? days_in_month (year d) (month d)).

(** [d.replace(year=y)]. *)
Definition replace_year (d : date) (y : Z) : result date :=
  date_new y (month d) (day d).

Definition toordinal (d : date) : Z := ymd2ord (year d) (month d) (day d).

Definition fromordinal (n : Z) : result date :=
  if n <? 1 then Raise (ValueError (lit "ordinal must be >= 1"))
  else let '(y, m, d) := ord2ymd n in date_new y m d.

(** Monday is 0, Sunday is 6. *)
Definition weekday (d : date) : Z := (toordinal d + 6) mod 7.

(** [d + timedelta(days=n)]. *)
Definition date_add (d : date) (n : Z) : result date :=
  let o := toordinal d + n in
  if (0 <? o) && (o <=? MAXORDINAL) then fromordinal o
  else Raise (OverflowError (lit "date value out of range")).

(** [(d1 - d2).days]. *)
Definition days_between (d1 d2 : date) : Z := toordinal d1 - toordinal d2.

(** [d1 < d2]: dates compare as (year, month, day) triples. *)
Definition date_ltb (d1 d2 : date) : bool :=
  (year d1 <? year d2)
  || ((year d1 =? year d2)
      && ((month d1 <? month d2)
          || ((month d1 =? month d2) && (day d1 <? day d2)))).

(** *** [strftime]

    Only the directives the program uses are interpreted: [%d] and [%m]
    are two digits, zero-padded.  [%Y] is delegated to the C library:
    glibc prints a year below 1000 without leading zeros, other C
    libraries (and CPython from 3.13 on every platform) pad it to four
    digits. *)

Variant c_runtime : Type := UnpaddedYear | PaddedYear.

Definition zfill (width : nat) (s : str) : str :=
  repeat 48%N (width - List.length s) ++ s.

Definition fmt_year (rt : c_runtime) (y : Z) : str :=
  match rt with
  | UnpaddedYear => dec y
  | PaddedYear => zfill 4 (dec y)
  end.

Fixpoint strftime_go (rt : c_runtime) (d : date) (fmt : str) : str :=
  match fmt with
  | 37%N :: 100%N :: fmt' => zfill 2 (dec (day d)) ++ strftime_go rt d fmt'
  | 37%N :: 109%N :: fmt' => zfill 2 (dec (month d)) ++ strftime_go rt d fmt'
  | 37%N :: 89%N :: fmt' => fmt_year rt (year d) ++ strftime_go rt d fmt'
  | c :: fmt' => c :: strftime_go rt d fmt'
  | [] => []
  end.

Definition strftime (rt : c_runtime) (d : date) (fmt : string) : str :=
  strftime_go rt d (lit fmt).

(** *** [strptime]

    [datetime.strptime] compiles the format into a regular expression
    with one named group per directive, takes the first match of the
    backtracking matcher at the start of the text, rejects text left
    over after it, converts the groups with [int] and builds the date.
    The matcher below returns every match in the order a backtracking
    engine tries them, so its head is the match [re.match] finds. *)

Inductive regex : Type :=
| REps
| RLit (c : N)
| RRange (lo hi : N)
| RDecimal
| RSeq (r1 r2 : regex)
| RAlt (r1 r2 : regex)
| RGroup (name : string) (r : regex).

Definition groups : Type := list (string * str).

Definition rx_class (p : N -> bool) (s : str) : list (str * groups * str) :=
  match s with
  | x :: s' => if p x then [([x], [], s')] else []
  | [] => []
  end.

(** Each match is (text consumed, named groups, text left). *)
Fixpoint rx_run (r : regex) (s : str) : list (str * groups * str) :=
  match r with
  | REps => [([], [], s)]
  | RLit c => rx_class (N.eqb c) s
  | RRange lo hi => rx_class (fun x => (lo <=? x)%N && (x <=? hi)%N) s
  | RDecimal => rx_class Unicode.isdecimal s
  | RSeq r1 r2 =>
      flat_map
        (fun '(m1, g1, rest1) =>
           map (fun '(m2, g2, rest2) => (m1 ++ m2, g1 ++ g2, rest2))
               (rx_run r2 rest1))
        (rx_run r1 s)
  | RAlt r1 r2 => rx_run r1 s ++ rx_run r2 s
  | RGroup name r1 =>
      map (fun '(m, g, rest) => (m, (name, m) :: g, rest)) (rx_run r1 s)
  end.

Definition rx_digit (lo hi : Z) : regex :=
  RRange (48 + Z.to_N lo)%N (48 + Z.to_N hi)%N.

(** [3[0-1]|[1-2]\d|0[1-9]|[1-9]| [1-9]] *)
Definition re_d : regex :=
  RAlt (RSeq (RLit 51) (rx_digit 0 1))
    (RAlt (RSeq (rx_digit 1 2) RDecimal)
      (RAlt (RSeq (RLit 48) (rx_digit 1 9))
        (RAlt (rx_digit 1 9)
              (RSeq (RLit 32) (rx_digit 1 9))))).

(** [1[0-2]|0[1-9]|[1-9]] *)
Definition re_m : regex :=
  RAlt (RSeq (RLit 49) (rx_digit 0 2))
    (RAlt (RSeq (RLit 48) (rx_digit 1 9))
          (rx_digit 1 9)).

(** [\d\d\d\d] *)
Definition re_Y : regex :=
  RSeq RDecimal (RSeq RDecimal (RSeq RDecimal RDecimal)).

(** [TimeRE.pattern]: a directive becomes its named group, any other
    character matches itself.  Directives other than [%d], [%m], [%Y]
    and whitespace in the format are outside this model. *)
Fixpoint TimeRE_pattern (fmt : str) : result regex :=
  match fmt with
  | [] => Return REps
  | 37%N :: 100%N :: fmt' =>
      r <- TimeRE_pattern fmt' ;; Return (RSeq (RGroup "d" re_d) r)
  | 37%N :: 109%N :: fmt' =>
      r <- TimeRE_pattern fmt' ;; Return (RSeq (RGroup "m" re_m) r)
  | 37%N :: 89%N :: fmt' =>
      r <- TimeRE_pattern fmt' ;; Return (RSeq (RGroup "Y" re_Y) r)
  | 37%N :: _ => Raise (ValueError (lit "bad directive in format"))
  | c :: fmt' =>
      r <- TimeRE_pattern fmt' ;; Return (RSeq (RLit c) r)
  end.

(** [int(s)] on the texts a group can hold: optional surrounding
    whitespace, then decimal digits of any script. *)
Fixpoint digits_value (acc : Z) (s : str) : option Z :=
  match s with
  | [] => Some acc
  | c :: s' =>
      match Unicode.decimal c with
      | Some v => digits_value (10 * acc + Z.of_N v) s'
      | None => None
      end
  end.

Fixpoint lstrip (s : str) : str :=
  match s with
  | c :: s' => if Unicode.isspace c then lstrip s' else s
  | [] => []
  end.

Definition strip (s : str) : str := rev (lstrip (rev (lstrip s))).

Definition py_int (s : str) : result Z :=
  match strip s with
  | [] => Raise (ValueError
                   (lit "invalid literal for int() with base 10: " ++ repr s))
  | t =>
      match digits_value 0 t with
      | Some z => Return z
      | None => Raise (ValueError
                   (lit "invalid literal for int() with base 10: " ++ repr s))
      end
  end.

Fixpoint group_get (name : string) (g : groups) : option str :=
  match g with
  | [] => None
  | (k, v) :: g' => if String.eqb k name then Some v else group_get name g'
  end.

Definition group_int (name : string) (default : Z) (g : groups) : result Z :=
  match group_get name g with
  | Some text => py_int text
  | None => Return default
  end.

(** [datetime.strptime(data_string, format).date()]. *)
Definition strptime (data_string : str) (format : string) : result date :=
  pat <- TimeRE_pattern (lit format) ;;
  match rx_run pat data_string with
  | [] =>
      Raise (ValueError (lit "time data " ++ repr data_string
                         ++ lit " does not match format "
                         ++ repr (lit format)))
  | (_, found, rest) :: _ =>
      match rest with
      | _ :: _ => Raise (ValueError (lit "unconverted data remains: " ++ rest))
      | [] =>
          y <- group_int "Y" 1900 found ;;
          m <- group_int "m" 1 found ;;
          d <- group_int "d" 1 found ;;
          date_new y m d
      end
  end.

Record Birthday : Type := mkBirthday { birthday_value : date }.

Definition Birthday_init (value : str) : result Birthday :=
  match strptime value "%d.%m.%Y" with
  | Return d => Return (mkBirthday d)
  | Raise (ValueError _) =>
      Raise (ValidationException (lit "Invalid date format. Use DD.MM.YYYY"))
  | Raise e => Raise e
  end.

(** ** Contact records

    A method that mutates its record returns the record's new state; all
    of them raise before they change anything, so a raising call leaves
    the record as it was. *)

Record ContactRecord : Type := mkRecord {
  name : Name;
  phones : list Phone;
  birthday : option Birthday
}.

Definition Record_init (value : str) : result ContactRecord :=
  n <- Name_init value ;;
  Return (mkRecord n [] None).

Definition add_phone (self : ContactRecord) (phone : str)
  : result ContactRecord :=
  p <- Phone_init phone ;;
  Return (mkRecord (name self) (phones self ++ [p]) (birthday self)).

(** The loop of [edit_phone]: the first phone whose value equals
    [old_phone] gets [new_phone] assigned as its value. *)
Fixpoint edit_first (ps : list Phone) (old_phone new_phone : str)
  : option (list Phone) :=
  match ps with
  | [] => None
  | p :: ps' =>
      if str_eqb (phone_value p) old_phone
      then Some (mkPhone new_phone :: ps')
      else option_map (cons p) (edit_first ps' old_phone new_phone)
  end.

Definition edit_phone (self : ContactRecord) (old_phone new_phone : str)
  : result ContactRecord :=
  match edit_first (phones self) old_phone new_phone with
  | Some ps => Return (mkRecord (name self) ps (birthday self))
  | None => Raise (ValidationException (lit "Phone number not found"))
  end.

Fixpoint find_phone_in (ps : list Phone) (phone : str) : option Phone :=
  match ps with
  | [] => None
  | p :: ps' =>
      if str_eqb (phone_value p) phone then Some p else find_phone_in ps' phone
  end.

Definition find_phone (self : ContactRecord) (phone : str) : option Phone :=
  find_phone_in (phones self) phone.

Fixpoint remove_first (ps : list Phone) (phone : str) : option (list Phone) :=
  match ps with
  | [] => None
  | p :: ps' =>
      if str_eqb (phone_value p) phone then Some ps'
      else option_map (cons p) (remove_first ps' phone)
  end.

Definition remove_phone (self : ContactRecord) (phone : str)
  : result ContactRecord :=
  match remove_first (phones self) phone with
  | Some ps => Return (mkRecord (name self) ps (birthday self))
  | None => Raise (ValidationException (lit "Phone number not found"))
  end.

Definition add_birthday (self : ContactRecord) (value : str)
  : result ContactRecord :=
  b <- Birthday_init value ;;
  Return (mkRecord (name self) (phones self) (Some b)).

Definition show_birthday (rt : c_runtime) (self : ContactRecord) : str :=
  match birthday self with
  | Some b => strftime rt (birthday_value b) "%d.%m.%Y"
  | None => lit "Birthday not set"
  end.

Definition Record_str (rt : c_runtime) (self : ContactRecord) : str :=
  let birthday_str :=
    match birthday self with
    | Some _ => lit ", birthday: " ++ show_birthday rt self
    | None => []
    end in
  lit "Contact name: " ++ name_value (name self) ++ lit ", phones: "
  ++ join (lit "; ") (map phone_value (phones self)) ++ birthday_str.

(** ** The address book

    [AddressBook.data] is a Python [dict]: keys are unique and iteration
    follows insertion order; assigning to a key that is present keeps
    its position. *)

Definition AddressBook : Type := list (str * ContactRecord).

Fixpoint dict_get (k : str) (data : AddressBook) : option ContactRecord :=
  match data with
  | [] => None
  | (k', v) :: data' => if str_eqb k' k then Some v else dict_get k data'
  end.

Fixpoint dict_set (k : str) (v : ContactRecord) (data : AddressBook)
  : AddressBook :=
  match data with
  | [] => [(k, v)]
  | (k', v') :: data' =>
      if str_eqb k' k then (k', v) :: data'
      else (k', v') :: dict_set k v data'
  end.

Fixpoint dict_del (k : str) (data : AddressBook) : AddressBook :=
  match data with
  | [] => []
  | (k', v') :: data' =>
      if str_eqb k' k then data' else (k', v') :: dict_del k data'
  end.

Definition dict_values (data : AddressBook) : list ContactRecord :=
  map snd data.

Definition add_record (record : ContactRecord) (self : AddressBook)
  : AddressBook :=
  dict_set (name_value (name record)) record self.

Definition find (key : str) (self : AddressBook) : option ContactRecord :=
  dict_get key self.

Definition delete (key : str) (self : AddressBook) : AddressBook :=
  dict_del key self.

(** A record is an object held by one slot of the dictionary; a method
    that mutated the record found under [key] is seen through that slot. *)
Definition mutated (key : str) (record' : ContactRecord) (self : AddressBook)
  : AddressBook :=
  dict_set key record' self.

(** *** Upcoming birthdays *)

Record upcoming : Type := mkUpcoming {
  upcoming_name : str;
  upcoming_birthday : str;
  upcoming_congratulation_date : str
}.

(** The birthday mapped onto the current year, or onto the next year
    when that date is already past. *)
Definition next_birthday (today birthday : date) : result date :=
  this_year_birthday <- replace_year birthday (year today) ;;
  if date_ltb this_year_birthday today
  then replace_year this_year_birthday (year today + 1)
  else Return this_year_birthday.

Definition congratulation (this_year_birthday : date) : result date :=
  if weekday this_year_birthday =? 5 then date_add this_year_birthday 2
  else if weekday this_year_birthday =? 6 then date_add this_year_birthday 1
  else Return this_year_birthday.

(** One iteration of the loop: what the record contributes. *)
Definition upcoming_of (rt : c_runtime) (today : date) (record : ContactRecord)
  : result (option upcoming) :=
  match birthday record with
  | None => Return None
  | Some b =>
      this_year_birthday <- next_birthday today (birthday_value b) ;;
      let days := days_between this_year_birthday today in
      if (0 <=? days) && (days <=? 7) then
        congratulation_date <- congratulation this_year_birthday ;;
        Return (Some (mkUpcoming
                        (name_value (name record))
                        (strftime rt congratulation_date "%d.%m.%Y")
                        (strftime rt congratulation_date "%Y.%m.%d")))
      else Return None
  end.

Fixpoint upcoming_loop (rt : c_runtime) (today : date)
    (records : list ContactRecord) (upcoming_birthdays : list upcoming)
  : result (list upcoming) :=
  match records with
  | [] => Return upcoming_birthdays
  | record :: records' =>
      o <- upcoming_of rt today record ;;
      upcoming_loop rt today records'
        (match o with
         | Some u => upcoming_birthdays ++ [u]
         | None => upcoming_birthdays
         end)
  end.

Definition get_upcoming_birthdays (rt : c_runtime) (today : date)
    (self : AddressBook) : result (list upcoming) :=
  upcoming_loop rt today (dict_values self) [].

(** *** Commands on the address book

    These return the address book they leave behind together with the
    outcome, also when they raise. *)

Definition add_contact (key : str) (phone : option str) (self : AddressBook)
  : AddressBook * result str :=
  let looked_up :=
    match find key self with
    | None =>
        record <- Record_init key ;;
        Return (record, add_record record self, lit "Contact added.")
    | Some record => Return (record, self, lit "Contact updated.")
    end in
  match looked_up with
  | Raise e => (self, Raise e)
  | Return (record, self1, message) =>
      match phone with
      | Some p =>
          if str_truthy p then
            match add_phone record p with
            | Raise e => (self1, Raise e)
            | Return record' => (mutated key record' self1, Return message)
            end
          else (self1, Return message)
      | None => (self1, Return message)
      end
  end.

Definition change_contact (key old_phone new_phone : str) (self : AddressBook)
  : AddressBook * result str :=
  match find key self with
  | None => (self, Raise (KeyError (lit "Contact not found.")))
  | Some record =>
      match edit_phone record old_phone new_phone with
      | Raise e => (self, Raise e)
      | Return record' =>
          (mutated key record' self, Return (lit "Phone number updated."))
      end
  end.

Definition show_phone (key : str) (self : AddressBook) : result str :=
  match find key self with
  | None => Raise (KeyError (lit "Contact not found."))
  | Some record => Return (join (lit "; ") (map phone_value (phones record)))
  end.

Definition show_all (rt : c_runtime) (self : AddressBook) : str :=
  match self with
  | [] => lit "No contacts available."
  | _ => join [10%N] (map (Record_str rt) (dict_values self))
  end.

(** ** Command handlers *)

(** The decorator: whatever the handler raises is caught and its [str]
    is returned in place of the handler's result. *)
Definition input_error {A : Type}
    (func : A -> AddressBook -> AddressBook * result str)
  : A -> AddressBook -> AddressBook * str :=
  fun args book =>
    match func args book with
    | (book', Return s) => (book', s)
    | (book', Raise e) => (book', exn_str e)
    end.

Definition handle_add_birthday_body (args : list str) (book : AddressBook)
  : AddressBook * result str :=
  match args with
  | [key; date_text] =>
      match find key book with
      | None => (book, Raise (KeyError (lit "Contact not found.")))
      | Some record =>
          match add_birthday record date_text with
          | Raise e => (book, Raise e)
          | Return record' =>
              (mutated key record' book, Return (lit "Birthday added"))
          end
      end
  | _ => (book, Raise (IndexError
                  (lit "Please provide contact name and birthday date.")))
  end.

Definition handle_show_birthday_body (rt : c_runtime) (args : list str)
    (book : AddressBook) : AddressBook * result str :=
  match args with
  | [key] =>
      match find key book with
      | None => (book, Raise (KeyError (lit "Contact not found.")))
      | Some record => (book, Return (show_birthday rt record))
      end
  | _ => (book, Raise (IndexError (lit "Please provide contact name.")))
  end.

Definition show_upcoming (b : upcoming) : str :=
  upcoming_name b ++ lit ": birthday on " ++ upcoming_birthday b
  ++ lit ", celebrate on " ++ upcoming_congratulation_date b.

Definition handle_birthdays_body (rt : c_runtime) (today : date)
    (args : list str) (book : AddressBook) : AddressBook * result str :=
  match get_upcoming_birthdays rt today book with
  | Raise e => (book, Raise e)
  | Return [] =>
      (book, Return (lit "There are no birthdays in the next 7 days."))
  | Return found => (book, Return (join [10%N] (map show_upcoming found)))
  end.

Definition handle_add_contact_body (args : list str) (book : AddressBook)
  : AddressBook * result str :=
  match args with
  | [key; phone] => add_contact key (Some phone) book
  | _ => (book, Raise (IndexError
                  (lit "Please provide contact name and phone number.")))
  end.

Definition handle_change_contact_body (args : list str) (book : AddressBook)
  : AddressBook * result str :=
  match args with
  | [key; old_phone; new_phone] => change_contact key old_phone new_phone book
  | _ => (book, Raise (IndexError (lit
      "Please provide contact name, old phone number and new phone number.")))
  end.

Definition handle_show_phone_body (args : list str) (book : AddressBook)
  : AddressBook * result str :=
  match args with
  | [key] => (book, show_phone key book)
  | _ => (book, Raise (IndexError (lit "Please provide contact name.")))
  end.

Definition handle_show_all_body (rt : c_runtime) (_ : unit)
    (book : AddressBook) : AddressBook * result str :=
  (book, Return (show_all rt book)).

Definition handle_add_birthday := input_error handle_add_birthday_body.
Definition handle_show_birthday rt := input_error (handle_show_birthday_body rt).
Definition handle_birthdays rt today :=
  input_error (handle_birthdays_body rt today).
Definition handle_add_contact := input_error handle_add_contact_body.
Definition handle_change_contact := input_error handle_change_contact_body.
Definition handle_show_phone := input_error handle_show_phone_body.
Definition handle_show_all rt := input_error (handle_show_all_body rt).

(** The address books the program can be in: it starts empty and only
    the three mutating commands change it. *)
Inductive reachable : AddressBook -> Prop :=
| reach_empty : reachable []
| reach_add args book :
    reachable book -> reachable (fst (handle_add_contact args book))
| reach_change args book :
    reachable book -> reachable (fst (handle_change_contact args book))
| reach_add_birthday args book :
    reachable book -> reachable (fst (handle_add_birthday args book)).

(** ** Vocabulary of the statements *)

(** A table whose ranges all lie inside ranges of another table accepts
    no more than the other. *)
Definition ranges_within (rs rs' : list (N * N)) : bool :=
  forallb
    (fun r => existsb (fun r' => (fst r' <=? fst r)%N && (snd r <=? snd r')%N) rs')
    rs.

Definition ascii_digit (c : N) : bool := (48 <=? c)%N && (c <=? 57)%N.

(** [str(phone)], inherited from [Field]. *)
Definition Phone_str (p : Phone) : str := phone_value p.

Definition phone_rule (p : str) : Prop :=
  Forall (fun c => Unicode.isdigit c = true) p /\ List.length p = 10%nat.

(** Superscript two, ten times: digits for [str.isdigit], not decimal. *)
Definition superscript_twos : str := repeat 178%N 10.

(** The phones [add_contact] appends for its [phone] argument: none when
    the argument is missing or the empty string. *)
Definition phones_added (phone : option str) : list Phone :=
  match phone with
  | Some p => if str_truthy p then [mkPhone p] else []
  | None => []
  end.

(** The [phone] argument passes [add_contact]: it is missing, empty or a
    valid phone. *)
Definition phone_passes (phone : option str) : Prop :=
  match phone with
  | Some p => str_truthy p = true -> phone_rule p
  | None => True
  end.

Definition with_phones (record : ContactRecord) (extra : list Phone)
  : ContactRecord :=
  mkRecord (name record) (phones record ++ extra) (birthday record).

(** The argument an exception was raised with. *)
Definition exn_message (e : exn) : str :=
  match e with
  | ValidationException m | ValueError m | OverflowError m | IndexError m => m
  | KeyError k => k
  end.

Definition is_KeyError (e : exn) : bool :=
  match e with KeyError _ => true | _ => false end.

(** The month and day of the [n]-th day (from 0) of a year: the last
    steps of [ord2ymd]. *)
Definition month_day (leapyear : bool) (n : Z) : Z * Z :=
  let m := Z.shiftr (n + 50) 5 in
  let preceding :=
    DAYS_BEFORE_MONTH m + (if (2 <? m) && leapyear then 1 else 0) in
  if n <? preceding then
    (m - 1,
     n - (preceding
          - (DAYS_IN_MONTH (m - 1)
             + (if (m - 1 =? 2) && leapyear then 1 else 0))) + 1)
  else (m, n - preceding + 1).

Definition month_day_ok (leapyear : bool) (n : Z) : bool :=
  let '(m, d) := month_day leapyear n in
  (1 <=? m) && (m <=? 12) && (1 <=? d)
  && (d <=? DAYS_IN_MONTH m + (if (m =? 2) && leapyear then 1 else 0))
  && (DAYS_BEFORE_MONTH m + (if (2 <? m) && leapyear then 1 else 0) + d
      =? n + 1).

(** The regular expression of the format [%d.%m.%Y]. *)
Definition birthday_rx : regex :=
  RSeq (RGroup "d" re_d)
    (RSeq (RLit 46)
      (RSeq (RGroup "m" re_m)
        (RSeq (RLit 46)
          (RSeq (RGroup "Y" re_Y) REps)))).

(** The last [k] decimal digits of [n], most significant first. *)
Fixpoint digit_list (k : nat) (n : Z) : str :=
  match k with
  | O => []
  | S k' => digit_list k' (n / 10) ++ [(48 + Z.to_N (n mod 10))%N]
  end.

(** What one record adds to the list of upcoming birthdays. *)
Definition contribution (o : option upcoming) : list upcoming :=
  match o with Some u => [u] | None => [] end.

(** Days from a birthday to its celebration: two from a Saturday, one
    from a Sunday. *)
Definition weekend_shift (d : date) : Z :=
  if weekday d =? 5 then 2 else if weekday d =? 6 then 1 else 0.

(** The state invariant of the address book: a dictionary has one slot
    per key, every record sits under its own name, and a birthday holds
    a valid date. *)
Definition record_ok (key : str) (record : ContactRecord) : Prop :=
  key = name_value (name record)
  /\ forall b, birthday record = Some b -> date_ok (birthday_value b) = true.

Definition book_wf (book : AddressBook) : Prop :=
  NoDup (map fst book)
  /\ Forall (fun slot => record_ok (fst slot) (snd slot)) book.

Definition is_ValueError (e : exn) : bool :=
  match e with ValueError _ => true | _ => false end.

(** Two address books used as examples: Ann, born on 4 May 1990, and the
    same book after Bob, born on 29 February 2000, was added. *)
Definition book_ann : AddressBook :=
  fst (handle_add_birthday [lit "Ann"; lit "04.05.1990"]
         (fst (handle_add_contact [lit "Ann"; lit "0501234567"] []))).

Definition book_ann_bob : AddressBook :=
  fst (handle_add_birthday [lit "Bob"; lit "29.02.2000"]
         (fst (handle_add_contact [lit "Bob"; lit "0671234567"] book_ann))).

(** The exceptions a handler can meet: usage errors, validation errors,
    date faults, and the [KeyError] of a missing contact. *)
Definition handler_exn (e : exn) : Prop :=
  match e with
  | KeyError k => k = lit "Contact not found."
  | OverflowError _ => False
  | ValidationException _ | ValueError _ | IndexError _ => True
  end.

Definition not_feb29 (d : date) : Prop := ~ (month d = 2 /\ day d = 29).

(** ** Reading a command line: [str.lower], [str.split], [parse_input] *)

Module UnicodeCase.
Local Open Scope N_scope.

(** The simple lower-case mapping, as runs (first, last, step, image): a code point
    [c] of a run, [first <= c <= last] with [c - first] a multiple of [step], maps to
    [image + (c - first)]. *)
Definition lower_runs : list (N * N * N * N) :=
  [ (65, 90, 1, 97); (192, 214, 1, 224); (216, 222, 1, 248); (256, 302, 2, 257); (306, 310, 2, 307);
    (313, 327, 2, 314); (330, 374, 2, 331); (376, 376, 1, 255); (377, 381, 2, 378); (385, 385, 1,
    595); (386, 388, 2, 387); (390, 390, 1, 596); (391, 391, 1, 392); (393, 394, 1, 598); (395, 395,
    1, 396); (398, 398, 1, 477); (399, 399, 1, 601); (400, 400, 1, 603); (401, 401, 1, 402); (403,
    403, 1, 608); (404, 404, 1, 611); (406, 406, 1, 617); (407, 407, 1, 616); (408, 408, 1, 409);
    (412, 412, 1, 623); (413, 413, 1, 626); (415, 415, 1, 629); (416, 420, 2, 417); (422, 422, 1,
    640); (423, 423, 1, 424); (425, 425, 1, 643); (428, 428, 1, 429); (430, 430, 1, 648); (431, 431,
    1, 432); (433, 434, 1, 650); (435, 437, 2, 436); (439, 439, 1, 658); (440, 440, 1, 441); (444,
    444, 1, 445); (452, 452, 1, 454); (453, 453, 1, 454); (455, 455, 1, 457); (456, 456, 1, 457);
    (458, 458, 1, 460); (459, 475, 2, 460); (478, 494, 2, 479); (497, 497, 1, 499); (498, 500, 2,
    499); (502, 502, 1, 405); (503, 503, 1, 447); (504, 542, 2, 505); (544, 544, 1, 414); (546, 562,
    2, 547); (570, 570, 1, 11365); (571, 571, 1, 572); (573, 573, 1, 410); (574, 574, 1, 11366);
    (577, 577, 1, 578); (579, 579, 1, 384); (580, 580, 1, 649); (581, 581, 1, 652); (582, 590, 2,
    583); (880, 882, 2, 881); (886, 886, 1, 887); (895, 895, 1, 1011); (902, 902, 1, 940); (904,
    906, 1, 941); (908, 908, 1, 972); (910, 911, 1, 973); (913, 929, 1, 945); (931, 939, 1, 963);
    (975, 975, 1, 983); (984, 1006, 2, 985); (1012, 1012, 1, 952); (1015, 1015, 1, 1016); (1017,
    1017, 1, 1010); (1018, 1018, 1, 1019); (1021, 1023, 1, 891); (1024, 1039, 1, 1104); (1040, 1071,
    1, 1072); (1120, 1152, 2, 1121); (1162, 1214, 2, 1163); (1216, 1216, 1, 1231); (1217, 1229, 2,
    1218); (1232, 1326, 2, 1233); (1329, 1366, 1, 1377); (4256, 4293, 1, 11520); (4295, 4295, 1,
    11559); (4301, 4301, 1, 11565); (5024, 5103, 1, 43888); (5104, 5109, 1, 5112); (7312, 7354, 1,
    4304); (7357, 7359, 1, 4349); (7680, 7828, 2, 7681); (7838, 7838, 1, 223); (7840, 7934, 2,
    7841); (7944, 7951, 1, 7936); (7960, 7965, 1, 7952); (7976, 7983, 1, 7968); (7992, 7999, 1,
    7984); (8008, 8013, 1, 8000); (8025, 8031, 2, 8017); (8040, 8047, 1, 8032); (8072, 8079, 1,
    8064); (8088, 8095, 1, 8080); (8104, 8111, 1, 8096); (8120, 8121, 1, 8112); (8122, 8123, 1,
    8048); (8124, 8124, 1, 8115); (8136, 8139, 1, 8050); (8140, 8140, 1, 8131); (8152, 8153, 1,
    8144); (8154, 8155, 1, 8054); (8168, 8169, 1, 8160); (8170, 8171, 1, 8058); (8172, 8172, 1,
    8165); (8184, 8185, 1, 8056); (8186, 8187, 1, 8060); (8188, 8188, 1, 8179); (8486, 8486, 1,
    969); (8490, 8490, 1, 107); (8491, 8491, 1, 229); (8498, 8498, 1, 8526); (8544, 8559, 1, 8560);
    (8579, 8579, 1, 8580); (9398, 9423, 1, 9424); (11264, 11311, 1, 11312); (11360, 11360, 1,
    11361); (11362, 11362, 1, 619); (11363, 11363, 1, 7549); (11364, 11364, 1, 637); (11367, 11371,
    2, 11368); (11373, 11373, 1, 593); (11374, 11374, 1, 625); (11375, 11375, 1, 592); (11376,
    11376, 1, 594); (11378, 11378, 1, 11379); (11381, 11381, 1, 11382); (11390, 11391, 1, 575);
    (11392, 11490, 2, 11393); (11499, 11501, 2, 11500); (11506, 11506, 1, 11507); (42560, 42604, 2,
    42561); (42624, 42650, 2, 42625); (42786, 42798, 2, 42787); (42802, 42862, 2, 42803); (42873,
    42875, 2, 42874); (42877, 42877, 1, 7545); (42878, 42886, 2, 42879); (42891, 42891, 1, 42892);
    (42893, 42893, 1, 613); (42896, 42898, 2, 42897); (42902, 42920, 2, 42903); (42922, 42922, 1,
    614); (42923, 42923, 1, 604); (42924, 42924, 1, 609); (42925, 42925, 1, 620); (42926, 42926, 1,
    618); (42928, 42928, 1, 670); (42929, 42929, 1, 647); (42930, 42930, 1, 669); (42931, 42931, 1,
    43859); (42932, 42946, 2, 42933); (42948, 42948, 1, 42900); (42949, 42949, 1, 642); (42950,
    42950, 1, 7566); (42951, 42953, 2, 42952); (42960, 42960, 1, 42961); (42966, 42968, 2, 42967);
    (42997, 42997, 1, 42998); (65313, 65338, 1, 65345); (66560, 66599, 1, 66600); (66736, 66771, 1,
    66776); (66928, 66938, 1, 66967); (66940, 66954, 1, 66979); (66956, 66962, 1, 66995); (66964,
    66965, 1, 67003); (68736, 68786, 1, 68800); (71840, 71871, 1, 71872); (93760, 93791, 1, 93792);
    (125184, 125217, 1, 125218) ].

(** Code points with the property [Case_Ignorable]. *)
Definition case_ignorable_ranges : list (N * N) :=
  [ (39, 39); (46, 46); (58, 58); (94, 94); (96, 96); (168, 168); (173, 173); (175, 175); (180,
    180); (183, 184); (688, 879); (884, 885); (890, 890); (900, 901); (903, 903); (1155, 1161);
    (1369, 1369); (1375, 1375); (1425, 1469); (1471, 1471); (1473, 1474); (1476, 1477); (1479,
    1479); (1524, 1524); (1536, 1541); (1552, 1562); (1564, 1564); (1600, 1600); (1611, 1631);
    (1648, 1648); (1750, 1757); (1759, 1768); (1770, 1773); (1807, 1807); (1809, 1809); (1840,
    1866); (1958, 1968); (2027, 2037); (2042, 2042); (2045, 2045); (2070, 2093); (2137, 2139);
    (2184, 2184); (2192, 2193); (2200, 2207); (2249, 2306); (2362, 2362); (2364, 2364); (2369,
    2376); (2381, 2381); (2385, 2391); (2402, 2403); (2417, 2417); (2433, 2433); (2492, 2492);
    (2497, 2500); (2509, 2509); (2530, 2531); (2558, 2558); (2561, 2562); (2620, 2620); (2625,
    2626); (2631, 2632); (2635, 2637); (2641, 2641); (2672, 2673); (2677, 2677); (2689, 2690);
    (2748, 2748); (2753, 2757); (2759, 2760); (2765, 2765); (2786, 2787); (2810, 2815); (2817,
    2817); (2876, 2876); (2879, 2879); (2881, 2884); (2893, 2893); (2901, 2902); (2914, 2915);
    (2946, 2946); (3008, 3008); (3021, 3021); (3072, 3072); (3076, 3076); (3132, 3132); (3134,
    3136); (3142, 3144); (3146, 3149); (3157, 3158); (3170, 3171); (3201, 3201); (3260, 3260);
    (3263, 3263); (3270, 3270); (3276, 3277); (3298, 3299); (3328, 3329); (3387, 3388); (3393,
    3396); (3405, 3405); (3426, 3427); (3457, 3457); (3530, 3530); (3538, 3540); (3542, 3542);
    (3633, 3633); (3636, 3642); (3654, 3662); (3761, 3761); (3764, 3772); (3782, 3782); (3784,
    3789); (3864, 3865); (3893, 3893); (3895, 3895); (3897, 3897); (3953, 3966); (3968, 3972);
    (3974, 3975); (3981, 3991); (3993, 4028); (4038, 4038); (4141, 4144); (4146, 4151); (4153,
    4154); (4157, 4158); (4184, 4185); (4190, 4192); (4209, 4212); (4226, 4226); (4229, 4230);
    (4237, 4237); (4253, 4253); (4348, 4348); (4957, 4959); (5906, 5908); (5938, 5939); (5970,
    5971); (6002, 6003); (6068, 6069); (6071, 6077); (6086, 6086); (6089, 6099); (6103, 6103);
    (6109, 6109); (6155, 6159); (6211, 6211); (6277, 6278); (6313, 6313); (6432, 6434); (6439,
    6440); (6450, 6450); (6457, 6459); (6679, 6680); (6683, 6683); (6742, 6742); (6744, 6750);
    (6752, 6752); (6754, 6754); (6757, 6764); (6771, 6780); (6783, 6783); (6823, 6823); (6832,
    6862); (6912, 6915); (6964, 6964); (6966, 6970); (6972, 6972); (6978, 6978); (7019, 7027);
    (7040, 7041); (7074, 7077); (7080, 7081); (7083, 7085); (7142, 7142); (7144, 7145); (7149,
    7149); (7151, 7153); (7212, 7219); (7222, 7223); (7288, 7293); (7376, 7378); (7380, 7392);
    (7394, 7400); (7405, 7405); (7412, 7412); (7416, 7417); (7468, 7530); (7544, 7544); (7579,
    7679); (8125, 8125); (8127, 8129); (8141, 8143); (8157, 8159); (8173, 8175); (8189, 8190);
    (8203, 8207); (8216, 8217); (8228, 8228); (8231, 8231); (8234, 8238); (8288, 8292); (8294,
    8303); (8305, 8305); (8319, 8319); (8336, 8348); (8400, 8432); (11388, 11389); (11503, 11505);
    (11631, 11631); (11647, 11647); (11744, 11775); (11823, 11823); (12293, 12293); (12330, 12333);
    (12337, 12341); (12347, 12347); (12441, 12446); (12540, 12542); (40981, 40981); (42232, 42237);
    (42508, 42508); (42607, 42610); (42612, 42621); (42623, 42623); (42652, 42655); (42736, 42737);
    (42752, 42785); (42864, 42864); (42888, 42890); (42994, 42996); (43000, 43001); (43010, 43010);
    (43014, 43014); (43019, 43019); (43045, 43046); (43052, 43052); (43204, 43205); (43232, 43249);
    (43263, 43263); (43302, 43309); (43335, 43345); (43392, 43394); (43443, 43443); (43446, 43449);
    (43452, 43453); (43471, 43471); (43493, 43494); (43561, 43566); (43569, 43570); (43573, 43574);
    (43587, 43587); (43596, 43596); (43632, 43632); (43644, 43644); (43696, 43696); (43698, 43700);
    (43703, 43704); (43710, 43711); (43713, 43713); (43741, 43741); (43756, 43757); (43763, 43764);
    (43766, 43766); (43867, 43871); (43881, 43883); (44005, 44005); (44008, 44008); (44013, 44013);
    (64286, 64286); (64434, 64450); (65024, 65039); (65043, 65043); (65056, 65071); (65106, 65106);
    (65109, 65109); (65279, 65279); (65287, 65287); (65294, 65294); (65306, 65306); (65342, 65342);
    (65344, 65344); (65392, 65392); (65438, 65439); (65507, 65507); (65529, 65531); (66045, 66045);
    (66272, 66272); (66422, 66426); (67456, 67461); (67463, 67504); (67506, 67514); (68097, 68099);
    (68101, 68102); (68108, 68111); (68152, 68154); (68159, 68159); (68325, 68326); (68900, 68903);
    (69291, 69292); (69446, 69456); (69506, 69509); (69633, 69633); (69688, 69702); (69744, 69744);
    (69747, 69748); (69759, 69761); (69811, 69814); (69817, 69818); (69821, 69821); (69826, 69826);
    (69837, 69837); (69888, 69890); (69927, 69931); (69933, 69940); (70003, 70003); (70016, 70017);
    (70070, 70078); (70089, 70092); (70095, 70095); (70191, 70193); (70196, 70196); (70198, 70199);
    (70206, 70206); (70367, 70367); (70371, 70378); (70400, 70401); (70459, 70460); (70464, 70464);
    (70502, 70508); (70512, 70516); (70712, 70719); (70722, 70724); (70726, 70726); (70750, 70750);
    (70835, 70840); (70842, 70842); (70847, 70848); (70850, 70851); (71090, 71093); (71100, 71101);
    (71103, 71104); (71132, 71133); (71219, 71226); (71229, 71229); (71231, 71232); (71339, 71339);
    (71341, 71341); (71344, 71349); (71351, 71351); (71453, 71455); (71458, 71461); (71463, 71467);
    (71727, 71735); (71737, 71738); (71995, 71996); (71998, 71998); (72003, 72003); (72148, 72151);
    (72154, 72155); (72160, 72160); (72193, 72202); (72243, 72248); (72251, 72254); (72263, 72263);
    (72273, 72278); (72281, 72283); (72330, 72342); (72344, 72345); (72752, 72758); (72760, 72765);
    (72767, 72767); (72850, 72871); (72874, 72880); (72882, 72883); (72885, 72886); (73009, 73014);
    (73018, 73018); (73020, 73021); (73023, 73029); (73031, 73031); (73104, 73105); (73109, 73109);
    (73111, 73111); (73459, 73460); (78896, 78904); (92912, 92916); (92976, 92982); (92992, 92995);
    (94031, 94031); (94095, 94111); (94176, 94177); (94179, 94180); (110576, 110579); (110581,
    110587); (110589, 110590); (113821, 113822); (113824, 113827); (118528, 118573); (118576,
    118598); (119143, 119145); (119155, 119170); (119173, 119179); (119210, 119213); (119362,
    119364); (121344, 121398); (121403, 121452); (121461, 121461); (121476, 121476); (121499,
    121503); (121505, 121519); (122880, 122886); (122888, 122904); (122907, 122913); (122915,
    122916); (122918, 122922); (123184, 123197); (123566, 123566); (123628, 123631); (125136,
    125142); (125252, 125259); (127995, 127999); (917505, 917505); (917536, 917631); (917760,
    917999) ].

(** Code points with the property [Cased] that are not [Case_Ignorable]. *)
Definition cased_ranges : list (N * N) :=
  [ (65, 90); (97, 122); (170, 170); (181, 181); (186, 186); (192, 214); (216, 246); (248, 442);
    (444, 447); (452, 659); (661, 687); (880, 883); (886, 887); (891, 893); (895, 895); (902, 902);
    (904, 906); (908, 908); (910, 929); (931, 1013); (1015, 1153); (1162, 1327); (1329, 1366);
    (1376, 1416); (4256, 4293); (4295, 4295); (4301, 4301); (4304, 4346); (4349, 4351); (5024,
    5109); (5112, 5117); (7296, 7304); (7312, 7354); (7357, 7359); (7424, 7467); (7531, 7543);
    (7545, 7578); (7680, 7957); (7960, 7965); (7968, 8005); (8008, 8013); (8016, 8023); (8025,
    8025); (8027, 8027); (8029, 8029); (8031, 8061); (8064, 8116); (8118, 8124); (8126, 8126);
    (8130, 8132); (8134, 8140); (8144, 8147); (8150, 8155); (8160, 8172); (8178, 8180); (8182,
    8188); (8450, 8450); (8455, 8455); (8458, 8467); (8469, 8469); (8473, 8477); (8484, 8484);
    (8486, 8486); (8488, 8488); (8490, 8493); (8495, 8500); (8505, 8505); (8508, 8511); (8517,
    8521); (8526, 8526); (8544, 8575); (8579, 8580); (9398, 9449); (11264, 11387); (11390, 11492);
    (11499, 11502); (11506, 11507); (11520, 11557); (11559, 11559); (11565, 11565); (42560, 42605);
    (42624, 42651); (42786, 42863); (42865, 42887); (42891, 42894); (42896, 42954); (42960, 42961);
    (42963, 42963); (42965, 42969); (42997, 42998); (43002, 43002); (43824, 43866); (43872, 43880);
    (43888, 43967); (64256, 64262); (64275, 64279); (65313, 65338); (65345, 65370); (66560, 66639);
    (66736, 66771); (66776, 66811); (66928, 66938); (66940, 66954); (66956, 66962); (66964, 66965);
    (66967, 66977); (66979, 66993); (66995, 67001); (67003, 67004); (68736, 68786); (68800, 68850);
    (71840, 71903); (93760, 93823); (119808, 119892); (119894, 119964); (119966, 119967); (119970,
    119970); (119973, 119974); (119977, 119980); (119982, 119993); (119995, 119995); (119997,
    120003); (120005, 120069); (120071, 120074); (120077, 120084); (120086, 120092); (120094,
    120121); (120123, 120126); (120128, 120132); (120134, 120134); (120138, 120144); (120146,
    120485); (120488, 120512); (120514, 120538); (120540, 120570); (120572, 120596); (120598,
    120628); (120630, 120654); (120656, 120686); (120688, 120712); (120714, 120744); (120746,
    120770); (120772, 120779); (122624, 122633); (122635, 122654); (125184, 125251); (127280,
    127305); (127312, 127337); (127344, 127369) ].

Fixpoint lower_in (runs : list (N * N * N * N)) (c : N) : option N :=
  match runs with
  | [] => None
  | (first, last, step, image) :: runs' =>
      if (first <=? c) && (c <=? last) && ((c - first) mod step =? 0)
      then Some (image + (c - first))
      else lower_in runs' c
  end.

(** The lower case of one character; capital I with dot above (U+0130)
    is the one character whose lower case is two code points. *)
Definition lower_char (c : N) : str :=
  if c =? 304 then [105; 775]
  else match lower_in lower_runs c with
       | Some c' => [c']
       | None => [c]
       end.

Definition case_ignorable (c : N) : bool :=
  Unicode.in_ranges case_ignorable_ranges c.
Definition cased (c : N) : bool := Unicode.in_ranges cased_ranges c.

End UnicodeCase.

(** The first character of [s] that is not case-ignorable. *)
Fixpoint skip_ignorable (s : str) : option N :=
  match s with
  | [] => None
  | c :: s' => if UnicodeCase.case_ignorable c then skip_ignorable s' else Some c
  end.

(** A capital sigma is final when a cased letter precedes it and none
    follows, case-ignorable characters aside. *)
Definition final_sigma (before_reversed after : str) : bool :=
  match skip_ignorable before_reversed with
  | Some c =>
      UnicodeCase.cased c
      && match skip_ignorable after with
         | Some c' => negb (UnicodeCase.cased c')
         | None => true
         end
  | None => false
  end.

Fixpoint lower_go (before_reversed s : str) : str :=
  match s with
  | [] => []
  | c :: s' =>
      (if (c =? 931)%N
       then [if final_sigma before_reversed s' then 962%N else 963%N]
       else UnicodeCase.lower_char c)
      ++ lower_go (c :: before_reversed) s'
  end.

(** [s.lower()]. *)
Definition lower (s : str) : str := lower_go [] s.

(** [s.split()]: the maximal runs of characters that are not white
    space.  [split_go word s] scans [s] with the current word, reversed,
    in [word]. *)
Fixpoint split_go (word : str) (s : str) : list str :=
  match s with
  | [] => match word with [] => [] | _ => [rev word] end
  | c :: s' =>
      if Unicode.isspace c
      then match word with
           | [] => split_go [] s'
           | _ => rev word :: split_go [] s'
           end
      else split_go (c :: word) s'
  end.

Definition split (s : str) : list str := split_go [] s.

Definition parse_input (user_input : str) : result (str * list str) :=
  match strip user_input with
  | [] => Return ([], [])
  | _ =>
      match split user_input with
      | cmd :: args => Return (lower (strip cmd), map strip args)
      | [] =>
          Raise (ValueError
                   (lit "not enough values to unpack (expected at least 1, got 0)"))
      end
  end.

(** ** The command loop

    [main] reads lines until it is told to stop.  Its input is the list
    of lines entered, each with the date on which it was entered (the
    value of [datetime.now()] when a command asks for it); its output
    is the list of texts it printed (the prompts of [input] are not
    recorded).  Running out of lines is the end of the input, on which
    [input] raises [EOFError]. *)

Variant ending : Type := Exited | EndOfInput | Crashed (e : exn).

Definition one_of (command : str) (names : list string) : bool :=
  existsb (fun n => str_eqb command (lit n)) names.

(** One turn of the loop on a parsed command that is not an exit:
    the address book it leaves and the text it prints. *)
Definition dispatch (rt : c_runtime) (today : date) (command : str)
    (args : list str) (book : AddressBook) : AddressBook * str :=
  if str_eqb command (lit "hello") then (book, lit "How can I help you?")
  else if str_eqb command (lit "add") then handle_add_contact args book
  else if str_eqb command (lit "change") then handle_change_contact args book
  else if str_eqb command (lit "phone") then handle_show_phone args book
  else if str_eqb command (lit "all") then handle_show_all rt tt book
  else if str_eqb command (lit "add-birthday")
  then handle_add_birthday args book
  else if str_eqb command (lit "show-birthday")
  then handle_show_birthday rt args book
  else if str_eqb command (lit "birthdays")
  then handle_birthdays rt today args book
  else (book, lit "Invalid command.").

Fixpoint main_loop (rt : c_runtime) (lines : list (date * str))
    (book : AddressBook) (printed : list str)
  : AddressBook * list str * ending :=
  match lines with
  | [] => (book, printed, EndOfInput)
  | (today, user_input) :: lines' =>
      match parse_input user_input with
      | Raise e => (book, printed, Crashed e)
      | Return (command, args) =>
          match command with
          | [] => main_loop rt lines' book
                    (printed ++ [lit "Please enter a command"])
          | _ =>
              if one_of command ["close"; "exit"]%string
              then (book, printed ++ [lit "Good bye!"], Exited)
              else
                let '(book', text) := dispatch rt today command args book in
                main_loop rt lines' book' (printed ++ [text])
          end
      end
  end.

Definition main (rt : c_runtime) (lines : list (date * str))
  : AddressBook * list str * ending :=
  main_loop rt lines [] [lit "Welcome to the assistant bot!"].

Definition ascii_letter (c : N) : bool :=
  ((65 <=? c)%N && (c <=? 90)%N) || ((97 <=? c)%N && (c <=? 122)%N).

Definition phone_values (self : ContactRecord) : list str :=
  map phone_value (phones self).

(** The text DD.MM.YYYY of a day, a month and a year. *)
Definition date_text (y m d : Z) : str :=
  zfill 2 (dec d) ++ 46%N :: zfill 2 (dec m) ++ 46%N :: zfill 4 (dec y).

(** [subseq l l']: [l] is [l'] with some elements left out, the order
    kept. *)
Inductive subseq {A : Type} : list A -> list A -> Prop :=
| subseq_nil : subseq [] []
| subseq_skip x l l' : subseq l l' -> subseq l (x :: l')
| subseq_keep x l l' : subseq l l' -> subseq (x :: l) (x :: l').

Definition record_names (records : list ContactRecord) : list str :=
  map (fun r => name_value (name r)) records.

(** Today is not after 29 February of its year. *)
Definition up_to_feb29 (today : date) : Prop :=
  month today < 2 \/ (month today = 2 /\ day today <= 29).

(** Every name in the address book passes the [Name] validation. *)
Definition names_valid (book : AddressBook) : Prop :=
  Forall (fun k => str_isalpha k = true) (map fst book).

(** A word: not empty and free of white space. *)
Definition word (w : str) : Prop :=
  w <> [] /\ Forall (fun c => Unicode.isspace c = false) w.

Definition blank (s : str) : Prop :=
  Forall (fun c => Unicode.isspace c = true) s.

Definition ascii_lower (c : N) : N :=
  if (65 <=? c)%N && (c <=? 90)%N then (c + 32)%N else c.

(** The claim's [days_until], written on ordinals: the number of days
    from [today] to the birthday's day and month in the current year,
    or in the next year when in the current year they are strictly
    before [today].  [birthday_in y b] is that day and month in the
    year [y]. *)
Definition birthday_in (y : Z) (b : date) : date :=
  mkdate y (month b) (day b).

Definition days_until (today b : date) : Z :=
  if toordinal (birthday_in (year today) b) <? toordinal today
  then toordinal (birthday_in (year today + 1) b) - toordinal today
  else toordinal (birthday_in (year today) b) - toordinal today.

(** A record of the address book is in a list of upcoming birthdays
    when an entry of the list carries its name. *)
Definition included (key : str) (res : list upcoming) : Prop :=
  exists u, In u res /\ upcoming_name u = key.

(** An address book with five birthdays: Ann on 1 May, Bob on 8 May,
    Cid on 9 May, Dan on 30 April and Eve on 2 January. *)
Definition with_contact (name phone birthday : string) (book : AddressBook)
  : AddressBook :=
  fst (handle_add_birthday [lit name; lit birthday]
         (fst (handle_add_contact [lit name; lit phone] book))).

Definition book_may : AddressBook :=
  with_contact "Eve" "0501234571" "02.01.1994"
    (with_contact "Dan" "0501234570" "30.04.1993"
       (with_contact "Cid" "0501234569" "09.05.1992"
          (with_contact "Bob" "0501234568" "08.05.1991"
             (with_contact "Ann" "0501234567" "01.05.1990" [])))).

(** A line that asks to stop: its first word, in lower case, is
    [close] or [exit]. *)
Definition exit_line (user_input : str) : bool :=
  match split user_input with
  | cmd :: _ =>
      str_eqb (lower cmd) (lit "close") || str_eqb (lower cmd) (lit "exit")
  | [] => false
  end.

(** How a run of the loop ends: at the end of the input when no line
    asked to stop, printing one text per line; at the first line that
    asks to stop otherwise, printing one text per line before it and
    "Good bye!" for it. *)
Definition session_end (lines : list (date * str)) (texts : list str)
    (e : ending) : Prop :=
  e = EndOfInput
  /\ Forall (fun line => exit_line (snd line) = false) lines
  /\ List.length texts = List.length lines
  \/ e = Exited
     /\ exists read line rest before,
          lines = read ++ line :: rest
          /\ Forall (fun line => exit_line (snd line) = false) read
          /\ exit_line (snd line) = true
          /\ texts = before ++ [lit "Good bye!"]
          /\ List.length before = List.length read.

(** * Properties *)

(** ** Strings and character tables *)

Lemma str_eqb_eq (a b : str) : str_eqb a b = true <-> a = b.
Proof.
  revert b; induction a as [|x a IH]; intros [|y b]; simpl;
    try (split; [discriminate | discriminate]); try tauto.
  rewrite andb_true_iff, N.eqb_eq, IH.
  split; [intros [-> ->]; reflexivity | intros [= -> ->]; auto].
Qed.

Lemma str_eqb_refl (a : str) : str_eqb a a = true.
Proof. apply str_eqb_eq; reflexivity. Qed.

Lemma str_eqb_neq (a b : str) : str_eqb a b = false <-> a <> b.
Proof.
  rewrite <- str_eqb_eq; destruct (str_eqb a b); split; congruence.
Qed.

Lemma str_eqb_sym (a b : str) : str_eqb a b = str_eqb b a.
Proof.
  destruct (str_eqb a b) eqn:E.
  - apply str_eqb_eq in E; subst; symmetry; apply str_eqb_refl.
  - symmetry; apply str_eqb_neq; apply str_eqb_neq in E; congruence.
Qed.

Lemma in_ranges_within (rs rs' : list (N * N)) (c : N) :
  ranges_within rs rs' = true ->
  Unicode.in_ranges rs c = true -> Unicode.in_ranges rs' c = true.
Proof.
  unfold ranges_within, Unicode.in_ranges.
  rewrite forallb_forall; intros W H.
  apply existsb_exists in H as [r [Hr Hc]].
  apply W in Hr; apply existsb_exists in Hr as [r' [Hr' Hin]].
  apply existsb_exists; exists r'; split; [exact Hr'|].
  apply andb_true_iff in Hc as [H1 H2]; apply andb_true_iff in Hin as [H3 H4].
  apply N.leb_le in H1, H2, H3, H4.
  apply andb_true_iff; split; apply N.leb_le; lia.
Qed.

(** Every decimal digit is a digit for [str.isdigit]. *)
Lemma isdecimal_isdigit (c : N) :
  Unicode.isdecimal c = true -> Unicode.isdigit c = true.
Proof. apply in_ranges_within; vm_compute; reflexivity. Qed.

Lemma below_enumerated (P : N -> bool) (n : nat) :
  forallb P (map N.of_nat (seq 0 n)) = true ->
  forall c, (c < N.of_nat n)%N -> P c = true.
Proof.
  rewrite forallb_forall; intros H c Hc; apply H.
  apply in_map_iff; exists (N.to_nat c); split; [apply N2Nat.id|].
  apply in_seq; lia.
Qed.

(** On ASCII the digits of [str.isdigit] and the decimal digits are
    exactly the characters 0 to 9. *)
Lemma isdigit_ascii (c : N) :
  (c < 128)%N -> Unicode.isdigit c = ascii_digit c.
Proof.
  intros Hc; apply eqb_prop.
  revert c Hc; apply (below_enumerated _ 128); vm_compute; reflexivity.
Qed.

Lemma ascii_digit_isdecimal (c : N) :
  ascii_digit c = true -> Unicode.isdecimal c = true.
Proof.
  unfold ascii_digit; intros H.
  apply (in_ranges_within [(48, 57)%N]); [vm_compute; reflexivity|].
  unfold Unicode.in_ranges; simpl; rewrite H; reflexivity.
Qed.

Lemma str_isdigit_forall (s : str) :
  str_isdigit s = true <-> s <> [] /\ Forall (fun c => Unicode.isdigit c = true) s.
Proof.
  unfold str_isdigit; destruct s as [|c s].
  - split; [discriminate | intros [H _]; congruence].
  - rewrite forallb_forall, Forall_forall; split.
    + intros H; split; [discriminate | exact H].
    + intros [_ H]; exact H.
Qed.

(** ** [Phone] *)

Lemma Phone_init_returns (p : str) :
  phone_rule p -> Phone_init p = Return (mkPhone p).
Proof.
  intros [Hd Hl]; unfold Phone_init, validate_phone, len.
  assert (E : str_isdigit p = true).
  { apply str_isdigit_forall; split; [|exact Hd].
    intros ->; discriminate. }
  rewrite E, Hl; reflexivity.
Qed.

Lemma Phone_init_raises (p : str) :
  ~ phone_rule p ->
  Phone_init p = Raise (ValidationException (lit "Phone number must be 10 digits")).
Proof.
  intros Hn; unfold Phone_init, validate_phone, len.
  destruct (str_isdigit p) eqn:E; [|reflexivity].
  destruct (Z.of_nat (List.length p) =? 10) eqn:L; [|reflexivity].
  exfalso; apply Hn; split.
  - apply str_isdigit_forall in E; tauto.
  - apply Z.eqb_eq in L; lia.
Qed.

Lemma phone_rule_dec (p : str) : phone_rule p \/ ~ phone_rule p.
Proof.
  unfold phone_rule.
  destruct (forallb Unicode.isdigit p) eqn:E.
  - destruct (Nat.eq_dec (List.length p) 10) as [L|L].
    + left; split; [|exact L].
      apply Forall_forall; rewrite forallb_forall in E; exact E.
    + right; tauto.
  - right; intros [H _].
    rewrite Forall_forall, <- forallb_forall in H; congruence.
Qed.


Lemma phone_rule_ascii (p : str) :
  Forall (fun c => (c < 128)%N) p ->
  phone_rule p <->
  Forall (fun c => ascii_digit c = true) p /\ List.length p = 10%nat.
Proof.
  intros Ha; unfold phone_rule.
  assert (E : Forall (fun c => Unicode.isdigit c = true) p
              <-> Forall (fun c => ascii_digit c = true) p).
  { induction Ha as [|c p Hc _ IH].
    - split; constructor.
    - split; intros H; inversion H; subst; constructor;
        try (apply IH; assumption);
        [rewrite <- isdigit_ascii | rewrite isdigit_ascii]; assumption. }
  rewrite E; reflexivity.
Qed.

(** C5, as stated, fails: a phone made of ten superscript twos
    (U+00B2) is accepted, since [str.isdigit] holds of it, although
    none of its characters is a decimal digit. *)
Lemma C5_superscript_phone_accepted :
  ~ ((exists ph, Phone_init superscript_twos = Return ph)
     <-> (Forall (fun c => Unicode.isdecimal c = true) superscript_twos
          /\ List.length superscript_twos = 10%nat)).
Proof.
  intros [H _].
  destruct H as [Hd _]; [eexists; vm_compute; reflexivity|].
  inversion Hd as [|c s Hc _]; subst.
  vm_compute in Hc; discriminate.
Qed.

(** C5, amended: constructing a [Phone] from [p] succeeds exactly when
    [p] has length 10 and every character of it is a digit in the sense
    of [str.isdigit]; then the rendered value is [p]; every other input
    raises the [ValidationException].  Ten decimal digits are always
    accepted, and on ASCII strings the accepted ones are exactly those
    made of ten characters 0 to 9. *)
Theorem C5_phone_construction (p : str) :
  ((exists ph, Phone_init p = Return ph) <-> phone_rule p)
  /\ (forall ph, Phone_init p = Return ph -> Phone_str ph = p)
  /\ (~ phone_rule p ->
      Phone_init p
      = Raise (ValidationException (lit "Phone number must be 10 digits")))
  /\ (Forall (fun c => Unicode.isdecimal c = true) p ->
      List.length p = 10%nat -> Phone_init p = Return (mkPhone p))
  /\ (Forall (fun c => (c < 128)%N) p ->
      ((exists ph, Phone_init p = Return ph)
       <-> Forall (fun c => ascii_digit c = true) p
           /\ List.length p = 10%nat)).
Proof.
  assert (R : (exists ph, Phone_init p = Return ph) <-> phone_rule p).
  { split.
    - intros [ph H]; destruct (phone_rule_dec p) as [Hr|Hr]; [exact Hr|].
      rewrite (Phone_init_raises p Hr) in H; discriminate.
    - intros Hr; eexists; apply Phone_init_returns; exact Hr. }
  split; [exact R|]. split; [|split; [|split]].
  - intros ph H; destruct (phone_rule_dec p) as [Hr|Hr].
    + rewrite (Phone_init_returns p Hr) in H; injection H as <-; reflexivity.
    + rewrite (Phone_init_raises p Hr) in H; discriminate.
  - apply Phone_init_raises.
  - intros Hd Hl; apply Phone_init_returns; split; [|exact Hl].
    eapply Forall_impl; [|exact Hd]; apply isdecimal_isdigit.
  - intros Ha; rewrite R; apply phone_rule_ascii; exact Ha.
Qed.

(** ** Records: [edit_phone] *)

Lemma edit_first_split (ps : list Phone) (old new : str) :
  In old (map phone_value ps) ->
  exists pre post,
    ps = pre ++ mkPhone old :: post
    /\ ~ In old (map phone_value pre)
    /\ edit_first ps old new = Some (pre ++ mkPhone new :: post).
Proof.
  induction ps as [|p ps IH]; simpl; [tauto|].
  intros Hin; destruct (str_eqb (phone_value p) old) eqn:E.
  - apply str_eqb_eq in E; exists [], ps; simpl.
    destruct p as [v]; simpl in E; subst; auto.
  - apply str_eqb_neq in E.
    destruct Hin as [Hp|Hin]; [congruence|].
    destruct (IH Hin) as (pre & post & -> & Hn & ->).
    exists (p :: pre), post; simpl; intuition congruence.
Qed.

Lemma edit_first_absent (ps : list Phone) (old new : str) :
  ~ In old (map phone_value ps) -> edit_first ps old new = None.
Proof.
  induction ps as [|p ps IH]; simpl; [reflexivity|].
  intros Hn; destruct (str_eqb (phone_value p) old) eqn:E.
  - apply str_eqb_eq in E; tauto.
  - rewrite IH; [reflexivity | tauto].
Qed.

(** C7: when some phone of the record has the value [old],
    [edit_phone old new] succeeds for every string [new], valid as a
    phone or not, and its only effect is that the first phone whose
    value is [old] now has the value [new]. *)
Theorem C7_edit_phone_replaces_first (self : ContactRecord) (old new : str) :
  In old (map phone_value (phones self)) ->
  exists pre post,
    phones self = pre ++ mkPhone old :: post
    /\ ~ In old (map phone_value pre)
    /\ edit_phone self old new
       = Return (mkRecord (name self) (pre ++ mkPhone new :: post)
                          (birthday self)).
Proof.
  intros Hin; unfold edit_phone.
  destruct (edit_first_split _ old new Hin) as (pre & post & Hs & Hn & ->).
  exists pre, post; auto.
Qed.

(** An instance of C7 with a new value that [Phone] itself rejects. *)
Lemma C7_invalid_phone_stored :
  returns (Phone_init (lit "x")) = false
  /\ exists pre post,
      [mkPhone (lit "0501234567"); mkPhone (lit "0671234567")]
      = pre ++ mkPhone (lit "0671234567") :: post
      /\ ~ In (lit "0671234567") (map phone_value pre)
      /\ edit_phone
           (mkRecord (mkName (lit "Ann"))
              [mkPhone (lit "0501234567"); mkPhone (lit "0671234567")] None)
           (lit "0671234567") (lit "x")
         = Return (mkRecord (mkName (lit "Ann"))
                     (pre ++ mkPhone (lit "x") :: post) None).
Proof.
  split; [vm_compute; reflexivity|].
  apply (C7_edit_phone_replaces_first
           (mkRecord (mkName (lit "Ann"))
              [mkPhone (lit "0501234567"); mkPhone (lit "0671234567")] None)
           (lit "0671234567") (lit "x")).
  simpl; right; left; reflexivity.
Defined.

(** ** The dictionary *)

Lemma dict_get_set_same k v data : dict_get k (dict_set k v data) = Some v.
Proof.
  induction data as [|[k' v'] data IH]; simpl.
  - rewrite str_eqb_refl; reflexivity.
  - destruct (str_eqb k' k) eqn:E; simpl; rewrite E; auto.
Qed.

Lemma dict_get_set_other k k' v data :
  k <> k' -> dict_get k' (dict_set k v data) = dict_get k' data.
Proof.
  intros Hne; induction data as [|[k0 v0] data IH]; simpl.
  - apply str_eqb_neq in Hne; rewrite Hne; reflexivity.
  - destruct (str_eqb k0 k) eqn:E; simpl.
    + apply str_eqb_eq in E; subst k0.
      apply str_eqb_neq in Hne; rewrite Hne; reflexivity.
    + rewrite IH; reflexivity.
Qed.

Lemma dict_set_absent k v data :
  dict_get k data = None -> dict_set k v data = data ++ [(k, v)].
Proof.
  induction data as [|[k' v'] data IH]; simpl; [reflexivity|].
  destruct (str_eqb k' k); [discriminate|].
  intros H; rewrite IH; auto.
Qed.

Lemma dict_set_present k v data :
  dict_get k data = Some v -> dict_set k v data = data.
Proof.
  induction data as [|[k' v'] data IH]; simpl; [discriminate|].
  destruct (str_eqb k' k).
  - intros [= ->]; reflexivity.
  - intros H; rewrite IH; auto.
Qed.

Lemma dict_set_keys k v data :
  dict_get k data <> None -> map fst (dict_set k v data) = map fst data.
Proof.
  induction data as [|[k' v'] data IH]; simpl; [congruence|].
  destruct (str_eqb k' k); simpl; [reflexivity|].
  intros H; rewrite IH; auto.
Qed.

Lemma dict_get_in k v data : dict_get k data = Some v -> In (k, v) data.
Proof.
  induction data as [|[k' v'] data IH]; simpl; [discriminate|].
  destruct (str_eqb k' k) eqn:E.
  - apply str_eqb_eq in E; intros [= ->]; subst; auto.
  - auto.
Qed.

Lemma dict_get_none k data : dict_get k data = None <-> ~ In k (map fst data).
Proof.
  induction data as [|[k' v'] data IH]; simpl; [tauto|].
  destruct (str_eqb k' k) eqn:E.
  - apply str_eqb_eq in E; split; [discriminate | tauto].
  - apply str_eqb_neq in E; rewrite IH; tauto.
Qed.

Lemma in_dict_get k v data :
  NoDup (map fst data) -> In (k, v) data -> dict_get k data = Some v.
Proof.
  induction data as [|[k' v'] data IH]; simpl; [tauto|].
  intros Hnd [Heq|Hin]; inversion Hnd as [|? ? Hk Hnd']; subst.
  - injection Heq as -> ->; rewrite str_eqb_refl; reflexivity.
  - destruct (str_eqb k' k) eqn:E; [|auto].
    apply str_eqb_eq in E; subst k'.
    exfalso; apply Hk; apply in_map_iff; exists (k, v); auto.
Qed.

Lemma dict_set_app_absent k v v' data :
  dict_get k data = None ->
  dict_set k v' (data ++ [(k, v)]) = data ++ [(k, v')].
Proof.
  induction data as [|[k0 v0] data IH]; simpl.
  - rewrite str_eqb_refl; reflexivity.
  - destruct (str_eqb k0 k); [discriminate|].
    intros H; rewrite IH; auto.
Qed.

(** ** [add_contact] *)

Lemma Record_init_valid (key : str) :
  str_isalpha key = true ->
  Record_init key = Return (mkRecord (mkName key) [] None).
Proof.
  intros H; unfold Record_init, Name_init, validate_name.
  rewrite H; reflexivity.
Qed.

Lemma Record_init_invalid (key : str) :
  str_isalpha key = false ->
  Record_init key
  = Raise (ValidationException (lit "Name must contain only letters")).
Proof.
  intros H; unfold Record_init, Name_init, validate_name.
  rewrite H; reflexivity.
Qed.

Lemma add_phone_valid (self : ContactRecord) (p : str) :
  phone_rule p -> add_phone self p = Return (with_phones self [mkPhone p]).
Proof.
  intros H; unfold add_phone; rewrite (Phone_init_returns p H); reflexivity.
Qed.

Lemma add_phone_invalid (self : ContactRecord) (p : str) :
  ~ phone_rule p ->
  add_phone self p
  = Raise (ValidationException (lit "Phone number must be 10 digits")).
Proof.
  intros H; unfold add_phone; rewrite (Phone_init_raises p H); reflexivity.
Qed.

Lemma with_phones_nil (record : ContactRecord) : with_phones record [] = record.
Proof.
  destruct record; unfold with_phones; simpl; rewrite app_nil_r; reflexivity.
Qed.

Lemma add_contact_added (key : str) (phone : option str) (book : AddressBook) :
  find key book = None -> str_isalpha key = true -> phone_passes phone ->
  add_contact key phone book
  = (book ++ [(key, mkRecord (mkName key) (phones_added phone) None)],
     Return (lit "Contact added.")).
Proof.
  intros Hf Ha Hp; unfold add_contact.
  rewrite Hf, (Record_init_valid key Ha); simpl bind; cbv iota beta.
  unfold add_record; simpl name_value.
  rewrite (dict_set_absent _ _ _ Hf).
  destruct phone as [p|]; simpl; [|reflexivity].
  destruct (str_truthy p) eqn:T; [|reflexivity].
  rewrite (add_phone_valid _ p (Hp T)); unfold mutated.
  rewrite (dict_set_app_absent _ _ _ _ Hf); reflexivity.
Qed.

Lemma add_contact_updated (key : str) (phone : option str)
    (book : AddressBook) (record : ContactRecord) :
  find key book = Some record -> phone_passes phone ->
  add_contact key phone book
  = (mutated key (with_phones record (phones_added phone)) book,
     Return (lit "Contact updated.")).
Proof.
  intros Hf Hp; unfold add_contact; rewrite Hf; cbv iota beta.
  assert (Same : mutated key (with_phones record []) book = book).
  { rewrite with_phones_nil; apply dict_set_present; exact Hf. }
  destruct phone as [p|]; simpl; [|rewrite Same; reflexivity].
  destruct (str_truthy p) eqn:T; [|rewrite Same; reflexivity].
  rewrite (add_phone_valid _ p (Hp T)); reflexivity.
Qed.

(** C6, as stated, fails: the name is validated when the record is
    constructed; for a name that is not purely alphabetic nothing is
    inserted and no message is returned. *)
Lemma C6_invalid_name_not_added :
  ~ (find (lit "Ann1") [] = None ->
     snd (add_contact (lit "Ann1") None []) = Return (lit "Contact added.")).
Proof.
  intros H; specialize (H eq_refl); vm_compute in H; discriminate.
Qed.

(** C6, amended: for a name that passes the [Name] validation and has
    no record, [add_contact] inserts a new record and returns
    "Contact added."; for a name that has a record it returns
    "Contact updated."; in both cases, provided the phone argument is
    missing, empty or a valid phone, and a non-empty valid phone is
    appended to the record's phones.  Adding "Ann" twice returns
    "Contact added." and then "Contact updated.". *)
Theorem C6_add_contact_upsert (key : str) (phone : option str)
    (book : AddressBook) :
  (find key book = None -> str_isalpha key = true -> phone_passes phone ->
   add_contact key phone book
   = (book ++ [(key, mkRecord (mkName key) (phones_added phone) None)],
      Return (lit "Contact added.")))
  /\ (forall record,
      find key book = Some record -> phone_passes phone ->
      add_contact key phone book
      = (mutated key (with_phones record (phones_added phone)) book,
         Return (lit "Contact updated.")))
  /\ (let first := add_contact (lit "Ann") None [] in
      let second := add_contact (lit "Ann") None (fst first) in
      snd first = Return (lit "Contact added.")
      /\ snd second = Return (lit "Contact updated.")).
Proof.
  split; [apply add_contact_added|].
  split; [intros record; apply add_contact_updated|].
  vm_compute; auto.
Qed.

(** C10, as stated, fails on both sides: an empty phone string is not
    ten digits, yet [add_contact] treats it as no phone and returns
    normally; and when the name itself is invalid the call raises but
    no record is left behind. *)
Lemma C10_no_error_or_no_record :
  ~ (exists msg,
       snd (add_contact (lit "Ann") (Some []) [])
       = Raise (ValidationException msg))
  /\ find (lit "Ann1") [] = None
  /\ find (lit "Ann1") (fst (add_contact (lit "Ann1") (Some (lit "123")) []))
     = None.
Proof.
  split; [|split; vm_compute; reflexivity].
  intros [msg H]; vm_compute in H; discriminate.
Qed.

(** C10, amended: for a name that passes the [Name] validation and has
    no record, and a non-empty phone string that fails the [Phone]
    validation, [add_contact] raises the phone's [ValidationException]
    and leaves the address book with the new record inserted, its phone
    list empty. *)
Theorem C10_add_contact_not_atomic (key phone : str) (book : AddressBook) :
  find key book = None -> str_isalpha key = true ->
  phone <> [] -> ~ phone_rule phone ->
  let after := fst (add_contact key (Some phone) book) in
  snd (add_contact key (Some phone) book)
  = Raise (ValidationException (lit "Phone number must be 10 digits"))
  /\ after = book ++ [(key, mkRecord (mkName key) [] None)]
  /\ find key after = Some (mkRecord (mkName key) [] None).
Proof.
  intros Hf Ha Hne Hp; unfold add_contact.
  rewrite Hf, (Record_init_valid key Ha); simpl bind; cbv iota beta.
  unfold add_record; simpl name_value.
  rewrite (dict_set_absent _ _ _ Hf).
  destruct phone as [|c phone]; [congruence|]; simpl str_truthy; cbv iota.
  rewrite (add_phone_invalid _ _ Hp); simpl.
  repeat split.
  rewrite <- (dict_set_absent _ _ _ Hf); apply dict_get_set_same.
Qed.

Lemma C10_add_contact_not_atomic_witness :
  let after := fst (add_contact (lit "Ann") (Some (lit "123")) []) in
  snd (add_contact (lit "Ann") (Some (lit "123")) [])
  = Raise (ValidationException (lit "Phone number must be 10 digits"))
  /\ after = [] ++ [(lit "Ann", mkRecord (mkName (lit "Ann")) [] None)]
  /\ find (lit "Ann") after = Some (mkRecord (mkName (lit "Ann")) [] None).
Proof.
  apply (C10_add_contact_not_atomic (lit "Ann") (lit "123") []).
  - reflexivity.
  - vm_compute; reflexivity.
  - discriminate.
  - intros [_ H]; vm_compute in H; discriminate.
Defined.

(** ** The [input_error] decorator *)

Lemma input_error_returned {A : Type}
    (func : A -> AddressBook -> AddressBook * result str)
    (args : A) (book book' : AddressBook) (s : str) :
  func args book = (book', Return s) ->
  input_error func args book = (book', s).
Proof. intros H; unfold input_error; rewrite H; reflexivity. Qed.

Lemma input_error_caught {A : Type}
    (func : A -> AddressBook -> AddressBook * result str)
    (args : A) (book book' : AddressBook) (e : exn) :
  func args book = (book', Raise e) ->
  input_error func args book = (book', exn_str e).
Proof. intros H; unfold input_error; rewrite H; reflexivity. Qed.

Lemma exn_str_message (e : exn) :
  is_KeyError e = false -> exn_str e = exn_message e.
Proof. destruct e; simpl; congruence. Qed.

(** Whatever the wrapped function does, the handler returns a string
    and the address book left behind: the function's own string when it
    returns, [str(e)] when it raises [e]; and [str(e)] is the message
    of every exception but a [KeyError]. *)
Lemma input_error_total {A : Type}
    (func : A -> AddressBook -> AddressBook * result str)
    (args : A) (book : AddressBook) :
  (exists s, input_error func args book = (fst (func args book), s))
  /\ (forall book' s,
      func args book = (book', Return s) ->
      input_error func args book = (book', s))
  /\ (forall book' e,
      func args book = (book', Raise e) ->
      input_error func args book = (book', exn_str e)
      /\ (is_KeyError e = false -> exn_str e = exn_message e)).
Proof.
  split; [|split].
  - unfold input_error; destruct (func args book) as [book' [s|e]];
      eexists; reflexivity.
  - apply input_error_returned.
  - intros book' e H; split; [apply input_error_caught; exact H|].
    apply exn_str_message.
Qed.

(** C9: the text shown for a missing contact is not the message text.
    The four handlers that look a contact up raise
    [KeyError("Contact not found.")] when it is missing, and what they
    return for display is the [str] of that exception, which is the
    [repr] of the message: the 20 characters ['Contact not found.'],
    single quotes included, where the message has 18.  Here the
    address book is empty, so every name is missing.  The other
    exceptions a handler catches are shown as their message text: a
    missing argument and an invalid phone number are the examples. *)
Theorem C9_missing_contact_shown_quoted (rt : c_runtime)
    (key old_phone new_phone date_text : str) :
  handle_show_phone_body [key] []
  = ([], Raise (KeyError (lit "Contact not found.")))
  /\ handle_show_phone [key] [] = ([], lit "'Contact not found.'")
  /\ handle_change_contact [key; old_phone; new_phone] []
     = ([], lit "'Contact not found.'")
  /\ handle_add_birthday [key; date_text] []
     = ([], lit "'Contact not found.'")
  /\ handle_show_birthday rt [key] [] = ([], lit "'Contact not found.'")
  /\ lit "'Contact not found.'"
     <> exn_message (KeyError (lit "Contact not found."))
  /\ List.length (lit "'Contact not found.'") = 20%nat
  /\ List.length (exn_message (KeyError (lit "Contact not found."))) = 18%nat
  /\ handle_show_phone [] [] = ([], lit "Please provide contact name.")
  /\ handle_show_phone [] []
     = ([], exn_message (IndexError (lit "Please provide contact name.")))
  /\ snd (handle_add_contact [lit "Ann"; lit "123"] [])
     = lit "Phone number must be 10 digits"
  /\ snd (handle_add_contact_body [lit "Ann"; lit "123"] [])
     = Raise (ValidationException (lit "Phone number must be 10 digits")).
Proof.
  repeat split; try (vm_compute; reflexivity).
  vm_compute; discriminate.
Qed.

(** ** Calendar arithmetic *)

Lemma date_ok_iff (d : date) :
  date_ok d = true <->
  1 <= year d <= 9999 /\ 1 <= month d <= 12
  /\ 1 <= day d <= days_in_month (year d) (month d).
Proof.
  unfold date_ok, MINYEAR, MAXYEAR.
  rewrite !andb_true_iff, !Z.leb_le; tauto.
Qed.

Lemma date_new_valid (y m d : Z) :
  date_ok (mkdate y m d) = true -> date_new y m d = Return (mkdate y m d).
Proof.
  rewrite date_ok_iff; simpl; intros (Hy & Hm & Hd).
  unfold date_new, MINYEAR, MAXYEAR.
  replace (y <? 1) with false by (symmetry; apply Z.ltb_ge; lia).
  replace (9999 <? y) with false by (symmetry; apply Z.ltb_ge; lia).
  replace (m <? 1) with false by (symmetry; apply Z.ltb_ge; lia).
  replace (12 <? m) with false by (symmetry; apply Z.ltb_ge; lia).
  replace (d <? 1) with false by (symmetry; apply Z.ltb_ge; lia).
  replace (days_in_month y m <? d) with false
    by (symmetry; apply Z.ltb_ge; lia).
  reflexivity.
Qed.

Lemma date_new_inv (y m d : Z) (r : result date) :
  date_new y m d = r ->
  (r = Return (mkdate y m d) /\ date_ok (mkdate y m d) = true)
  \/ (exists msg, r = Raise (ValueError msg)
                  /\ date_ok (mkdate y m d) = false).
Proof.
  intros <-; unfold date_new, date_ok; simpl.
  rewrite !Z.leb_antisym.
  destruct (y <? MINYEAR), (MAXYEAR <? y), (m <? 1), (12 <? m), (d <? 1),
    (days_in_month y m <? d); simpl;
    solve [left; split; reflexivity | right; eexists; split; reflexivity].
Qed.

Lemma date_new_ok (y m d : Z) (x : date) :
  date_new y m d = Return x -> x = mkdate y m d /\ date_ok x = true.
Proof.
  intros H; destruct (date_new_inv _ _ _ _ H) as [[E Ok]|[msg [E _]]].
  - injection E as ->; auto.
  - discriminate.
Qed.

Lemma month_cases (m : Z) :
  1 <= m <= 12 ->
  m = 1 \/ m = 2 \/ m = 3 \/ m = 4 \/ m = 5 \/ m = 6 \/ m = 7 \/ m = 8
  \/ m = 9 \/ m = 10 \/ m = 11 \/ m = 12.
Proof. lia. Qed.

Ltac each_month H :=
  apply month_cases in H;
  repeat (destruct H as [H|H]; [subst|]); [..|subst].

Lemma day_of_year_bounds (y m d : Z) :
  1 <= m <= 12 -> 1 <= d <= days_in_month y m ->
  1 <= days_before_month y m + d <= 365 + (if is_leap y then 1 else 0).
Proof.
  intros Hm; unfold days_before_month, days_in_month.
  each_month Hm; destruct (is_leap y); cbv -[Z.add Z.le Z.lt]; lia.
Qed.

Lemma days_before_year_bounds (y : Z) :
  1 <= y <= 9999 ->
  0 <= days_before_year y /\ days_before_year y <= 3651694
  /\ (y <= 9998 -> days_before_year y <= 3651329).
Proof.
  intros Hy; unfold days_before_year; cbv zeta.
  Z.div_mod_to_equations; lia.
Qed.

Lemma is_leap_9999 (y : Z) : is_leap y = true -> y <> 9999.
Proof. intros H ->; vm_compute in H; discriminate. Qed.

Lemma toordinal_bounds (d : date) :
  date_ok d = true -> 1 <= toordinal d <= MAXORDINAL.
Proof.
  rewrite date_ok_iff; intros (Hy & Hm & Hd).
  unfold toordinal, ymd2ord, MAXORDINAL.
  pose proof (day_of_year_bounds _ _ _ Hm Hd) as B.
  pose proof (days_before_year_bounds _ Hy) as (B0 & B1 & B2).
  destruct (is_leap (year d)) eqn:L.
  - apply is_leap_9999 in L; lia.
  - lia.
Qed.

(** No Saturday lies in the last two days of year 9999 and no Sunday is
    its last day: shifting a weekend date to Monday cannot overflow. *)
Lemma weekend_shift_in_range (d : date) :
  date_ok d = true ->
  (weekday d = 5 -> 0 < toordinal d + 2 <= MAXORDINAL)
  /\ (weekday d = 6 -> 0 < toordinal d + 1 <= MAXORDINAL).
Proof.
  intros Ok; pose proof (toordinal_bounds d Ok) as B.
  unfold weekday, MAXORDINAL in *.
  split; intros W; Z.div_mod_to_equations; lia.
Qed.

Lemma month_day_correct (leapyear : bool) (n : Z) :
  0 <= n < 365 + (if leapyear then 1 else 0) ->
  month_day_ok leapyear n = true.
Proof.
  intros Hn.
  assert (H : forall k, (k < 366)%nat -> (leapyear = true \/ (k < 365)%nat) ->
              month_day_ok leapyear (Z.of_nat k) = true).
  { intros k Hk Hl.
    assert (A : forallb (fun k => month_day_ok true (Z.of_nat k)) (seq 0 366)
                = true) by (vm_compute; reflexivity).
    assert (B : forallb (fun k => month_day_ok false (Z.of_nat k)) (seq 0 365)
                = true) by (vm_compute; reflexivity).
    rewrite forallb_forall in A, B.
    destruct leapyear.
    - apply A, in_seq; lia.
    - apply B, in_seq; destruct Hl; [discriminate | lia]. }
  rewrite <- (Z2Nat.id n) by lia; apply H.
  - destruct leapyear; lia.
  - destruct leapyear; [auto | right; lia].
Qed.

Lemma year_of_cycles (a b c e : Z) :
  0 <= a -> 0 <= b <= 3 -> 0 <= c <= 24 -> 0 <= e <= 3 ->
  let y := 400 * a + 100 * b + 4 * c + e + 1 in
  days_before_year y = 146097 * a + 36524 * b + 1461 * c + 365 * e
  /\ is_leap y = (e =? 3) && (negb (c =? 24) || (b =? 3)).
Proof.
  intros Ha Hb Hc He y; subst y; split.
  - unfold days_before_year; cbv zeta.
    Z.div_mod_to_equations; lia.
  - unfold is_leap; apply eq_true_iff_eq.
    rewrite !andb_true_iff, !orb_true_iff, !negb_true_iff,
      !Z.eqb_eq, !Z.eqb_neq.
    Z.div_mod_to_equations; lia.
Qed.

Lemma ord2ymd_correct (n : Z) :
  1 <= n <= MAXORDINAL ->
  let '(y, m, d) := ord2ymd n in
  date_ok (mkdate y m d) = true /\ ymd2ord y m d = n.
Proof.
  intros Hn; unfold ord2ymd, MAXORDINAL, DI400Y, DI100Y, DI4Y in *.
  cbv zeta.
  set (a := (n - 1) / 146097).
  set (r400 := (n - 1) mod 146097).
  set (b := r400 / 36524).
  set (r100 := r400 mod 36524).
  set (c := r100 / 1461).
  set (r4 := r100 mod 1461).
  set (e := r4 / 365).
  set (r := r4 mod 365).
  assert (Ea : n - 1 = 146097 * a + r400 /\ 0 <= r400 < 146097 /\ 0 <= a)
    by (subst a r400; Z.div_mod_to_equations; lia).
  assert (Eb : r400 = 36524 * b + r100 /\ 0 <= r100 < 36524 /\ 0 <= b <= 4)
    by (subst b r100; Z.div_mod_to_equations; lia).
  assert (Ec : r100 = 1461 * c + r4 /\ 0 <= r4 < 1461 /\ 0 <= c <= 24)
    by (subst c r4; Z.div_mod_to_equations; lia).
  assert (Ee : r4 = 365 * e + r /\ 0 <= r < 365 /\ 0 <= e <= 4)
    by (subst e r; Z.div_mod_to_equations; lia).
  clearbody a r400 b r100 c r4 e r.
  destruct Ea as (Ea & Ra & Ha), Eb as (Eb & Rb & Hb), Ec as (Ec & Rc & Hc),
    Ee as (Ee & Re & He).
  assert (Dim : forall y m,
             days_in_month y m
             = DAYS_IN_MONTH m + (if (m =? 2) && is_leap y then 1 else 0)).
  { intros y m; unfold days_in_month.
    destruct (m =? 2) eqn:M; destruct (is_leap y); cbn [andb];
      try (apply Z.eqb_eq in M; subst m; reflexivity); lia. }
  destruct ((e =? 4) || (b =? 4)) eqn:Edge.
  - (* the last day of a leap year *)
    assert (Last : exists b' c',
               0 <= b' <= 3 /\ 0 <= c' <= 24 /\ (c' <> 24 \/ b' = 3)
               /\ a * 400 + 1 + b * 100 + c * 4 + e - 1
                  = 400 * a + 100 * b' + 4 * c' + 3 + 1
               /\ n = 146097 * a + 36524 * b' + 1461 * c' + 365 * 3 + 366).
    { apply orb_true_iff in Edge; rewrite !Z.eqb_eq in Edge.
      destruct (Z.eq_dec b 4) as [B|B].
      - exists 3, 24; lia.
      - exists b, c; lia. }
    destruct Last as (b' & c' & Hb' & Hc' & Leap & -> & ->).
    destruct (year_of_cycles a b' c' 3 Ha Hb' Hc' ltac:(lia)) as [Dby Lp].
    cbv zeta in Dby, Lp.
    assert (L : is_leap (400 * a + 100 * b' + 4 * c' + 3 + 1) = true).
    { rewrite Lp; apply andb_true_iff; split; [reflexivity|].
      apply orb_true_iff; rewrite negb_true_iff, Z.eqb_neq, Z.eqb_eq; exact Leap. }
    split.
    + apply date_ok_iff; cbn [year month day].
      rewrite Dim, L; cbv -[Z.add Z.mul Z.le Z.lt]; lia.
    + unfold ymd2ord, days_before_month; rewrite Dby, L.
      cbv -[Z.add Z.mul]; lia.
  - apply orb_false_iff in Edge; rewrite !Z.eqb_neq in Edge.
    set (L := (e =? 3) && (negb (c =? 24) || (b =? 3))).
    replace (a * 400 + 1 + b * 100 + c * 4 + e)
      with (400 * a + 100 * b + 4 * c + e + 1) by lia.
    destruct (year_of_cycles a b c e Ha ltac:(lia) Hc ltac:(lia)) as [Dby Lp].
    cbv zeta in Dby, Lp; fold L in Lp.
    pose proof (month_day_correct L r ltac:(destruct L; lia)) as MD.
    unfold month_day_ok, month_day in MD; cbv zeta in MD.
    match goal with |- context [if ?c then _ else _] =>
      match c with (r <? _) => destruct c end end;
      rewrite !andb_true_iff, !Z.leb_le, Z.eqb_eq in MD;
      destruct MD as ((((M1 & M2) & D1) & D2) & Sum);
      (split;
       [ apply date_ok_iff; cbn [year month day];
         rewrite Dim, Lp; lia
       | unfold ymd2ord, days_before_month; rewrite Dby, Lp; lia ]).
Qed.

Lemma fromordinal_correct (n : Z) :
  1 <= n <= MAXORDINAL ->
  exists d, fromordinal n = Return d /\ date_ok d = true /\ toordinal d = n.
Proof.
  intros Hn; unfold fromordinal.
  replace (n <? 1) with false by (symmetry; apply Z.ltb_ge; lia).
  pose proof (ord2ymd_correct n Hn) as H.
  destruct (ord2ymd n) as [[y m] d]; destruct H as [Ok Ord].
  exists (mkdate y m d); rewrite (date_new_valid _ _ _ Ok); auto.
Qed.

Lemma date_add_correct (d : date) (k : Z) :
  0 < toordinal d + k <= MAXORDINAL ->
  exists c, date_add d k = Return c /\ date_ok c = true
            /\ toordinal c = toordinal d + k.
Proof.
  intros H; unfold date_add.
  replace ((0 <? toordinal d + k) && (toordinal d + k <=? MAXORDINAL))
    with true
    by (symmetry; apply andb_true_iff; rewrite Z.ltb_lt, Z.leb_le; exact H).
  apply fromordinal_correct; lia.
Qed.

(** ** Formatting and parsing a date *)

Lemma TimeRE_pattern_birthday :
  TimeRE_pattern (lit "%d.%m.%Y") = Return birthday_rx.
Proof. reflexivity. Qed.

Lemma strftime_dmY (rt : c_runtime) (d : date) :
  strftime rt d "%d.%m.%Y"
  = zfill 2 (dec (day d)) ++ 46%N :: zfill 2 (dec (month d))
    ++ 46%N :: fmt_year rt (year d) ++ [].
Proof. reflexivity. Qed.

Lemma rx_seq_head (r1 r2 : regex) (s m1 rest1 m2 rest2 : str)
    (g1 g2 : groups) (tl1 tl2 : list (str * groups * str)) :
  rx_run r1 s = (m1, g1, rest1) :: tl1 ->
  rx_run r2 rest1 = (m2, g2, rest2) :: tl2 ->
  exists tl, rx_run (RSeq r1 r2) s = (m1 ++ m2, g1 ++ g2, rest2) :: tl.
Proof.
  intros H1 H2; simpl; rewrite H1; simpl; rewrite H2; simpl.
  eexists; reflexivity.
Qed.

Lemma Z_enumerated (P : Z -> Prop) (lo : Z) (len : nat) :
  Forall P (map (fun k => lo + Z.of_nat k) (seq 0 len)) ->
  forall n, lo <= n < lo + Z.of_nat len -> P n.
Proof.
  rewrite Forall_forall; intros H n Hn; apply H.
  apply in_map_iff; exists (Z.to_nat (n - lo)); split; [lia|].
  apply in_seq; lia.
Qed.

Lemma day_text (n : Z) :
  1 <= n <= 31 ->
  forall rest,
    (exists tl,
       rx_run (RGroup "d" re_d) (zfill 2 (dec n) ++ rest)
       = (zfill 2 (dec n), [("d"%string, zfill 2 (dec n))], rest) :: tl)
    /\ py_int (zfill 2 (dec n)) = Return n.
Proof.
  intros Hn; pattern n; apply (Z_enumerated _ 1 31); [|lia].
  repeat constructor; try (eexists; vm_compute; reflexivity).
Qed.

Lemma month_text (n : Z) :
  1 <= n <= 12 ->
  forall rest,
    (exists tl,
       rx_run (RGroup "m" re_m) (zfill 2 (dec n) ++ rest)
       = (zfill 2 (dec n), [("m"%string, zfill 2 (dec n))], rest) :: tl)
    /\ py_int (zfill 2 (dec n)) = Return n.
Proof.
  intros Hn; pattern n; apply (Z_enumerated _ 1 12); [|lia].
  repeat constructor; try (eexists; vm_compute; reflexivity).
Qed.

(** *** Decimal digits *)

Lemma digit_char (n : Z) :
  let c := (48 + Z.to_N (n mod 10))%N in
  ascii_digit c = true /\ Unicode.decimal c = Some (Z.to_N (n mod 10))
  /\ Unicode.isspace c = false.
Proof.
  cbv zeta.
  assert (H : (Z.to_N (n mod 10) < 10)%N)
    by (pose proof (Z.mod_pos_bound n 10 ltac:(lia)); lia).
  revert H; generalize (Z.to_N (n mod 10)) as v; intros v Hv.
  assert (A : forallb
                (fun v =>
                   ascii_digit (48 + v)
                   && match Unicode.decimal (48 + v) with
                      | Some w => N.eqb w v
                      | None => false
                      end
                   && negb (Unicode.isspace (48 + v)))
                (map N.of_nat (seq 0 10)) = true)
    by (vm_compute; reflexivity).
  pose proof (below_enumerated _ 10 A v Hv) as B; cbv beta in B.
  apply andb_true_iff in B as [B Sp]; apply andb_true_iff in B as [Ad De].
  destruct (Unicode.decimal (48 + v)) as [w|]; [|discriminate].
  apply N.eqb_eq in De; subst w.
  apply negb_true_iff in Sp; repeat split; assumption.
Qed.

Lemma digit_list_length (k : nat) (n : Z) : List.length (digit_list k n) = k.
Proof.
  revert n; induction k as [|k IH]; intros n; simpl; [reflexivity|].
  rewrite length_app, IH; simpl; lia.
Qed.

Lemma digit_list_digits (k : nat) (n : Z) :
  Forall (fun c => ascii_digit c = true) (digit_list k n).
Proof.
  revert n; induction k as [|k IH]; intros n; simpl; [constructor|].
  apply Forall_app; split; [apply IH|].
  constructor; [apply digit_char | constructor].
Qed.

Lemma digits_value_app (a : Z) (s t : str) :
  digits_value a (s ++ t)
  = match digits_value a s with
    | Some v => digits_value v t
    | None => None
    end.
Proof.
  revert a; induction s as [|c s IH]; intros a; simpl; [reflexivity|].
  destruct (Unicode.decimal c); [apply IH | reflexivity].
Qed.

Lemma digits_value_digit_list (k : nat) (n a : Z) :
  digits_value a (digit_list k n)
  = Some (a * 10 ^ Z.of_nat k + n mod 10 ^ Z.of_nat k).
Proof.
  revert n a; induction k as [|k IH]; intros n a.
  - simpl; rewrite Z.mod_1_r; f_equal; lia.
  - cbn [digit_list]; rewrite digits_value_app, IH; cbn [digits_value].
    destruct (digit_char n) as (_ & -> & _); f_equal.
    rewrite Nat2Z.inj_succ, Z.pow_succ_r by lia.
    rewrite (Z.rem_mul_r n 10 (10 ^ Z.of_nat k)) by lia.
    pose proof (Z.mod_pos_bound n 10 ltac:(lia)); lia.
Qed.

(** With enough fuel [dec_digits] yields exactly the digits of [n],
    without a leading zero. *)
Lemma dec_digits_list (fuel : nat) (n : Z) (acc : str) :
  0 <= n < 10 * 2 ^ Z.of_nat fuel ->
  exists k,
    dec_digits fuel n acc = digit_list (S k) n ++ acc
    /\ n < 10 ^ Z.of_nat (S k)
    /\ (k = 0%nat \/ 10 ^ Z.of_nat k <= n).
Proof.
  revert n acc; induction fuel as [|fuel IH]; intros n acc Hn.
  - exists 0%nat; simpl in *; repeat split; auto; lia.
  - cbn [dec_digits]; destruct (n <? 10) eqn:Small.
    + apply Z.ltb_lt in Small.
      exists 0%nat; simpl; repeat split; auto; lia.
    + apply Z.ltb_ge in Small.
      rewrite Nat2Z.inj_succ, Z.pow_succ_r in Hn by lia.
      assert (P : 0 < 2 ^ Z.of_nat fuel) by (apply Z.pow_pos_nonneg; lia).
      destruct (IH (n / 10) ((48 + Z.to_N (n mod 10))%N :: acc))
        as (k & E & Up & Lo);
        [Z.div_mod_to_equations; lia|].
      exists (S k); rewrite E; split; [|split].
      * cbn [digit_list]; rewrite <- !app_assoc; reflexivity.
      * rewrite (Nat2Z.inj_succ (S k)), Z.pow_succ_r by lia.
        Z.div_mod_to_equations; lia.
      * right; rewrite Nat2Z.inj_succ, Z.pow_succ_r by lia.
        destruct Lo as [->|Lo]; [simpl; lia|].
        Z.div_mod_to_equations; lia.
Qed.

Lemma dec_digits_of (n : Z) :
  0 <= n ->
  exists k,
    dec n = digit_list (S k) n
    /\ n < 10 ^ Z.of_nat (S k)
    /\ (k = 0%nat \/ 10 ^ Z.of_nat k <= n).
Proof.
  intros Hn; unfold dec.
  replace (n <? 0) with false by (symmetry; apply Z.ltb_ge; lia).
  destruct (dec_digits_list (Z.to_nat (Z.log2 n)) n []) as (k & E & B).
  - rewrite Z2Nat.id by apply Z.log2_nonneg.
    destruct (Z.eq_dec n 0) as [->|Nz]; [simpl; lia|].
    pose proof (Z.log2_spec n ltac:(lia)) as [_ Up].
    rewrite Z.pow_succ_r in Up by apply Z.log2_nonneg; lia.
  - exists k; rewrite E, app_nil_r; split; [reflexivity | exact B].
Qed.

(** [int(str(n)) == n], also with leading zeros. *)
Lemma lstrip_digits (s : str) :
  Forall (fun c => ascii_digit c = true) s -> lstrip s = s.
Proof.
  intros [|c s' Hc _]; [reflexivity|]; simpl.
  replace (Unicode.isspace c) with false; [reflexivity|].
  symmetry; unfold ascii_digit in Hc.
  apply andb_true_iff in Hc as [L U]; apply N.leb_le in L, U.
  replace c with (48 + Z.to_N (Z.of_N (c - 48) mod 10))%N
    by (rewrite Z.mod_small by lia; lia).
  apply digit_char.
Qed.

Lemma py_int_digits (s : str) (n : Z) :
  s <> [] -> Forall (fun c => ascii_digit c = true) s ->
  digits_value 0 s = Some n -> py_int s = Return n.
Proof.
  intros Ne Hd Hv; unfold py_int, strip.
  rewrite (lstrip_digits s Hd), (lstrip_digits (rev s)), rev_involutive
    by (apply Forall_rev; exact Hd).
  destruct s; [congruence|]; rewrite Hv; reflexivity.
Qed.

Lemma zfill_digits (w : nat) (s : str) (n : Z) :
  Forall (fun c => ascii_digit c = true) s ->
  digits_value 0 s = Some n ->
  Forall (fun c => ascii_digit c = true) (zfill w s)
  /\ digits_value 0 (zfill w s) = Some n.
Proof.
  intros Hd Hv; unfold zfill.
  induction (w - List.length s)%nat as [|j [IH1 IH2]]; simpl; [auto|].
  split; [constructor; [reflexivity | exact IH1]|].
  change (Unicode.decimal 48) with (Some 0%N); exact IH2.
Qed.

Lemma py_int_dec (w : nat) (n : Z) :
  0 <= n -> py_int (zfill w (dec n)) = Return n.
Proof.
  intros Hn; destruct (dec_digits_of n Hn) as (k & E & Up & _).
  assert (V : digits_value 0 (dec n) = Some n).
  { rewrite E, digits_value_digit_list, Z.mod_small by lia; f_equal; lia. }
  assert (D : Forall (fun c => ascii_digit c = true) (dec n))
    by (rewrite E; apply digit_list_digits).
  destruct (zfill_digits w _ _ D V) as [D' V'].
  apply py_int_digits; auto.
  unfold zfill; rewrite E; cbn [digit_list].
  intros H; apply (f_equal (@List.length N)) in H.
  rewrite !length_app in H; simpl in H; lia.
Qed.

(** A year is printed as four decimal digits when it has four digits
    or is zero-padded, and reads back as itself. *)
Lemma fmt_year_text (rt : c_runtime) (y : Z) :
  1 <= y <= 9999 -> rt = PaddedYear \/ 1000 <= y ->
  List.length (fmt_year rt y) = 4%nat
  /\ Forall (fun c => ascii_digit c = true) (fmt_year rt y)
  /\ py_int (fmt_year rt y) = Return y.
Proof.
  intros Hy Hrt.
  destruct (dec_digits_of y ltac:(lia)) as (k & E & Up & Lo).
  assert (D : Forall (fun c => ascii_digit c = true) (dec y))
    by (rewrite E; apply digit_list_digits).
  assert (V : digits_value 0 (dec y) = Some y).
  { rewrite E, digits_value_digit_list, Z.mod_small by lia; f_equal; lia. }
  assert (L : List.length (dec y) = S k)
    by (rewrite E; apply digit_list_length).
  assert (K : (k <= 3)%nat).
  { destruct Lo as [->|Lo]; [lia|].
    destruct k as [|[|[|[|k]]]]; try lia.
    rewrite !Nat2Z.inj_succ, !Z.pow_succ_r in Lo by lia.
    pose proof (Z.pow_pos_nonneg 10 (Z.of_nat k) ltac:(lia) ltac:(lia)).
    lia. }
  assert (I : forall w, py_int (zfill w (dec y)) = Return y)
    by (intros w; apply py_int_dec; lia).
  destruct rt; cbn [fmt_year].
  - destruct Hrt as [|Big]; [discriminate|].
    assert (k = 3%nat).
    { destruct k as [|[|[|k]]]; [exfalso; cbn in Up; lia ..|lia]. }
    subst k; split; [exact L|]. split; [exact D|].
    specialize (I 0%nat); unfold zfill in I; exact I.
  - split; [|split; [|apply I]].
    + unfold zfill; rewrite length_app, repeat_length, L; lia.
    + apply (zfill_digits 4 _ _ D V).
Qed.

Lemma year_text (rt : c_runtime) (y : Z) :
  1 <= y <= 9999 -> rt = PaddedYear \/ 1000 <= y ->
  rx_run (RSeq (RGroup "Y" re_Y) REps) (fmt_year rt y)
  = [(fmt_year rt y ++ [], [("Y"%string, fmt_year rt y)] ++ [], [])]
  /\ py_int (fmt_year rt y) = Return y.
Proof.
  intros Hy Hrt; destruct (fmt_year_text rt y Hy Hrt) as (L & D & I).
  split; [|exact I].
  destruct (fmt_year rt y) as [|a [|b [|c [|e [|? ?]]]]]; try discriminate.
  inversion D as [|? ? Da D1]; inversion D1 as [|? ? Db D2];
    inversion D2 as [|? ? Dc D3]; inversion D3 as [|? ? De _]; subst.
  apply ascii_digit_isdecimal in Da, Db, Dc, De.
  simpl; unfold rx_class; rewrite Da; simpl; rewrite Db; simpl;
    rewrite Dc; simpl; rewrite De; reflexivity.
Qed.

Lemma rx_lit_dot (rest : str) :
  rx_run (RLit 46) (46%N :: rest) = [([46%N], [], rest)].
Proof. reflexivity. Qed.

(** Parsing what [strftime] printed gives the date back, provided the
    year was printed with four digits. *)
Lemma strptime_strftime (rt : c_runtime) (d : date) :
  date_ok d = true ->
  rt = PaddedYear \/ 1000 <= year d ->
  strptime (strftime rt d "%d.%m.%Y") "%d.%m.%Y" = Return d.
Proof.
  destruct d as [y m dd]; cbn [year]; intros Ok Hy; pose proof Ok as Ok'.
  apply date_ok_iff in Ok' as (Y & M & D); cbn [year month day] in *.
  assert (Dd : 1 <= dd <= 31).
  { split; [lia|]. unfold days_in_month in D.
    destruct ((m =? 2) && is_leap (y)); [lia|].
    clear - M D; each_month M; cbv [DAYS_IN_MONTH] in D; lia. }
  destruct (year_text rt y Y Hy) as [Ry Iy].
  destruct (month_text (m) M (46%N :: fmt_year rt (y) ++ []))
    as [[tlm Rm] Im].
  destruct (day_text (dd) Dd
              (46%N :: zfill 2 (dec (m))
                 ++ 46%N :: fmt_year rt (y) ++ []))
    as [[tld Rd] Id].
  rewrite app_nil_r in Ry at 1.
  destruct (rx_seq_head _ _ _ _ _ _ _ _ _ _ _
              (rx_lit_dot (fmt_year rt (y) ++ []))
              (eq_ind_r (fun s => rx_run _ s = _) Ry (app_nil_r _)))
    as [tl1 R1].
  destruct (rx_seq_head _ _ _ _ _ _ _ _ _ _ _ Rm R1) as [tl2 R2].
  destruct (rx_seq_head _ _ _ _ _ _ _ _ _ _ _
              (rx_lit_dot (zfill 2 (dec (m))
                             ++ 46%N :: fmt_year rt (y) ++ []))
              R2) as [tl3 R3].
  destruct (rx_seq_head _ _ _ _ _ _ _ _ _ _ _ Rd R3) as [tl4 R4].
  unfold strptime; rewrite TimeRE_pattern_birthday, strftime_dmY.
  cbn [bind year month day]; unfold birthday_rx; rewrite R4.
  cbn [app group_int group_get String.eqb Ascii.eqb Bool.eqb].
  rewrite Iy, Im, Id; cbn [bind].
  apply date_new_valid; exact Ok.
Qed.

Lemma strptime_date_ok (value : str) (format : string) (d : date) :
  strptime value format = Return d -> date_ok d = true.
Proof.
  unfold strptime.
  destruct (TimeRE_pattern (lit format)) as [pat|]; [|discriminate].
  cbn [bind].
  destruct (rx_run pat value) as [|[[m found] rest] tl]; [discriminate|].
  destruct rest; [|discriminate].
  destruct (group_int "Y" 1900 found) as [y|]; [|discriminate].
  destruct (group_int "m" 1 found) as [mo|]; [|discriminate].
  destruct (group_int "d" 1 found) as [dd|]; [|discriminate].
  cbn [bind]; intros H; apply date_new_ok in H; tauto.
Qed.

(** A [Birthday] always holds a valid calendar date. *)
Lemma Birthday_init_date_ok (value : str) (b : Birthday) :
  Birthday_init value = Return b -> date_ok (birthday_value b) = true.
Proof.
  unfold Birthday_init.
  destruct (strptime value "%d.%m.%Y") as [d|e] eqn:E.
  - intros [= <-]; exact (strptime_date_ok _ _ _ E).
  - destruct e; discriminate.
Qed.

Lemma Birthday_init_strftime (rt : c_runtime) (d : date) :
  date_ok d = true -> rt = PaddedYear \/ 1000 <= year d ->
  Birthday_init (strftime rt d "%d.%m.%Y") = Return (mkBirthday d).
Proof.
  intros Ok Hy; unfold Birthday_init.
  rewrite (strptime_strftime rt d Ok Hy); reflexivity.
Qed.

(** C8, as stated, fails where the C library prints [%Y] without
    padding (glibc under CPython 3.11): the valid birthday 01.01.0999
    is shown as "01.01.999", which the same format does not parse. *)
Lemma C8_year_below_1000_not_reparsed :
  let b := mkBirthday (mkdate 999 1 1) in
  let self := mkRecord (mkName (lit "Ann")) [] (Some b) in
  Birthday_init (lit "01.01.0999") = Return b
  /\ show_birthday UnpaddedYear self = lit "01.01.999"
  /\ Birthday_init (show_birthday UnpaddedYear self) <> Return b.
Proof.
  cbv zeta; split; [vm_compute; reflexivity|].
  split; [vm_compute; reflexivity|].
  vm_compute; discriminate.
Qed.

(** C8, amended: for every valid [Birthday] of a year from 1000 on,
    and for every valid [Birthday] at all where [%Y] is printed
    zero-padded to four digits, formatting the stored date as
    [show_birthday] does and constructing a [Birthday] from that text
    gives the same date. *)
Theorem C8_birthday_round_trip (rt : c_runtime) (value : str)
    (b : Birthday) (self : ContactRecord) :
  Birthday_init value = Return b ->
  birthday self = Some b ->
  rt = PaddedYear \/ 1000 <= year (birthday_value b) ->
  Birthday_init (show_birthday rt self) = Return b.
Proof.
  intros Hb Hs Hy; unfold show_birthday; rewrite Hs.
  destruct b as [d]; apply Birthday_init_strftime; [|exact Hy].
  exact (Birthday_init_date_ok _ _ Hb).
Qed.

Lemma C8_birthday_round_trip_witness :
  Birthday_init (show_birthday UnpaddedYear
                   (mkRecord (mkName (lit "Ann")) []
                      (Some (mkBirthday (mkdate 1990 5 4)))))
  = Return (mkBirthday (mkdate 1990 5 4)).
Proof.
  apply (C8_birthday_round_trip UnpaddedYear (lit "04.05.1990")
           (mkBirthday (mkdate 1990 5 4))).
  - vm_compute; reflexivity.
  - reflexivity.
  - right; simpl; lia.
Defined.

(** ** Upcoming birthdays *)

Lemma replace_year_inv (d : date) (y : Z) (r : result date) :
  replace_year d y = r ->
  (exists x, r = Return x /\ x = mkdate y (month d) (day d)
             /\ date_ok x = true)
  \/ (exists msg, r = Raise (ValueError msg)).
Proof.
  intros H; destruct (date_new_inv _ _ _ _ H) as [[E Ok]|[msg [E _]]]; eauto.
Qed.

Lemma next_birthday_inv (today b : date) (r : result date) :
  next_birthday today b = r ->
  (exists x, r = Return x /\ date_ok x = true
             /\ month x = month b /\ day x = day b)
  \/ (exists msg, r = Raise (ValueError msg)).
Proof.
  unfold next_birthday; intros <-.
  destruct (replace_year_inv b (year today) _ eq_refl)
    as [(x & -> & Ex & Ok)|[msg ->]]; [|right; cbn [bind]; eauto].
  cbn [bind]; destruct (date_ltb x today).
  - destruct (replace_year_inv x (year today + 1) _ eq_refl)
      as [(x' & -> & Ex' & Ok')|[msg ->]]; [|right; eauto].
    left; exists x'; subst; repeat split; auto.
  - left; exists x; subst; repeat split; auto.
Qed.

Lemma congratulation_correct (d : date) :
  date_ok d = true ->
  exists c, congratulation d = Return c /\ date_ok c = true
            /\ toordinal c = toordinal d + weekend_shift d
            /\ (weekend_shift d = 0 -> c = d).
Proof.
  intros Ok; unfold congratulation, weekend_shift.
  destruct (weekend_shift_in_range d Ok) as [Sat Sun].
  destruct (weekday d =? 5) eqn:W5.
  - apply Z.eqb_eq in W5.
    destruct (date_add_correct d 2 (Sat W5)) as (c & -> & Okc & Oc).
    exists c; repeat split; auto; discriminate.
  - destruct (weekday d =? 6) eqn:W6.
    + apply Z.eqb_eq in W6.
      destruct (date_add_correct d 1 (Sun W6)) as (c & -> & Okc & Oc).
      exists c; repeat split; auto; discriminate.
    + exists d; repeat split; auto; lia.
Qed.

(** What one iteration of the loop does with a record that has a
    birthday. *)
Lemma upcoming_of_inv (rt : c_runtime) (today : date)
    (record : ContactRecord) (b : Birthday) :
  birthday record = Some b ->
  (exists msg,
     next_birthday today (birthday_value b) = Raise (ValueError msg)
     /\ upcoming_of rt today record = Raise (ValueError msg))
  \/ (exists tyb c,
        next_birthday today (birthday_value b) = Return tyb
        /\ date_ok tyb = true
        /\ congratulation tyb = Return c
        /\ date_ok c = true
        /\ toordinal c = toordinal tyb + weekend_shift tyb
        /\ (weekend_shift tyb = 0 -> c = tyb)
        /\ upcoming_of rt today record
           = Return
               (if (0 <=? days_between tyb today)
                   && (days_between tyb today <=? 7)
                then Some (mkUpcoming (name_value (name record))
                             (strftime rt c "%d.%m.%Y")
                             (strftime rt c "%Y.%m.%d"))
                else None)).
Proof.
  intros Hb; unfold upcoming_of; rewrite Hb.
  destruct (next_birthday_inv today (birthday_value b) _ eq_refl)
    as [(tyb & E & Ok & _)|[msg E]]; rewrite E; cbn [bind].
  - right.
    destruct (congratulation_correct tyb Ok) as (c & Ec & Okc & Oc & Same).
    exists tyb, c; rewrite Ec; cbn [bind].
    destruct ((0 <=? days_between tyb today)
              && (days_between tyb today <=? 7)); auto 10.
  - left; exists msg; auto.
Qed.

Lemma upcoming_of_raises_ValueError (rt : c_runtime) (today : date)
    (record : ContactRecord) (e : exn) :
  upcoming_of rt today record = Raise e -> is_ValueError e = true.
Proof.
  destruct (birthday record) as [b|] eqn:Hb.
  - destruct (upcoming_of_inv rt today record b Hb)
      as [(msg & _ & ->)|(tyb & c & _ & _ & _ & _ & _ & _ & ->)].
    + intros [= <-]; reflexivity.
    + discriminate.
  - unfold upcoming_of; rewrite Hb; discriminate.
Qed.

(** The loop: the accumulator only grows at its end. *)
Lemma upcoming_loop_acc (rt : c_runtime) (today : date)
    (records : list ContactRecord) (acc : list upcoming) :
  upcoming_loop rt today records acc
  = (res <- upcoming_loop rt today records [] ;; Return (acc ++ res)).
Proof.
  revert acc; induction records as [|r rs IH]; intros acc; simpl.
  - rewrite app_nil_r; reflexivity.
  - destruct (upcoming_of rt today r) as [o|e]; cbn [bind]; [|reflexivity].
    destruct o as [u|]; rewrite IH; [rewrite (IH [u])|];
      destruct (upcoming_loop rt today rs []) as [res|e]; cbn [bind];
      rewrite <- ?app_assoc; reflexivity.
Qed.

Lemma upcoming_loop_cons (rt : c_runtime) (today : date)
    (r : ContactRecord) (rs : list ContactRecord) :
  upcoming_loop rt today (r :: rs) []
  = (o <- upcoming_of rt today r ;;
     res <- upcoming_loop rt today rs [] ;;
     Return (contribution o ++ res)).
Proof.
  simpl; destruct (upcoming_of rt today r) as [o|e]; cbn [bind];
    [|reflexivity].
  rewrite upcoming_loop_acc; destruct o; reflexivity.
Qed.

(** When the loop returns, every record was processed without error and
    the result collects the contributions in order. *)
Lemma upcoming_loop_returns (rt : c_runtime) (today : date)
    (records : list ContactRecord) (res : list upcoming) :
  upcoming_loop rt today records [] = Return res ->
  (forall r, In r records -> exists o, upcoming_of rt today r = Return o)
  /\ (forall u, In u res <->
        exists r, In r records /\ upcoming_of rt today r = Return (Some u)).
Proof.
  revert res; induction records as [|r rs IH]; intros res.
  - simpl; intros [= <-]; split; [intros r []|].
    intros u; split; [intros [] | intros (r & [] & _)].
  - rewrite upcoming_loop_cons.
    destruct (upcoming_of rt today r) as [o|e] eqn:Er; cbn [bind];
      [|discriminate].
    destruct (upcoming_loop rt today rs []) as [res'|e] eqn:El; cbn [bind];
      [|discriminate].
    intros [= <-]; destruct (IH res' eq_refl) as [All Mem]; split.
    + intros r' [<-|Hin]; eauto.
    + intros u; rewrite in_app_iff, Mem; split.
      * intros [Hc|(r' & Hin & Hr')].
        -- exists r; split; [left; reflexivity|].
           destruct o; simpl in Hc; [|tauto].
           destruct Hc as [->|[]]; exact Er.
        -- exists r'; split; [right|]; assumption.
      * intros (r' & [<-|Hin] & Hr').
        -- left; rewrite Er in Hr'; injection Hr' as ->; left; reflexivity.
        -- right; eauto.
Qed.

(** When some record cannot be processed the loop raises, and all it
    can raise is a [ValueError] of the date constructor. *)
Lemma upcoming_loop_raises (rt : c_runtime) (today : date)
    (records : list ContactRecord) (r : ContactRecord) :
  In r records -> returns (upcoming_of rt today r) = false ->
  exists msg, upcoming_loop rt today records [] = Raise (ValueError msg).
Proof.
  induction records as [|r0 rs IH]; [intros []|].
  intros Hin Hr; rewrite upcoming_loop_cons.
  destruct (upcoming_of rt today r0) as [o|e] eqn:E0; cbn [bind].
  - destruct Hin as [->|Hin]; [rewrite E0 in Hr; discriminate|].
    destruct (IH Hin Hr) as [msg ->]; cbn [bind]; eauto.
  - apply upcoming_of_raises_ValueError in E0.
    destruct e; try discriminate; eauto.
Qed.

(** ** The state invariant *)

Lemma dict_set_wf (k : str) (v : ContactRecord) (book : AddressBook) :
  book_wf book -> record_ok k v -> book_wf (dict_set k v book).
Proof.
  intros [Nd All] Hv; split.
  - destruct (dict_get k book) eqn:G.
    + rewrite dict_set_keys; [exact Nd | congruence].
    + rewrite (dict_set_absent _ _ _ G), map_app; simpl.
      apply dict_get_none in G.
      apply NoDup_app; repeat split; auto.
      * repeat constructor; simpl; tauto.
      * intros x Hx [<-|[]]; tauto.
  - clear Nd; induction All as [|[k' v'] book Hk All IH]; simpl.
    + constructor; [exact Hv | constructor].
    + destruct (str_eqb k' k) eqn:E.
      * apply str_eqb_eq in E; subst k'; constructor; [exact Hv | exact All].
      * constructor; [exact Hk | exact IH].
Qed.

Lemma book_wf_find (key : str) (record : ContactRecord) (book : AddressBook) :
  book_wf book -> find key book = Some record -> record_ok key record.
Proof.
  intros [_ All] H; apply dict_get_in in H.
  rewrite Forall_forall in All; exact (All _ H).
Qed.

Lemma book_wf_named (record : ContactRecord) (book : AddressBook) :
  book_wf book -> In record (dict_values book) ->
  find (name_value (name record)) book = Some record.
Proof.
  intros [Nd All] Hin; apply in_map_iff in Hin as [[k v] [E Hin]].
  simpl in E; subst v.
  rewrite Forall_forall in All; destruct (All _ Hin) as [Hk _].
  simpl in Hk; subst k; apply in_dict_get; assumption.
Qed.

Lemma find_in_values (key : str) (record : ContactRecord) (book : AddressBook) :
  find key book = Some record -> In record (dict_values book).
Proof.
  intros H; apply dict_get_in in H.
  apply in_map_iff; exists (key, record); auto.
Qed.

Lemma add_contact_wf (key : str) (phone : option str) (book : AddressBook) :
  book_wf book -> book_wf (fst (add_contact key phone book)).
Proof.
  intros Wf; unfold add_contact.
  assert (Grow : forall record p book1 (message : str),
             book_wf book1 -> record_ok key record ->
             book_wf (fst (match add_phone record p with
                           | Return record' =>
                               (mutated key record' book1, Return message)
                           | Raise e => (book1, @Raise str e)
                           end))).
  { intros record p book1 message W1 Hr; unfold add_phone.
    destruct (Phone_init p); cbn [bind fst]; [|exact W1].
    apply dict_set_wf; [exact W1 | exact Hr]. }
  destruct (find key book) as [record|] eqn:F.
  - pose proof (book_wf_find _ _ _ Wf F) as Hr.
    destruct phone as [p|]; [|exact Wf].
    destruct (str_truthy p); [|exact Wf].
    apply Grow; assumption.
  - unfold Record_init, Name_init.
    destruct (validate_name key); cbn [bind]; [|exact Wf].
    assert (Hr : record_ok key (mkRecord (mkName key) [] None))
      by (split; [reflexivity | discriminate]).
    assert (W1 : book_wf (add_record (mkRecord (mkName key) [] None) book))
      by (apply dict_set_wf; assumption).
    destruct phone as [p|]; [|exact W1].
    destruct (str_truthy p); [|exact W1].
    apply Grow; assumption.
Qed.

Lemma change_contact_wf (key old new : str) (book : AddressBook) :
  book_wf book -> book_wf (fst (change_contact key old new book)).
Proof.
  intros Wf; unfold change_contact.
  destruct (find key book) as [record|] eqn:F; [|exact Wf].
  pose proof (book_wf_find _ _ _ Wf F) as Hr.
  unfold edit_phone; destruct (edit_first (phones record) old new);
    [|exact Wf].
  apply dict_set_wf; [exact Wf | exact Hr].
Qed.

Lemma add_birthday_wf (key text : str) (book : AddressBook)
    (record record' : ContactRecord) :
  book_wf book -> find key book = Some record ->
  add_birthday record text = Return record' ->
  book_wf (mutated key record' book).
Proof.
  intros Wf F H; destruct (book_wf_find _ _ _ Wf F) as [Hk _].
  unfold add_birthday in H.
  destruct (Birthday_init text) as [b|] eqn:B; [|discriminate].
  injection H as <-; apply dict_set_wf; [exact Wf|].
  split; [exact Hk|].
  simpl; intros b' [= <-]; exact (Birthday_init_date_ok _ _ B).
Qed.

Lemma input_error_state {A : Type}
    (func : A -> AddressBook -> AddressBook * result str)
    (args : A) (book : AddressBook) :
  fst (input_error func args book) = fst (func args book).
Proof.
  unfold input_error; destruct (func args book) as [book' [s|e]]; reflexivity.
Qed.

(** Every address book the program reaches satisfies the invariant. *)
Lemma reachable_wf (book : AddressBook) : reachable book -> book_wf book.
Proof.
  induction 1 as [|args book _ IH|args book _ IH|args book _ IH].
  - split; constructor.
  - unfold handle_add_contact; rewrite input_error_state.
    unfold handle_add_contact_body.
    destruct args as [|key [|phone [|? ?]]]; try exact IH.
    apply add_contact_wf; exact IH.
  - unfold handle_change_contact; rewrite input_error_state.
    unfold handle_change_contact_body.
    destruct args as [|key [|old [|new [|? ?]]]]; try exact IH.
    apply change_contact_wf; exact IH.
  - unfold handle_add_birthday; rewrite input_error_state.
    unfold handle_add_birthday_body.
    destruct args as [|key [|text [|? ?]]]; try exact IH.
    destruct (find key book) as [record|] eqn:F; [|exact IH].
    destruct (add_birthday record text) as [record'|] eqn:B; [|exact IH].
    exact (add_birthday_wf _ _ _ _ _ IH F B).
Qed.

Lemma date_ltb_irrefl (d : date) : date_ltb d d = false.
Proof.
  unfold date_ltb; rewrite !Z.ltb_irrefl, !Z.eqb_refl; reflexivity.
Qed.

Lemma next_birthday_today (today b : date) :
  date_ok today = true -> month b = month today -> day b = day today ->
  next_birthday today b = Return today.
Proof.
  intros Ok Hm Hd; unfold next_birthday, replace_year; rewrite Hm, Hd.
  destruct today as [y m d]; cbn [year month day].
  rewrite (date_new_valid _ _ _ Ok); cbn [bind].
  rewrite date_ltb_irrefl; reflexivity.
Qed.

Lemma upcoming_of_named (rt : c_runtime) (today : date)
    (record : ContactRecord) (u : upcoming) :
  upcoming_of rt today record = Return (Some u) ->
  upcoming_name u = name_value (name record).
Proof.
  unfold upcoming_of; destruct (birthday record); [|discriminate].
  destruct (next_birthday today _); cbn [bind]; [|discriminate].
  destruct (_ && _); [|discriminate].
  destruct (congratulation _); cbn [bind]; [|discriminate].
  intros [= <-]; reflexivity.
Qed.

Lemma book_ann_reachable : reachable book_ann.
Proof. apply reach_add_birthday, reach_add, reach_empty. Qed.

Lemma book_ann_bob_reachable : reachable book_ann_bob.
Proof. apply reach_add_birthday, reach_add, book_ann_reachable. Qed.

(** Both date fields of an emitted entry render one and the same date,
    the celebration date. *)
Lemma upcoming_entry (rt : c_runtime) (today : date) (book : AddressBook)
    (res : list upcoming) (u : upcoming) :
  get_upcoming_birthdays rt today book = Return res -> In u res ->
  exists record b this_year_birthday congratulation_date,
    In record (dict_values book)
    /\ birthday record = Some b
    /\ next_birthday today (birthday_value b) = Return this_year_birthday
    /\ date_ok this_year_birthday = true
    /\ congratulation this_year_birthday = Return congratulation_date
    /\ date_ok congratulation_date = true
    /\ toordinal congratulation_date
       = toordinal this_year_birthday + weekend_shift this_year_birthday
    /\ (weekend_shift this_year_birthday = 0 ->
        congratulation_date = this_year_birthday)
    /\ u = mkUpcoming (name_value (name record))
             (strftime rt congratulation_date "%d.%m.%Y")
             (strftime rt congratulation_date "%Y.%m.%d").
Proof.
  intros Hres Hu.
  destruct (upcoming_loop_returns _ _ _ _ Hres) as [_ Mem].
  apply Mem in Hu as (record & Hin & E).
  destruct (birthday record) as [b|] eqn:Hb;
    [|unfold upcoming_of in E; rewrite Hb in E; discriminate].
  destruct (upcoming_of_inv rt today record b Hb)
    as [(msg & _ & E')|(tyb & c & Hn & Ok & Hc & Okc & Oc & Same & E')];
    rewrite E' in E; [discriminate|].
  destruct (_ && _) in E; [|discriminate].
  injection E as <-.
  exists record, b, tyb, c; auto 10.
Qed.

(** C3: for every contact in the result, the celebration date is the
    next birthday plus two days when that is a Saturday, plus one day
    when it is a Sunday, and the next birthday itself on any other
    weekday; the additions never leave the range of dates. *)
Theorem C3_celebration_date (rt : c_runtime) (today : date)
    (book : AddressBook) (res : list upcoming) (u : upcoming) :
  get_upcoming_birthdays rt today book = Return res -> In u res ->
  exists record b this_year_birthday congratulation_date,
    In record (dict_values book)
    /\ upcoming_name u = name_value (name record)
    /\ birthday record = Some b
    /\ next_birthday today (birthday_value b) = Return this_year_birthday
    /\ upcoming_congratulation_date u
       = strftime rt congratulation_date "%Y.%m.%d"
    /\ date_ok congratulation_date = true
    /\ (weekday this_year_birthday = 5 ->
        date_add this_year_birthday 2 = Return congratulation_date
        /\ toordinal congratulation_date = toordinal this_year_birthday + 2)
    /\ (weekday this_year_birthday = 6 ->
        date_add this_year_birthday 1 = Return congratulation_date
        /\ toordinal congratulation_date = toordinal this_year_birthday + 1)
    /\ (weekday this_year_birthday <> 5 -> weekday this_year_birthday <> 6 ->
        congratulation_date = this_year_birthday).
Proof.
  intros Hres Hu.
  destruct (upcoming_entry _ _ _ _ _ Hres Hu)
    as (record & b & tyb & c & Hin & Hb & Hn & Ok & Hc & Okc & Oc & Same & ->).
  exists record, b, tyb, c; cbn [upcoming_name upcoming_congratulation_date].
  unfold congratulation, weekend_shift in *.
  split; [exact Hin|]. split; [reflexivity|]. split; [exact Hb|].
  split; [exact Hn|]. split; [reflexivity|]. split; [exact Okc|].
  split; [|split].
  - intros W; rewrite W in Hc, Oc.
    change (5 =? 5) with true in *; cbv iota in Hc, Oc; auto.
  - intros W; rewrite W in Hc, Oc.
    change (6 =? 5) with false in *; change (6 =? 6) with true in *.
    cbv iota in Hc, Oc; auto.
  - intros W5 W6; apply Same.
    apply Z.eqb_neq in W5, W6; rewrite W5, W6; reflexivity.
Qed.

Lemma C3_celebration_date_witness :
  exists record b this_year_birthday congratulation_date,
    In record (dict_values book_ann)
    /\ lit "Ann" = name_value (name record)
    /\ birthday record = Some b
    /\ next_birthday (mkdate 2024 5 1) (birthday_value b)
       = Return this_year_birthday
    /\ lit "2024.05.06" = strftime UnpaddedYear congratulation_date "%Y.%m.%d"
    /\ date_ok congratulation_date = true
    /\ (weekday this_year_birthday = 5 ->
        date_add this_year_birthday 2 = Return congratulation_date
        /\ toordinal congratulation_date = toordinal this_year_birthday + 2)
    /\ (weekday this_year_birthday = 6 ->
        date_add this_year_birthday 1 = Return congratulation_date
        /\ toordinal congratulation_date = toordinal this_year_birthday + 1)
    /\ (weekday this_year_birthday <> 5 -> weekday this_year_birthday <> 6 ->
        congratulation_date = this_year_birthday).
Proof.
  apply (C3_celebration_date UnpaddedYear (mkdate 2024 5 1) book_ann
           [mkUpcoming (lit "Ann") (lit "06.05.2024") (lit "2024.05.06")]
           (mkUpcoming (lit "Ann") (lit "06.05.2024") (lit "2024.05.06"))).
  - vm_compute; reflexivity.
  - left; reflexivity.
Defined.

(** A birthday on 29 February cannot be mapped onto a year that is not
    a leap year. *)
Lemma feb29_not_processed (rt : c_runtime) (today : date)
    (record : ContactRecord) (b : Birthday) :
  birthday record = Some b ->
  month (birthday_value b) = 2 -> day (birthday_value b) = 29 ->
  is_leap (year today) = false ->
  returns (upcoming_of rt today record) = false.
Proof.
  intros Hb Hm Hd Hl; unfold upcoming_of; rewrite Hb.
  unfold next_birthday, replace_year, date_new, days_in_month.
  rewrite Hm, Hd, Hl.
  destruct ((year today <? MINYEAR) || (MAXYEAR <? year today));
    reflexivity.
Qed.

(** C4: whenever the address book holds a record whose birthday is
    29 February and the current year is not a leap year,
    [get_upcoming_birthdays] raises the [ValueError] of the date
    constructor instead of returning; such a state is reachable: add
    Bob, give him the birthday 29.02.2000 and ask on 1 June 2023. *)
Theorem C4_feb29_fault :
  (forall rt today book record b,
     In record (dict_values book) ->
     birthday record = Some b ->
     month (birthday_value b) = 2 -> day (birthday_value b) = 29 ->
     is_leap (year today) = false ->
     exists msg, get_upcoming_birthdays rt today book = Raise (ValueError msg))
  /\ (exists book today record,
        reachable book
        /\ date_ok today = true /\ is_leap (year today) = false
        /\ find (lit "Bob") book = Some record
        /\ birthday record = Some (mkBirthday (mkdate 2000 2 29))
        /\ forall rt,
            get_upcoming_birthdays rt today book
            = Raise (ValueError (lit "day is out of range for month"))
            /\ snd (handle_birthdays rt today [] book)
               = lit "day is out of range for month").
Proof.
  split.
  - intros rt today book record b Hin Hb Hm Hd Hl.
    apply (upcoming_loop_raises rt today _ record Hin).
    exact (feb29_not_processed rt today record b Hb Hm Hd Hl).
  - exists book_ann_bob, (mkdate 2023 6 1).
    eexists; split; [exact book_ann_bob_reachable|].
    split; [reflexivity|]. split; [reflexivity|].
    split; [vm_compute; reflexivity|]. split; [reflexivity|].
    intros rt; destruct rt; split; vm_compute; reflexivity.
Qed.

(** C1, evaluated where it fails: Ann's next birthday, 4 May 2024, is
    a Saturday; the entry emitted for her on 1 May 2024 carries the
    Monday after it in both date fields, so the field [birthday] holds
    06.05.2024 and not the birthday 04.05.2024. *)
Theorem C1_birthday_field_is_shifted (rt : c_runtime) :
  next_birthday (mkdate 2024 5 1) (mkdate 1990 5 4)
  = Return (mkdate 2024 5 4)
  /\ weekday (mkdate 2024 5 4) = 5
  /\ strftime rt (mkdate 2024 5 4) "%d.%m.%Y" = lit "04.05.2024"
  /\ get_upcoming_birthdays rt (mkdate 2024 5 1) book_ann
     = Return [mkUpcoming (lit "Ann") (lit "06.05.2024") (lit "2024.05.06")]
  /\ snd (handle_birthdays rt (mkdate 2024 5 1) [] book_ann)
     = lit "Ann: birthday on 06.05.2024, celebrate on 2024.05.06".
Proof. destruct rt; repeat split; vm_compute; reflexivity. Qed.

(** ** The order of dates and their ordinals *)

Lemma days_before_year_succ (y : Z) :
  1 <= y ->
  days_before_year (y + 1)
  = days_before_year y + 365 + (if is_leap y then 1 else 0).
Proof.
  intros Hy; unfold days_before_year, is_leap; cbv zeta.
  replace (y + 1 - 1) with y by lia.
  destruct (y mod 4 =? 0) eqn:E4; destruct (y mod 100 =? 0) eqn:E100;
    destruct (y mod 400 =? 0) eqn:E400; cbn [andb orb negb];
    rewrite ?Z.eqb_eq, ?Z.eqb_neq in *;
    Z.div_mod_to_equations; lia.
Qed.

Lemma days_before_year_mono (y1 y2 : Z) :
  1 <= y1 <= y2 -> days_before_year y1 <= days_before_year y2.
Proof.
  intros H; unfold days_before_year; cbv zeta.
  Z.div_mod_to_equations; lia.
Qed.

Lemma toordinal_lt (d1 d2 : date) :
  date_ok d1 = true -> date_ok d2 = true ->
  date_ltb d1 d2 = true -> toordinal d1 < toordinal d2.
Proof.
  rewrite !date_ok_iff; destruct d1 as [y1 m1 a1], d2 as [y2 m2 a2].
  unfold date_ltb, toordinal, ymd2ord; cbn [year month day].
  intros (Y1 & M1 & D1) (Y2 & M2 & D2) Lt.
  pose proof (day_of_year_bounds _ _ _ M1 D1) as B1.
  pose proof (day_of_year_bounds _ _ _ M2 D2) as B2.
  repeat rewrite ?orb_true_iff, ?andb_true_iff, ?Z.ltb_lt, ?Z.eqb_eq in Lt.
  destruct Lt as [Ly|[-> [Lm|[-> Ld]]]].
  - pose proof (days_before_year_succ y1 ltac:(lia)) as S.
    pose proof (days_before_year_mono (y1 + 1) y2 ltac:(lia)) as Mo.
    lia.
  - unfold days_before_month, days_in_month in *.
    clear B1 B2; each_month M1; each_month M2; try lia;
      destruct (is_leap y2); cbv -[Z.add Z.le Z.lt] in *; lia.
  - lia.
Qed.

Lemma date_ltb_trichotomy (d1 d2 : date) :
  date_ltb d1 d2 = true \/ d1 = d2 \/ date_ltb d2 d1 = true.
Proof.
  destruct d1 as [y1 m1 a1], d2 as [y2 m2 a2]; unfold date_ltb;
    cbn [year month day].
  repeat rewrite ?orb_true_iff, ?andb_true_iff, ?Z.ltb_lt, ?Z.eqb_eq.
  destruct (Z.lt_trichotomy y1 y2) as [?|[->|?]]; auto.
  destruct (Z.lt_trichotomy m1 m2) as [?|[->|?]]; auto 6.
  destruct (Z.lt_trichotomy a1 a2) as [?|[->|?]]; auto 8.
Qed.

(** Dates compare as their ordinals do, and distinct dates have
    distinct ordinals. *)
Lemma date_ltb_ordinal (d1 d2 : date) :
  date_ok d1 = true -> date_ok d2 = true ->
  date_ltb d1 d2 = true <-> toordinal d1 < toordinal d2.
Proof.
  intros Ok1 Ok2; split; [apply toordinal_lt; assumption|].
  intros Lt; destruct (date_ltb_trichotomy d1 d2) as [H|[->|H]];
    [exact H | lia |].
  apply toordinal_lt in H; auto; lia.
Qed.

Lemma toordinal_inj (d1 d2 : date) :
  date_ok d1 = true -> date_ok d2 = true ->
  toordinal d1 = toordinal d2 -> d1 = d2.
Proof.
  intros Ok1 Ok2 E; destruct (date_ltb_trichotomy d1 d2) as [H|[H|H]];
    [|exact H|]; apply toordinal_lt in H; auto; lia.
Qed.

Lemma fromordinal_toordinal (d : date) :
  date_ok d = true -> fromordinal (toordinal d) = Return d.
Proof.
  intros Ok.
  destruct (fromordinal_correct _ (toordinal_bounds d Ok)) as (x & E & Okx & O).
  rewrite E; f_equal; apply toordinal_inj; assumption.
Qed.

(** The next birthday is never before today: the lower bound of the
    window test always holds. *)
Lemma next_birthday_not_past (today b tyb : date) :
  date_ok today = true ->
  next_birthday today b = Return tyb -> 0 <= days_between tyb today.
Proof.
  intros Ok; unfold next_birthday, days_between.
  destruct (replace_year_inv b (year today) _ eq_refl)
    as [(x & -> & Ex & Okx)|[msg ->]]; [|discriminate].
  cbn [bind]; destruct (date_ltb x today) eqn:Lt.
  - intros H; apply replace_year_inv in H
      as [(x' & [= <-] & Ex' & Okx')|[msg H]]; [|discriminate].
    assert (L : date_ltb today tyb = true).
    { subst tyb; unfold date_ltb; cbn [year].
      replace (year today <? year today + 1) with true
        by (symmetry; apply Z.ltb_lt; lia).
      reflexivity. }
    apply toordinal_lt in L; auto; lia.
  - intros [= <-].
    destruct (date_ltb_trichotomy x today) as [H|[->|H]];
      [congruence | lia |].
    apply toordinal_lt in H; auto; lia.
Qed.

(** ** The window of upcoming birthdays *)

(** The date the loop calls [this_year_birthday] lies [days_until]
    days after today. *)
Lemma next_birthday_days_until (today b tyb : date) :
  date_ok today = true ->
  next_birthday today b = Return tyb ->
  toordinal tyb - toordinal today = days_until today b.
Proof.
  intros Ok; unfold next_birthday, days_until, birthday_in.
  destruct (replace_year_inv b (year today) _ eq_refl)
    as [(x & -> & Ex & Okx)|[msg ->]]; [|discriminate].
  cbn [bind]; destruct (date_ltb x today) eqn:Lt.
  - intros H; apply replace_year_inv in H
      as [(x' & [= <-] & Ex' & Okx')|[msg H]]; [|discriminate].
    apply (date_ltb_ordinal x today Okx Ok) in Lt.
    subst tyb x; cbn [month day] in *.
    rewrite (proj2 (Z.ltb_lt _ _) Lt); reflexivity.
  - intros [= <-].
    assert (Ge : toordinal today <= toordinal x).
    { apply Z.nlt_ge; intros L.
      apply (date_ltb_ordinal x today Okx Ok) in L; congruence. }
    subst x; rewrite (proj2 (Z.ltb_ge _ _) Ge); reflexivity.
Qed.

Lemma book_may_reachable : reachable book_may.
Proof.
  unfold book_may, with_contact.
  repeat (apply reach_add_birthday, reach_add); apply reach_empty.
Qed.

(** C2, as stated, fails: that the record's own birthday can be
    constructed in the current year does not make the record appear in
    a result.  With Ann (4 May) and Bob (29 February) in the address
    book, on 1 May 2023 Ann's birthday is constructible and 3 days
    ahead, yet the call raises on Bob's record and returns no list. *)
Lemma C2_no_result_when_another_record_faults :
  find (lit "Ann") book_ann_bob
  = Some (mkRecord (mkName (lit "Ann")) [mkPhone (lit "0501234567")]
            (Some (mkBirthday (mkdate 1990 5 4))))
  /\ replace_year (mkdate 1990 5 4) 2023 = Return (mkdate 2023 5 4)
  /\ days_until (mkdate 2023 5 1) (mkdate 1990 5 4) = 3
  /\ get_upcoming_birthdays UnpaddedYear (mkdate 2023 5 1) book_ann_bob
     = Raise (ValueError (lit "day is out of range for month"))
  /\ ~ (exists res,
          get_upcoming_birthdays UnpaddedYear (mkdate 2023 5 1) book_ann_bob
          = Return res
          /\ included (lit "Ann") res).
Proof.
  assert (E : get_upcoming_birthdays UnpaddedYear (mkdate 2023 5 1)
                book_ann_bob
              = Raise (ValueError (lit "day is out of range for month")))
    by (vm_compute; reflexivity).
  repeat split; try (vm_compute; reflexivity).
  intros (res & H & _); rewrite E in H; discriminate.
Qed.

(** C2, amended: when [get_upcoming_birthdays] returns a list, which
    takes every record's dates to be constructible, a record with a
    birthday is in the list exactly when [days_until] is from 0 to 7,
    where [days_until] counts the days from today to the birthday in
    the current year, or in the next year when in the current year it
    is strictly before today; this is the distance to the date the
    loop computes as [this_year_birthday].  So a birthday that falls
    today is in the list and one 8 days ahead is not. *)
Theorem C2_upcoming_window (rt : c_runtime) (today : date)
    (book : AddressBook) (res : list upcoming)
    (key : str) (record : ContactRecord) (b : Birthday) :
  book_wf book -> date_ok today = true ->
  get_upcoming_birthdays rt today book = Return res ->
  find key book = Some record ->
  birthday record = Some b ->
  (exists this_year_birthday,
     next_birthday today (birthday_value b) = Return this_year_birthday
     /\ toordinal this_year_birthday - toordinal today
        = days_until today (birthday_value b))
  /\ (included key res <-> 0 <= days_until today (birthday_value b) <= 7)
  /\ (month (birthday_value b) = month today ->
      day (birthday_value b) = day today -> included key res)
  /\ (days_until today (birthday_value b) = 8 -> ~ included key res).
Proof.
  intros Wf Ok Hres Hfind Hb.
  destruct (upcoming_loop_returns _ _ _ _ Hres) as [All Mem].
  pose proof (find_in_values _ _ _ Hfind) as Hin.
  destruct (book_wf_find _ _ _ Wf Hfind) as [Hkey _].
  destruct (upcoming_of_inv rt today record b Hb)
    as [(msg & _ & E)|(tyb & c & Hn & _ & _ & _ & _ & _ & E)].
  { destruct (All _ Hin) as [o Ho]; congruence. }
  pose proof (next_birthday_days_until _ _ _ Ok Hn) as D.
  unfold days_between in E; rewrite D in E.
  assert (Iff : included key res
                <-> 0 <= days_until today (birthday_value b) <= 7).
  { split.
    - intros (u & Hu & Hname).
      apply Mem in Hu as (r' & Hin' & E').
      pose proof (upcoming_of_named _ _ _ _ E') as Hn'.
      pose proof (book_wf_named _ _ Wf Hin') as F'.
      rewrite <- Hn', Hname, Hfind in F'; injection F' as <-.
      rewrite E in E'.
      destruct ((0 <=? days_until today (birthday_value b))
                && (days_until today (birthday_value b) <=? 7)) eqn:W;
        [|discriminate].
      apply andb_true_iff in W; rewrite !Z.leb_le in W; exact W.
    - intros W.
      replace ((0 <=? days_until today (birthday_value b))
               && (days_until today (birthday_value b) <=? 7))
        with true in E
        by (symmetry; apply andb_true_iff; rewrite !Z.leb_le; exact W).
      eexists; split; [apply Mem; exists record; split; eassumption|].
      simpl; congruence. }
  split; [exists tyb; split; assumption|].
  split; [exact Iff|]. split.
  - intros Hm Hd; apply Iff.
    rewrite (next_birthday_today _ _ Ok Hm Hd) in Hn; injection Hn as <-.
    lia.
  - intros H8 Hex; apply Iff in Hex; lia.
Qed.

Lemma C2_upcoming_window_witness :
  let may := [mkUpcoming (lit "Ann") (lit "01.05.2024") (lit "2024.05.01");
              mkUpcoming (lit "Bob") (lit "08.05.2024") (lit "2024.05.08")] in
  let december := [mkUpcoming (lit "Eve") (lit "02.01.2025")
                     (lit "2025.01.02")] in
  get_upcoming_birthdays UnpaddedYear (mkdate 2024 5 1) book_may = Return may
  /\ get_upcoming_birthdays UnpaddedYear (mkdate 2024 12 30) book_may
     = Return december
  /\ (days_until (mkdate 2024 5 1) (mkdate 1990 5 1) = 0
      /\ included (lit "Ann") may)
  /\ (days_until (mkdate 2024 5 1) (mkdate 1992 5 9) = 8
      /\ ~ included (lit "Cid") may)
  /\ (next_birthday (mkdate 2024 12 30) (mkdate 1994 1 2)
      = Return (mkdate 2025 1 2)
      /\ days_until (mkdate 2024 12 30) (mkdate 1994 1 2) = 3
      /\ included (lit "Eve") december).
Proof.
  intros may december.
  pose proof (reachable_wf _ book_may_reachable) as Wf.
  assert (May : get_upcoming_birthdays UnpaddedYear (mkdate 2024 5 1) book_may
                = Return may) by (vm_compute; reflexivity).
  assert (December : get_upcoming_birthdays UnpaddedYear (mkdate 2024 12 30)
                       book_may
                     = Return december) by (vm_compute; reflexivity).
  split; [exact May|]. split; [exact December|].
  split; [|split].
  - split; [reflexivity|].
    apply (C2_upcoming_window UnpaddedYear (mkdate 2024 5 1) book_may may
             (lit "Ann")
             (mkRecord (mkName (lit "Ann")) [mkPhone (lit "0501234567")]
                (Some (mkBirthday (mkdate 1990 5 1))))
             (mkBirthday (mkdate 1990 5 1)) Wf eq_refl May);
      reflexivity.
  - split; [reflexivity|].
    apply (C2_upcoming_window UnpaddedYear (mkdate 2024 5 1) book_may may
             (lit "Cid")
             (mkRecord (mkName (lit "Cid")) [mkPhone (lit "0501234569")]
                (Some (mkBirthday (mkdate 1992 5 9))))
             (mkBirthday (mkdate 1992 5 9)) Wf eq_refl May);
      reflexivity.
  - split; [reflexivity|]. split; [reflexivity|].
    assert (F : find (lit "Eve") book_may
                = Some (mkRecord (mkName (lit "Eve"))
                          [mkPhone (lit "0501234571")]
                          (Some (mkBirthday (mkdate 1994 1 2)))))
      by reflexivity.
    destruct (C2_upcoming_window UnpaddedYear (mkdate 2024 12 30) book_may
                december (lit "Eve") _ (mkBirthday (mkdate 1994 1 2))
                Wf eq_refl December F eq_refl) as (_ & Iff & _).
    apply Iff; vm_compute; split; discriminate.
Defined.

(** ** What the handlers raise *)

Lemma strptime_raises_ValueError (value : str) (format : string) (e : exn) :
  strptime value format = Raise e -> is_ValueError e = true.
Proof.
  unfold strptime.
  assert (P : forall fmt e', TimeRE_pattern fmt = Raise e' ->
                        is_ValueError e' = true).
  { fix IH 1; intros [|c fmt] e'; [discriminate|]; simpl.
    assert (Lit : (r <- TimeRE_pattern fmt ;; Return (RSeq (RLit c) r))
                  = Raise e' -> is_ValueError e' = true).
    { destruct (TimeRE_pattern fmt) eqn:E; [discriminate|].
      intros [= <-]; exact (IH fmt _ E). }
    destruct c as [|p]; [exact Lit|].
    do 6 (destruct p as [p|p|]; try exact Lit).
    destruct fmt as [|c' fmt']; [intros [= <-]; reflexivity|].
    destruct c' as [|p]; [intros [= <-]; reflexivity|].
    do 7 (destruct p as [p|p|]; try (intros [= <-]; reflexivity));
      (destruct (TimeRE_pattern fmt') eqn:E; [discriminate|];
       intros [= <-]; apply (IH fmt' _ E)). }
  destruct (TimeRE_pattern (lit format)) as [pat|e0] eqn:Ep; cbn [bind];
    [|intros [= <-]; exact (P _ _ Ep)].
  destruct (rx_run pat value) as [|[[m found] rest] tl];
    [intros [= <-]; reflexivity|].
  destruct rest; [|intros [= <-]; reflexivity].
  assert (G : forall nm dflt e', group_int nm dflt found = Raise e' ->
                            is_ValueError e' = true).
  { intros nm dflt e'; unfold group_int, py_int.
    destruct (group_get nm found) as [t|]; [|discriminate].
    destruct (strip t); [intros [= <-]; reflexivity|].
    destruct (digits_value 0 _); [discriminate | intros [= <-]; reflexivity]. }
  destruct (group_int "Y" 1900 found) as [y|e1] eqn:Ey; cbn [bind];
    [|intros [= <-]; exact (G _ _ _ Ey)].
  destruct (group_int "m" 1 found) as [mo|e1] eqn:Em; cbn [bind];
    [|intros [= <-]; exact (G _ _ _ Em)].
  destruct (group_int "d" 1 found) as [dd|e1] eqn:Ed; cbn [bind];
    [|intros [= <-]; exact (G _ _ _ Ed)].
  intros H; apply date_new_inv in H as [[H _]|[msg [[= ->] _]]];
    [discriminate | reflexivity].
Qed.

Lemma Birthday_init_raises (value : str) (e : exn) :
  Birthday_init value = Raise e ->
  e = ValidationException (lit "Invalid date format. Use DD.MM.YYYY").
Proof.
  unfold Birthday_init.
  destruct (strptime value "%d.%m.%Y") as [d|e0] eqn:E; [discriminate|].
  apply strptime_raises_ValueError in E.
  destruct e0; try discriminate; intros [= <-]; reflexivity.
Qed.

Lemma get_upcoming_birthdays_raises (rt : c_runtime) (today : date)
    (book : AddressBook) (e : exn) :
  get_upcoming_birthdays rt today book = Raise e -> is_ValueError e = true.
Proof.
  unfold get_upcoming_birthdays; generalize (dict_values book) as records.
  induction records as [|r rs IH]; [discriminate|].
  rewrite upcoming_loop_cons.
  destruct (upcoming_of rt today r) as [o|e0] eqn:E0; cbn [bind].
  - destruct (upcoming_loop rt today rs []); cbn [bind]; [discriminate|].
    intros [= <-]; apply IH; reflexivity.
  - intros [= <-]; exact (upcoming_of_raises_ValueError _ _ _ _ E0).
Qed.

Lemma add_contact_raises (key : str) (phone : option str)
    (book book' : AddressBook) (e : exn) :
  add_contact key phone book = (book', Raise e) ->
  exists msg, e = ValidationException msg.
Proof.
  unfold add_contact.
  assert (P : forall record p book1 (message : str),
             match add_phone record p with
             | Return record' => (mutated key record' book1, Return message)
             | Raise e0 => (book1, Raise e0)
             end = (book', Raise e) -> exists msg, e = ValidationException msg).
  { intros record p book1 message; unfold add_phone, Phone_init, validate_phone.
    destruct (_ || _); cbn [bind]; [|discriminate].
    intros [= _ <-]; eauto. }
  destruct (find key book) as [record|].
  - destruct phone as [p|]; [|discriminate].
    destruct (str_truthy p); [apply P | discriminate].
  - unfold Record_init, Name_init, validate_name.
    destruct (negb (str_isalpha key)); cbn [bind]; [intros [= _ <-]; eauto|].
    destruct phone as [p|]; [|discriminate].
    destruct (str_truthy p); [apply P | discriminate].
Qed.

(** Every exception raised inside a handler is a usage error, a
    validation error, a date fault or the [KeyError] of a missing
    contact: these are what [input_error] turns into text. *)
Lemma handlers_raise (rt : c_runtime) (today : date) (args : list str)
    (book book' : AddressBook) (e : exn) :
  (handle_add_contact_body args book = (book', Raise e) -> handler_exn e)
  /\ (handle_change_contact_body args book = (book', Raise e) -> handler_exn e)
  /\ (handle_show_phone_body args book = (book', Raise e) -> handler_exn e)
  /\ (handle_add_birthday_body args book = (book', Raise e) -> handler_exn e)
  /\ (handle_show_birthday_body rt args book = (book', Raise e) ->
      handler_exn e)
  /\ (handle_birthdays_body rt today args book = (book', Raise e) ->
      handler_exn e)
  /\ (handle_show_all_body rt tt book = (book', Raise e) -> handler_exn e).
Proof.
  repeat split.
  - unfold handle_add_contact_body.
    destruct args as [|key [|phone [|? ?]]]; try (intros [= _ <-]; exact I).
    intros H; apply add_contact_raises in H as [msg ->]; exact I.
  - unfold handle_change_contact_body, change_contact, edit_phone.
    destruct args as [|key [|old [|new [|? ?]]]];
      try (intros [= _ <-]; exact I).
    destruct (find key book); [|intros [= _ <-]; reflexivity].
    destruct (edit_first _ _ _); [discriminate | intros [= _ <-]; exact I].
  - unfold handle_show_phone_body, show_phone.
    destruct args as [|key [|? ?]]; try (intros [= _ <-]; exact I).
    destruct (find key book); [discriminate | intros [= _ <-]; reflexivity].
  - unfold handle_add_birthday_body, add_birthday.
    destruct args as [|key [|text [|? ?]]]; try (intros [= _ <-]; exact I).
    destruct (find key book); [|intros [= _ <-]; reflexivity].
    destruct (Birthday_init text) eqn:B; cbn [bind]; [discriminate|].
    intros [= _ <-]; rewrite (Birthday_init_raises _ _ B); exact I.
  - unfold handle_show_birthday_body.
    destruct args as [|key [|? ?]]; try (intros [= _ <-]; exact I).
    destruct (find key book); [discriminate | intros [= _ <-]; reflexivity].
  - unfold handle_birthdays_body.
    destruct (get_upcoming_birthdays rt today book) as [[|u found]|e0] eqn:G;
      try discriminate.
    intros [= _ <-]; apply get_upcoming_birthdays_raises in G.
    destruct e0; try discriminate; exact I.
  - discriminate.
Qed.

(** ** When the birthday query returns *)

Lemma replace_year_returns (d : date) (y : Z) :
  date_ok d = true -> not_feb29 d -> 1 <= y <= 9999 ->
  replace_year d y = Return (mkdate y (month d) (day d)).
Proof.
  intros Ok Nf Hy; apply date_new_valid.
  apply date_ok_iff in Ok as (Y & M & D); apply date_ok_iff.
  cbn [year month day]; repeat split; try lia.
  unfold not_feb29, days_in_month in *.
  destruct ((month d =? 2) && is_leap (year d)) eqn:L1;
    destruct ((month d =? 2) && is_leap y) eqn:L2; try lia.
  - apply andb_true_iff in L1 as [L1 _]; apply Z.eqb_eq in L1.
    rewrite L1 in *; cbv [DAYS_IN_MONTH]; lia.
  - apply andb_true_iff in L2 as [L2 _]; apply Z.eqb_eq in L2.
    rewrite L2 in *; cbv [DAYS_IN_MONTH] in D; lia.
Qed.

(** With no birthday on 29 February in the book and a current year
    before 9999, [get_upcoming_birthdays] returns a result. *)
Lemma get_upcoming_birthdays_returns (rt : c_runtime) (today : date)
    (book : AddressBook) :
  book_wf book -> date_ok today = true -> year today < 9999 ->
  (forall record b,
     In record (dict_values book) -> birthday record = Some b ->
     not_feb29 (birthday_value b)) ->
  exists res, get_upcoming_birthdays rt today book = Return res.
Proof.
  intros [_ All] Ok Hy Nf; unfold get_upcoming_birthdays.
  assert (Each : forall record, In record (dict_values book) ->
                   exists o, upcoming_of rt today record = Return o).
  { intros record Hin.
    destruct (birthday record) as [b|] eqn:Hb;
      [|unfold upcoming_of; rewrite Hb; eauto].
    destruct (upcoming_of_inv rt today record b Hb)
      as [(msg & Hn & _)|(tyb & c & _ & _ & _ & _ & _ & _ & ->)]; [|eauto].
    exfalso.
    assert (Okb : date_ok (birthday_value b) = true).
    { apply in_map_iff in Hin as [[k v] [E Hin]]; simpl in E; subst v.
      rewrite Forall_forall in All; destruct (All _ Hin) as [_ Hv].
      exact (Hv b Hb). }
    pose proof (Nf record b Hin Hb) as Nb.
    apply date_ok_iff in Ok as (Y & _ & _).
    unfold next_birthday in Hn.
    rewrite (replace_year_returns _ _ Okb Nb) in Hn by lia; cbn [bind] in Hn.
    destruct (date_ltb _ today); [|discriminate].
    unfold replace_year in Hn; cbn [month day] in Hn.
    change (date_new (year today + 1) (month (birthday_value b))
              (day (birthday_value b)))
      with (replace_year (birthday_value b) (year today + 1)) in Hn.
    rewrite (replace_year_returns _ _ Okb Nb) in Hn by lia; discriminate. }
  clear All Nf; induction (dict_values book) as [|r rs IH].
  - eexists; reflexivity.
  - rewrite upcoming_loop_cons.
    destruct (Each r (or_introl eq_refl)) as [o ->]; cbn [bind].
    destruct IH as [res ->]; [intros; apply Each; right; assumption|].
    cbn [bind]; eauto.
Qed.

(** * Further properties of the code *)

(** ** [Name] *)

Lemma isalpha_ascii (c : N) :
  (c < 128)%N -> Unicode.isalpha c = ascii_letter c.
Proof.
  intros Hc; apply eqb_prop.
  revert c Hc; apply (below_enumerated _ 128); vm_compute; reflexivity.
Qed.

(** X1: a [Name] is constructed exactly from the non-empty strings all
    of whose characters are alphabetic, and then holds the string
    unchanged; every other string raises "Name must contain only
    letters".  Among ASCII strings the accepted ones are the non-empty
    strings of letters A-Z and a-z: a digit, a space or a punctuation
    mark makes the name invalid. *)
Theorem X1_name_construction (value : str) :
  ((exists n, Name_init value = Return n)
   <-> value <> [] /\ Forall (fun c => Unicode.isalpha c = true) value)
  /\ (forall n, Name_init value = Return n -> name_value n = value)
  /\ ((forall n, Name_init value <> Return n) ->
      Name_init value
      = Raise (ValidationException (lit "Name must contain only letters")))
  /\ (Forall (fun c => (c < 128)%N) value ->
      ((exists n, Name_init value = Return n)
       <-> value <> [] /\ Forall (fun c => ascii_letter c = true) value)).
Proof.
  assert (A : str_isalpha value = true
              <-> value <> [] /\ Forall (fun c => Unicode.isalpha c = true) value).
  { unfold str_isalpha; destruct value as [|c s].
    - split; [discriminate | intros [H _]; congruence].
    - rewrite forallb_forall, Forall_forall; split.
      + intros H; split; [discriminate | exact H].
      + intros [_ H]; exact H. }
  assert (R : (exists n, Name_init value = Return n) <-> str_isalpha value = true).
  { unfold Name_init, validate_name; destruct (str_isalpha value); simpl.
    - split; eauto.
    - split; [intros [n H]; discriminate | discriminate]. }
  split; [rewrite R; exact A|]. split; [|split].
  - unfold Name_init, validate_name; destruct (str_isalpha value); simpl;
      intros n [= <-]; reflexivity.
  - unfold Name_init, validate_name; destruct (str_isalpha value); simpl;
      [intros H; exfalso; eapply H; reflexivity | reflexivity].
  - intros Ha; rewrite R, A.
    assert (E : Forall (fun c => Unicode.isalpha c = true) value
                <-> Forall (fun c => ascii_letter c = true) value).
    { clear A R; induction Ha as [|c s Hc _ IH].
      - split; constructor.
      - split; intros H; inversion H; subst; constructor;
          try (apply IH; assumption);
          [rewrite <- isalpha_ascii | rewrite isalpha_ascii]; assumption. }
    rewrite E; reflexivity.
Qed.

(** ** Phones of a record *)

Lemma find_phone_in_spec (ps : list Phone) (q : str) :
  match find_phone_in ps q with
  | Some ph =>
      exists pre post,
        ps = pre ++ ph :: post /\ phone_value ph = q
        /\ ~ In q (map phone_value pre)
  | None => ~ In q (map phone_value ps)
  end.
Proof.
  induction ps as [|p ps IH]; simpl; [tauto|].
  destruct (str_eqb (phone_value p) q) eqn:E.
  - apply str_eqb_eq in E; exists [], ps; simpl; auto.
  - apply str_eqb_neq in E.
    destruct (find_phone_in ps q) as [ph|].
    + destruct IH as (pre & post & -> & Hv & Hn).
      exists (p :: pre), post; simpl; intuition congruence.
    + tauto.
Qed.

(** X2: [find_phone] never raises: it returns the first phone whose
    value is the one asked for, and nothing exactly when no phone of the
    record has that value. *)
Theorem X2_find_phone (self : ContactRecord) (q : str) :
  (forall ph,
     find_phone self q = Some ph ->
     exists pre post,
       phones self = pre ++ ph :: post /\ phone_value ph = q
       /\ ~ In q (map phone_value pre))
  /\ (find_phone self q = None <-> ~ In q (phone_values self)).
Proof.
  unfold find_phone, phone_values.
  pose proof (find_phone_in_spec (phones self) q) as H.
  destruct (find_phone_in (phones self) q) as [ph|]; split.
  - intros ? [= <-]; exact H.
  - split; [discriminate|].
    destruct H as (pre & post & -> & Hv & _); intros Hn; exfalso; apply Hn.
    rewrite map_app, in_app_iff; right; left; exact Hv.
  - discriminate.
  - tauto.
Qed.

Lemma find_phone_in_app (ps : list Phone) (p q : str) :
  find_phone_in (ps ++ [mkPhone p]) q
  = match find_phone_in ps q with
    | Some ph => Some ph
    | None => if str_eqb p q then Some (mkPhone p) else None
    end.
Proof.
  induction ps as [|x ps IH]; simpl; [reflexivity|].
  destruct (str_eqb (phone_value x) q); [reflexivity | exact IH].
Qed.

Lemma add_phone_inv (self r' : ContactRecord) (p : str) :
  add_phone self p = Return r' -> r' = with_phones self [mkPhone p].
Proof.
  unfold add_phone, Phone_init.
  destruct (validate_phone p); cbn [bind]; [|discriminate].
  intros [= <-]; reflexivity.
Qed.

(** X3: a successful [add_phone] appends the phone at the end of the
    list and changes nothing else; the phone is found afterwards, and
    so is everything that was found before.  Duplicates are not
    prevented: the list grows even when the value was already there. *)
Theorem X3_add_phone_then_find (self r' : ContactRecord) (p : str) :
  add_phone self p = Return r' ->
  phones r' = phones self ++ [mkPhone p]
  /\ name r' = name self /\ birthday r' = birthday self
  /\ find_phone r' p = Some (mkPhone p)
  /\ (forall q ph, find_phone self q = Some ph -> find_phone r' q = Some ph).
Proof.
  intros H; apply add_phone_inv in H; subst r'; unfold with_phones.
  cbn [phones name birthday]; repeat split.
  - unfold find_phone; cbn [phones]; rewrite find_phone_in_app.
    pose proof (find_phone_in_spec (phones self) p) as H.
    destruct (find_phone_in (phones self) p) as [[v]|].
    + destruct H as (_ & _ & _ & Hv & _); simpl in Hv; subst; reflexivity.
    + rewrite str_eqb_refl; reflexivity.
  - intros q ph; unfold find_phone; cbn [phones]; rewrite find_phone_in_app.
    intros ->; reflexivity.
Qed.

Lemma X3_add_phone_then_find_witness :
  let self := mkRecord (mkName (lit "Ann")) [mkPhone (lit "0501234567")] None in
  let r' := mkRecord (mkName (lit "Ann"))
              [mkPhone (lit "0501234567"); mkPhone (lit "0501234567")] None in
  phones r' = phones self ++ [mkPhone (lit "0501234567")]
  /\ name r' = name self /\ birthday r' = birthday self
  /\ find_phone r' (lit "0501234567") = Some (mkPhone (lit "0501234567"))
  /\ (forall q ph, find_phone self q = Some ph -> find_phone r' q = Some ph).
Proof.
  apply (X3_add_phone_then_find
           (mkRecord (mkName (lit "Ann")) [mkPhone (lit "0501234567")] None)
           (mkRecord (mkName (lit "Ann"))
              [mkPhone (lit "0501234567"); mkPhone (lit "0501234567")] None)
           (lit "0501234567")).
  vm_compute; reflexivity.
Defined.

Lemma remove_first_spec (ps : list Phone) (q : str) :
  match remove_first ps q with
  | Some ps' =>
      exists pre ph post,
        ps = pre ++ ph :: post /\ phone_value ph = q
        /\ ~ In q (map phone_value pre) /\ ps' = pre ++ post
  | None => ~ In q (map phone_value ps)
  end.
Proof.
  induction ps as [|p ps IH]; simpl; [tauto|].
  destruct (str_eqb (phone_value p) q) eqn:E.
  - apply str_eqb_eq in E; exists [], p, ps; simpl; auto.
  - apply str_eqb_neq in E.
    destruct (remove_first ps q) as [ps'|]; simpl.
    + destruct IH as (pre & ph & post & -> & Hv & Hn & ->).
      exists (p :: pre), ph, post; simpl; intuition congruence.
    + tauto.
Qed.

(** X4: [remove_phone] removes the first phone with the given value and
    nothing else; when no phone has that value it raises "Phone number
    not found". *)
Theorem X4_remove_phone (self : ContactRecord) (q : str) :
  (In q (phone_values self) ->
   exists pre ph post,
     phones self = pre ++ ph :: post /\ phone_value ph = q
     /\ ~ In q (map phone_value pre)
     /\ remove_phone self q
        = Return (mkRecord (name self) (pre ++ post) (birthday self)))
  /\ (~ In q (phone_values self) ->
      remove_phone self q
      = Raise (ValidationException (lit "Phone number not found"))).
Proof.
  unfold remove_phone, phone_values.
  pose proof (remove_first_spec (phones self) q) as H.
  destruct (remove_first (phones self) q) as [ps'|]; split.
  - intros _; destruct H as (pre & ph & post & E & Hv & Hn & ->).
    exists pre, ph, post; auto.
  - intros Hn; exfalso; apply Hn.
    destruct H as (pre & ph & post & -> & Hv & _).
    rewrite map_app, in_app_iff; right; left; exact Hv.
  - tauto.
  - reflexivity.
Qed.

Lemma remove_first_app (ps : list Phone) (p : str) :
  ~ In p (map phone_value ps) ->
  remove_first (ps ++ [mkPhone p]) p = Some ps.
Proof.
  induction ps as [|x ps IH]; simpl.
  - rewrite str_eqb_refl; reflexivity.
  - intros Hn; destruct (str_eqb (phone_value x) p) eqn:E.
    + apply str_eqb_eq in E; tauto.
    + rewrite IH; [reflexivity | tauto].
Qed.

(** X5: adding a phone the record did not have and removing it again
    gives the record back. *)
Theorem X5_add_then_remove_phone (self r' : ContactRecord) (p : str) :
  ~ In p (phone_values self) ->
  add_phone self p = Return r' ->
  remove_phone r' p = Return self.
Proof.
  intros Hn H; apply add_phone_inv in H; subst r'.
  unfold remove_phone, with_phones; cbn [phones name birthday].
  rewrite (remove_first_app _ _ Hn); destruct self; reflexivity.
Qed.

Lemma X5_add_then_remove_phone_witness :
  remove_phone
    (mkRecord (mkName (lit "Ann"))
       [mkPhone (lit "0501234567"); mkPhone (lit "0671234567")] None)
    (lit "0671234567")
  = Return (mkRecord (mkName (lit "Ann")) [mkPhone (lit "0501234567")] None).
Proof.
  apply (X5_add_then_remove_phone
           (mkRecord (mkName (lit "Ann")) [mkPhone (lit "0501234567")] None)
           _ (lit "0671234567")).
  - simpl; intros [H|[]]; vm_compute in H; discriminate.
  - vm_compute; reflexivity.
Defined.

Lemma edit_first_length (ps ps' : list Phone) (old new : str) :
  edit_first ps old new = Some ps' ->
  List.length ps' = List.length ps /\ In new (map phone_value ps').
Proof.
  revert ps'; induction ps as [|p ps IH]; intros ps'; simpl; [discriminate|].
  destruct (str_eqb (phone_value p) old).
  - intros [= <-]; simpl; auto.
  - destruct (edit_first ps old new) as [qs|]; [|discriminate].
    intros [= <-]; destruct (IH qs eq_refl) as [L I]; simpl; auto.
Qed.

(** X6: [edit_phone] succeeds exactly when some phone of the record has
    the old value; otherwise it raises "Phone number not found".  On
    success the record keeps its name, its birthday and the number of
    its phones, and the new value is among them. *)
Theorem X6_edit_phone_outcomes (self : ContactRecord) (old new : str) :
  ((exists r', edit_phone self old new = Return r')
   <-> In old (phone_values self))
  /\ (~ In old (phone_values self) ->
      edit_phone self old new
      = Raise (ValidationException (lit "Phone number not found")))
  /\ (forall r',
      edit_phone self old new = Return r' ->
      name r' = name self /\ birthday r' = birthday self
      /\ List.length (phones r') = List.length (phones self)
      /\ In new (phone_values r')).
Proof.
  unfold edit_phone, phone_values.
  assert (Missing : ~ In old (map phone_value (phones self)) ->
                    edit_first (phones self) old new = None)
    by apply edit_first_absent.
  split; [|split].
  - split.
    + intros [r' H].
      destruct (in_dec (list_eq_dec N.eq_dec) old
                  (map phone_value (phones self))) as [Hin|Hn]; [exact Hin|].
      rewrite (Missing Hn) in H; discriminate.
    + intros Hin.
      destruct (edit_first_split _ old new Hin) as (pre & post & _ & _ & ->).
      eauto.
  - intros Hn; rewrite (Missing Hn); reflexivity.
  - intros r'; destruct (edit_first (phones self) old new) as [ps|] eqn:E;
      [|discriminate].
    intros [= <-]; cbn [name birthday phones].
    destruct (edit_first_length _ _ _ _ E); auto.
Qed.

Lemma edit_first_back (pre post : list Phone) (old new : str) :
  ~ In new (map phone_value pre) ->
  edit_first (pre ++ mkPhone new :: post) new old
  = Some (pre ++ mkPhone old :: post).
Proof.
  induction pre as [|p pre IH]; simpl.
  - rewrite str_eqb_refl; reflexivity.
  - intros Hn; destruct (str_eqb (phone_value p) new) eqn:E.
    + apply str_eqb_eq in E; tauto.
    + rewrite IH; [reflexivity | tauto].
Qed.

(** X7: an edit can be undone: when the new value was not among the
    phones, editing [old] into [new] and then [new] back into [old]
    gives the record back. *)
Theorem X7_edit_phone_undo (self r' : ContactRecord) (old new : str) :
  ~ In new (phone_values self) ->
  edit_phone self old new = Return r' ->
  edit_phone r' new old = Return self.
Proof.
  unfold phone_values; intros Hn H.
  assert (Hin : In old (map phone_value (phones self))).
  { destruct (in_dec (list_eq_dec N.eq_dec) old
                (map phone_value (phones self))) as [Hin|Ho]; [exact Hin|].
    unfold edit_phone in H; rewrite (edit_first_absent _ _ _ Ho) in H.
    discriminate. }
  unfold edit_phone in *.
  destruct (edit_first_split _ old new Hin) as (pre & post & Es & _ & E).
  rewrite E in H; injection H as <-; cbn [phones name birthday].
  rewrite edit_first_back.
  - rewrite <- Es; destruct self; reflexivity.
  - intros Hp; apply Hn; rewrite Es, map_app, in_app_iff; left; exact Hp.
Qed.

Lemma X7_edit_phone_undo_witness :
  edit_phone
    (mkRecord (mkName (lit "Ann"))
       [mkPhone (lit "0501234567"); mkPhone (lit "x")] None)
    (lit "x") (lit "0671234567")
  = Return (mkRecord (mkName (lit "Ann"))
              [mkPhone (lit "0501234567"); mkPhone (lit "0671234567")] None).
Proof.
  apply (X7_edit_phone_undo
           (mkRecord (mkName (lit "Ann"))
              [mkPhone (lit "0501234567"); mkPhone (lit "0671234567")] None)
           _ (lit "0671234567") (lit "x")).
  - simpl; intros [H|[H|[]]]; vm_compute in H; discriminate.
  - vm_compute; reflexivity.
Defined.

(** ** [Birthday] *)

Lemma strptime_date_text (y m d : Z) :
  1 <= d <= 31 -> 1 <= m <= 12 -> 1 <= y <= 9999 ->
  strptime (date_text y m d) "%d.%m.%Y" = date_new y m d.
Proof.
  intros Hd Hm Hy; unfold date_text.
  destruct (year_text PaddedYear y Hy (or_introl eq_refl)) as [Ry Iy].
  cbn [fmt_year] in Ry, Iy.
  destruct (month_text m Hm (46%N :: zfill 4 (dec y))) as [[tlm Rm] Im].
  destruct (day_text d Hd (46%N :: zfill 2 (dec m) ++ 46%N :: zfill 4 (dec y)))
    as [[tld Rd] Id].
  destruct (rx_seq_head _ _ _ _ _ _ _ _ _ _ _
              (rx_lit_dot (zfill 4 (dec y))) Ry) as [tl1 R1].
  destruct (rx_seq_head _ _ _ _ _ _ _ _ _ _ _ Rm R1) as [tl2 R2].
  destruct (rx_seq_head _ _ _ _ _ _ _ _ _ _ _
              (rx_lit_dot (zfill 2 (dec m) ++ 46%N :: zfill 4 (dec y)))
              R2) as [tl3 R3].
  destruct (rx_seq_head _ _ _ _ _ _ _ _ _ _ _ Rd R3) as [tl4 R4].
  unfold strptime; rewrite TimeRE_pattern_birthday.
  cbn [bind]; unfold birthday_rx; rewrite R4.
  cbn [app group_int group_get String.eqb Ascii.eqb Bool.eqb].
  rewrite Iy, Im, Id; reflexivity.
Qed.

(** X8: a text DD.MM.YYYY (two-digit day from 01 to 31, two-digit month
    from 01 to 12, four-digit year from 0001 to 9999) is accepted as a
    [Birthday] exactly when the day exists in that month of that year,
    and then the birthday is that date; otherwise the constructor
    raises "Invalid date format. Use DD.MM.YYYY".  So 31.04.2024 and
    29.02.2023 are rejected and 29.02.2024 is accepted. *)
Theorem X8_birthday_of_date_text (y m d : Z) :
  1 <= d <= 31 -> 1 <= m <= 12 -> 1 <= y <= 9999 ->
  Birthday_init (date_text y m d)
  = if d <=? days_in_month y m
    then Return (mkBirthday (mkdate y m d))
    else Raise (ValidationException
                  (lit "Invalid date format. Use DD.MM.YYYY")).
Proof.
  intros Hd Hm Hy; unfold Birthday_init.
  rewrite (strptime_date_text y m d Hd Hm Hy).
  destruct (date_new_inv y m d _ eq_refl) as [[-> Ok]|[msg [-> Bad]]].
  - apply date_ok_iff in Ok; cbn [year month day] in Ok.
    replace (d <=? days_in_month y m) with true
      by (symmetry; apply Z.leb_le; lia).
    reflexivity.
  - replace (d <=? days_in_month y m) with false; [reflexivity|].
    symmetry; apply Z.leb_gt.
    destruct (Z_lt_le_dec (days_in_month y m) d) as [L|L]; [exact L|].
    exfalso; assert (Ok : date_ok (mkdate y m d) = true)
      by (apply date_ok_iff; cbn [year month day]; lia).
    congruence.
Qed.

Lemma X8_birthday_of_date_text_witness :
  Birthday_init (date_text 2024 4 31)
  = if 31 <=? days_in_month 2024 4
    then Return (mkBirthday (mkdate 2024 4 31))
    else Raise (ValidationException
                  (lit "Invalid date format. Use DD.MM.YYYY")).
Proof. apply (X8_birthday_of_date_text 2024 4 31); lia. Defined.

(** ** The dictionary of records *)

(** X9: [add_record] stores the record under its own name: it is found
    there afterwards and no other name is affected.  A name that was
    absent is appended at the end; a name that was present keeps its
    place and its record is replaced. *)
Theorem X9_add_record_then_find (record : ContactRecord) (book : AddressBook) :
  let key := name_value (name record) in
  find key (add_record record book) = Some record
  /\ (forall k, k <> key -> find k (add_record record book) = find k book)
  /\ (find key book = None -> add_record record book = book ++ [(key, record)])
  /\ (find key book <> None ->
      map fst (add_record record book) = map fst book).
Proof.
  cbv zeta; unfold add_record, find; repeat split.
  - apply dict_get_set_same.
  - intros k Hk; apply dict_get_set_other; congruence.
  - apply dict_set_absent.
  - apply dict_set_keys.
Qed.

Lemma dict_del_absent (k : str) (data : AddressBook) :
  dict_get k data = None -> dict_del k data = data.
Proof.
  induction data as [|[k' v'] data IH]; simpl; [reflexivity|].
  destruct (str_eqb k' k); [discriminate|].
  intros H; rewrite IH; auto.
Qed.

Lemma dict_del_other (k k' : str) (data : AddressBook) :
  k <> k' -> dict_get k' (dict_del k data) = dict_get k' data.
Proof.
  intros Hne; induction data as [|[k0 v0] data IH]; simpl; [reflexivity|].
  destruct (str_eqb k0 k) eqn:E; simpl.
  - apply str_eqb_eq in E; subst k0.
    apply str_eqb_neq in Hne; rewrite Hne; reflexivity.
  - rewrite IH; reflexivity.
Qed.

Lemma dict_del_keys (k x : str) (data : AddressBook) :
  In x (map fst (dict_del k data)) -> In x (map fst data).
Proof.
  induction data as [|[k0 v0] data IH]; simpl; [tauto|].
  destruct (str_eqb k0 k); simpl; tauto.
Qed.

Lemma dict_del_slots (k : str) (slot : str * ContactRecord) (data : AddressBook) :
  In slot (dict_del k data) -> In slot data.
Proof.
  induction data as [|[k0 v0] data IH]; simpl; [tauto|].
  destruct (str_eqb k0 k); simpl; tauto.
Qed.

Lemma dict_del_same (k : str) (data : AddressBook) :
  NoDup (map fst data) -> dict_get k (dict_del k data) = None.
Proof.
  induction data as [|[k0 v0] data IH]; simpl; [reflexivity|].
  intros Nd; inversion Nd as [|? ? Hk Nd']; subst.
  destruct (str_eqb k0 k) eqn:E; simpl.
  - apply str_eqb_eq in E; subst k0; apply dict_get_none; exact Hk.
  - rewrite E; auto.
Qed.

Lemma dict_del_nodup (k : str) (data : AddressBook) :
  NoDup (map fst data) -> NoDup (map fst (dict_del k data)).
Proof.
  induction data as [|[k0 v0] data IH]; simpl; [auto|].
  intros Nd; inversion Nd as [|? ? Hk Nd']; subst.
  destruct (str_eqb k0 k); simpl; [exact Nd'|].
  constructor; [|auto].
  intros Hin; apply Hk; eapply dict_del_keys; exact Hin.
Qed.

(** X10: [delete] removes the record of a name and nothing else: the
    name is not found afterwards, every other name is found as before,
    and the state invariant is kept; deleting a name that has no record
    changes nothing and raises nothing. *)
Theorem X10_delete (key : str) (book : AddressBook) :
  book_wf book ->
  find key (delete key book) = None
  /\ (forall k, k <> key -> find k (delete key book) = find k book)
  /\ (find key book = None -> delete key book = book)
  /\ book_wf (delete key book).
Proof.
  intros [Nd All]; unfold find, delete; repeat split.
  - apply dict_del_same; exact Nd.
  - intros k Hk; apply dict_del_other; congruence.
  - apply dict_del_absent.
  - apply dict_del_nodup; exact Nd.
  - rewrite Forall_forall in *; intros slot Hin.
    apply All; eapply dict_del_slots; exact Hin.
Qed.

Lemma X10_delete_witness :
  find (lit "Ann") (delete (lit "Ann") book_ann_bob) = None
  /\ (forall k, k <> lit "Ann" ->
        find k (delete (lit "Ann") book_ann_bob) = find k book_ann_bob)
  /\ (find (lit "Ann") book_ann_bob = None ->
      delete (lit "Ann") book_ann_bob = book_ann_bob)
  /\ book_wf (delete (lit "Ann") book_ann_bob).
Proof.
  apply (X10_delete (lit "Ann") book_ann_bob).
  apply reachable_wf, book_ann_bob_reachable.
Defined.

(** ** Commands on the address book *)

Lemma find_mutated_same (key : str) (r : ContactRecord) (book : AddressBook) :
  find key (mutated key r book) = Some r.
Proof. apply dict_get_set_same. Qed.

Lemma find_mutated_other (key k : str) (r : ContactRecord) (book : AddressBook) :
  k <> key -> find k (mutated key r book) = find k book.
Proof. intros H; apply dict_get_set_other; congruence. Qed.

(** X11: after [add_contact] with a valid phone, [show_phone] for that
    name shows the phone: alone for a contact that was new, and after
    the phones the contact already had, joined with "; ", otherwise. *)
Theorem X11_add_contact_then_show_phone (key p : str) (book : AddressBook) :
  phone_rule p ->
  (find key book = None -> str_isalpha key = true ->
   show_phone key (fst (add_contact key (Some p) book)) = Return p)
  /\ (forall record,
      find key book = Some record ->
      show_phone key (fst (add_contact key (Some p) book))
      = Return (join (lit "; ") (phone_values record ++ [p]))).
Proof.
  intros Hp.
  assert (T : str_truthy p = true).
  { destruct Hp as [_ L]; destruct p; [discriminate | reflexivity]. }
  assert (Pp : phone_passes (Some p)) by (intros _; exact Hp).
  split.
  - intros Hf Ha; rewrite (add_contact_added key (Some p) book Hf Ha Pp).
    cbn [fst phones_added]; rewrite T; unfold show_phone, find.
    rewrite <- (dict_set_absent _ _ _ Hf), dict_get_set_same; reflexivity.
  - intros record Hf; rewrite (add_contact_updated key (Some p) book _ Hf Pp).
    cbn [fst phones_added]; rewrite T; unfold show_phone.
    rewrite find_mutated_same; unfold with_phones, phone_values.
    cbn [phones]; rewrite map_app; reflexivity.
Qed.

Lemma X11_add_contact_then_show_phone_witness :
  (find (lit "Ann") [] = None -> str_isalpha (lit "Ann") = true ->
   show_phone (lit "Ann")
     (fst (add_contact (lit "Ann") (Some (lit "1234567890")) []))
   = Return (lit "1234567890"))
  /\ (forall record,
      find (lit "Ann") [] = Some record ->
      show_phone (lit "Ann")
        (fst (add_contact (lit "Ann") (Some (lit "1234567890")) []))
      = Return (join (lit "; ") (phone_values record ++ [lit "1234567890"]))).
Proof.
  apply (X11_add_contact_then_show_phone (lit "Ann") (lit "1234567890") []).
  split; [|reflexivity].
  repeat constructor.
Defined.

(** X12: [change_contact] raises [KeyError] for a name without a
    record and "Phone number not found" when the record has no phone
    with the old value, and leaves the address book as it was in both
    cases.  Otherwise it returns "Phone number updated.", the record
    is the edited one and no other record is affected. *)
Theorem X12_change_contact_outcomes (key old new : str) (book : AddressBook) :
  (find key book = None ->
   change_contact key old new book
   = (book, Raise (KeyError (lit "Contact not found."))))
  /\ (forall record,
      find key book = Some record -> ~ In old (phone_values record) ->
      change_contact key old new book
      = (book, Raise (ValidationException (lit "Phone number not found"))))
  /\ (forall record,
      find key book = Some record -> In old (phone_values record) ->
      exists record',
        edit_phone record old new = Return record'
        /\ change_contact key old new book
           = (mutated key record' book, Return (lit "Phone number updated."))
        /\ find key (mutated key record' book) = Some record'
        /\ forall k, k <> key ->
             find k (mutated key record' book) = find k book).
Proof.
  unfold change_contact, phone_values; repeat split.
  - intros ->; reflexivity.
  - intros record -> Hn; unfold edit_phone.
    rewrite (edit_first_absent _ _ _ Hn); reflexivity.
  - intros record -> Hin; unfold edit_phone.
    destruct (edit_first_split _ old new Hin) as (pre & post & _ & _ & ->).
    eexists; split; [reflexivity|]. split; [reflexivity|].
    split; [apply find_mutated_same | intros k; apply find_mutated_other].
Qed.

Lemma no_newline_alpha_digit (s : str) :
  Forall (fun c => Unicode.isalpha c = true \/ Unicode.isdigit c = true) s ->
  ~ In 10%N s.
Proof.
  intros H Hin; rewrite Forall_forall in H.
  destruct (H _ Hin) as [A|A]; vm_compute in A; discriminate.
Qed.

(** X13: [show_all] on the empty address book is "No contacts
    available."; after one valid contact with a valid phone was added
    to the empty book it is exactly that contact's line, without a line
    break. *)
Theorem X13_show_all_one_contact (rt : c_runtime) (key p : str) :
  str_isalpha key = true -> phone_rule p ->
  let book := fst (add_contact key (Some p) []) in
  show_all rt [] = lit "No contacts available."
  /\ show_all rt book = lit "Contact name: " ++ key ++ lit ", phones: " ++ p
  /\ ~ In 10%N (show_all rt book).
Proof.
  intros Ha Hp.
  assert (T : str_truthy p = true).
  { destruct Hp as [_ L]; destruct p; [discriminate | reflexivity]. }
  rewrite (add_contact_added key (Some p) [] eq_refl Ha (fun _ => Hp)).
  cbn [fst phones_added app]; rewrite T.
  assert (E : show_all rt [(key, mkRecord (mkName key) [mkPhone p] None)]
              = lit "Contact name: " ++ key ++ lit ", phones: " ++ p).
  { unfold show_all, dict_values, Record_str; cbn [map snd join birthday name
      name_value phones phone_value].
    rewrite !app_nil_r; reflexivity. }
  split; [reflexivity|]. split; [exact E|].
  rewrite E, !in_app_iff.
  assert (Ka : ~ In 10%N key).
  { apply no_newline_alpha_digit.
    unfold str_isalpha in Ha; destruct key; [discriminate|].
    rewrite forallb_forall in Ha; apply Forall_forall; auto. }
  assert (Pa : ~ In 10%N p).
  { apply no_newline_alpha_digit.
    destruct Hp as [Hd _]; eapply Forall_impl; [|exact Hd]; auto. }
  intros [H|[H|[H|H]]]; try tauto;
    vm_compute in H; intuition discriminate.
Qed.

Lemma X13_show_all_one_contact_witness :
  let book := fst (add_contact (lit "Ann") (Some (lit "1234567890")) []) in
  show_all UnpaddedYear [] = lit "No contacts available."
  /\ show_all UnpaddedYear book
     = lit "Contact name: " ++ lit "Ann" ++ lit ", phones: " ++ lit "1234567890"
  /\ ~ In 10%N (show_all UnpaddedYear book).
Proof.
  apply (X13_show_all_one_contact UnpaddedYear (lit "Ann") (lit "1234567890")).
  - vm_compute; reflexivity.
  - split; [|reflexivity]. repeat constructor.
Defined.

(** ** The birthday query *)

Lemma upcoming_loop_names (rt : c_runtime) (today : date)
    (records : list ContactRecord) (res : list upcoming) :
  upcoming_loop rt today records [] = Return res ->
  subseq (map upcoming_name res) (record_names records).
Proof.
  revert res; induction records as [|r rs IH]; intros res.
  - simpl; intros [= <-]; constructor.
  - rewrite upcoming_loop_cons.
    destruct (upcoming_of rt today r) as [o|] eqn:Er; cbn [bind];
      [|discriminate].
    destruct (upcoming_loop rt today rs []) as [res'|]; cbn [bind];
      [|discriminate].
    intros [= <-]; specialize (IH res' eq_refl).
    destruct o as [u|]; simpl.
    + rewrite (upcoming_of_named _ _ _ _ Er); constructor; exact IH.
    + constructor; exact IH.
Qed.

Lemma upcoming_loop_no_birthdays (rt : c_runtime) (today : date)
    (records : list ContactRecord) :
  Forall (fun r => birthday r = None) records ->
  upcoming_loop rt today records [] = Return [].
Proof.
  induction 1 as [|r rs Hr _ IH]; [reflexivity|].
  rewrite upcoming_loop_cons; unfold upcoming_of; rewrite Hr, IH; reflexivity.
Qed.

(** X14: the result of [get_upcoming_birthdays] follows the insertion
    order of the address book and names each contact at most once: the
    names in it are the names of the records with some left out.
    Records without a birthday are skipped, so a book in which nobody
    has a birthday gives the empty list, whatever the date. *)
Theorem X14_upcoming_order (rt : c_runtime) (today : date)
    (book : AddressBook) :
  (forall res,
     get_upcoming_birthdays rt today book = Return res ->
     subseq (map upcoming_name res) (record_names (dict_values book)))
  /\ (Forall (fun r => birthday r = None) (dict_values book) ->
      get_upcoming_birthdays rt today book = Return []).
Proof.
  split.
  - intros res; apply upcoming_loop_names.
  - apply upcoming_loop_no_birthdays.
Qed.

Lemma leap_not_consecutive (y : Z) :
  is_leap y = true -> is_leap (y + 1) = false.
Proof.
  unfold is_leap; intros H.
  apply andb_true_iff in H as [H _]; apply Z.eqb_eq in H.
  replace ((y + 1) mod 4 =? 0) with false; [reflexivity|].
  symmetry; apply Z.eqb_neq; Z.div_mod_to_equations; lia.
Qed.

Lemma same_day_next_year (y m d : Z) :
  1 <= y -> ymd2ord (y + 1) m d - ymd2ord y m d <= 366.
Proof.
  intros Hy; unfold ymd2ord, days_before_month.
  rewrite (days_before_year_succ y Hy).
  destruct (is_leap y) eqn:L.
  - rewrite (leap_not_consecutive y L), andb_false_r.
    destruct ((2 <? m) && true); lia.
  - rewrite andb_false_r; destruct ((2 <? m) && is_leap (y + 1)); lia.
Qed.

(** X15: the next birthday that [get_upcoming_birthdays] computes for a
    record is never before today and at most 365 days ahead; the lower
    bound of the test [0 <= days <= 7] therefore always holds. *)
Theorem X15_next_birthday_within_a_year (today b this_year_birthday : date) :
  date_ok today = true ->
  next_birthday today b = Return this_year_birthday ->
  0 <= days_between this_year_birthday today <= 365.
Proof.
  intros Ok H; split; [exact (next_birthday_not_past _ _ _ Ok H)|].
  pose proof Ok as Ok'; apply date_ok_iff in Ok' as (Yt & Mt & Dt).
  pose proof (day_of_year_bounds _ _ _ Mt Dt) as Bt.
  unfold next_birthday, days_between in *.
  destruct (replace_year_inv b (year today) _ eq_refl)
    as [(x & E & Ex & Okx)|[msg E]]; rewrite E in H; [|discriminate].
  cbn [bind] in H; pose proof Okx as Okx'.
  apply date_ok_iff in Okx' as (Yx & Mx & Dx).
  pose proof (day_of_year_bounds _ _ _ Mx Dx) as Bx.
  destruct (date_ltb x today) eqn:Lt.
  - apply toordinal_lt in Lt; auto.
    apply replace_year_inv in H as [(x' & [= <-] & Ex' & Okx')|[msg H]];
      [|discriminate].
    subst; unfold toordinal in *; cbn [year month day] in *.
    pose proof (same_day_next_year (year today) (month b) (day b)
                  ltac:(lia)); lia.
  - injection H as <-; subst x; unfold toordinal, ymd2ord in *.
    cbn [year month day] in *.
    destruct (is_leap (year today)); lia.
Qed.

Lemma X15_next_birthday_within_a_year_witness :
  0 <= days_between (mkdate 2025 1 2) (mkdate 2024 12 30) <= 365.
Proof.
  apply (X15_next_birthday_within_a_year
           (mkdate 2024 12 30) (mkdate 1990 1 2) (mkdate 2025 1 2));
    reflexivity.
Defined.

Lemma upcoming_entry_window (rt : c_runtime) (today : date)
    (records : list ContactRecord) (res : list upcoming) (u : upcoming) :
  upcoming_loop rt today records [] = Return res -> In u res ->
  exists tyb c,
    date_ok tyb = true /\ date_ok c = true
    /\ 0 <= days_between tyb today <= 7
    /\ toordinal c = toordinal tyb + weekend_shift tyb
    /\ upcoming_birthday u = strftime rt c "%d.%m.%Y"
    /\ upcoming_congratulation_date u = strftime rt c "%Y.%m.%d".
Proof.
  intros Hres Hu.
  destruct (upcoming_loop_returns _ _ _ _ Hres) as [_ Mem].
  apply Mem in Hu as (record & Hin & E).
  destruct (birthday record) as [b|] eqn:Hb;
    [|unfold upcoming_of in E; rewrite Hb in E; discriminate].
  destruct (upcoming_of_inv rt today record b Hb)
    as [(msg & _ & E')|(tyb & c & Hn & Ok & Hc & Okc & Oc & Same & E')];
    rewrite E' in E; [discriminate|].
  destruct ((0 <=? days_between tyb today) && (days_between tyb today <=? 7))
    eqn:W; [|discriminate].
  injection E as <-; apply andb_true_iff in W; rewrite !Z.leb_le in W.
  exists tyb, c; auto 10.
Qed.

(** X16: every celebration date that [get_upcoming_birthdays] emits is
    a working day, Monday to Friday, and lies from 0 to 9 days after
    today, counted on the proleptic Gregorian ordinals of the two
    dates; both date fields of the entry show that date. *)
Theorem X16_celebration_on_working_day (rt : c_runtime) (today : date)
    (book : AddressBook) (res : list upcoming) (u : upcoming) :
  get_upcoming_birthdays rt today book = Return res -> In u res ->
  exists congratulation_date,
    date_ok congratulation_date = true
    /\ upcoming_congratulation_date u
       = strftime rt congratulation_date "%Y.%m.%d"
    /\ upcoming_birthday u = strftime rt congratulation_date "%d.%m.%Y"
    /\ 0 <= weekday congratulation_date <= 4
    /\ 0 <= toordinal congratulation_date - toordinal today <= 9.
Proof.
  intros Hres Hu.
  destruct (upcoming_entry_window _ _ _ _ _ Hres Hu)
    as (tyb & c & Ok & Okc & W & Oc & Eb & Ec).
  exists c; split; [exact Okc|]. split; [exact Ec|]. split; [exact Eb|].
  pose proof (toordinal_bounds tyb Ok) as B.
  unfold weekend_shift, days_between in *; unfold weekday in *.
  destruct ((toordinal tyb + 6) mod 7 =? 5) eqn:W5;
    [apply Z.eqb_eq in W5
    |apply Z.eqb_neq in W5;
     destruct ((toordinal tyb + 6) mod 7 =? 6) eqn:W6;
     [apply Z.eqb_eq in W6 | apply Z.eqb_neq in W6]];
    cbv iota in Oc; rewrite Oc; split; Z.div_mod_to_equations; lia.
Qed.

Lemma X16_celebration_on_working_day_witness :
  exists congratulation_date,
    date_ok congratulation_date = true
    /\ lit "2024.05.06" = strftime UnpaddedYear congratulation_date "%Y.%m.%d"
    /\ lit "06.05.2024" = strftime UnpaddedYear congratulation_date "%d.%m.%Y"
    /\ 0 <= weekday congratulation_date <= 4
    /\ 0 <= toordinal congratulation_date - toordinal (mkdate 2024 5 1) <= 9.
Proof.
  apply (X16_celebration_on_working_day UnpaddedYear (mkdate 2024 5 1) book_ann
           [mkUpcoming (lit "Ann") (lit "06.05.2024") (lit "2024.05.06")]
           (mkUpcoming (lit "Ann") (lit "06.05.2024") (lit "2024.05.06"))).
  - vm_compute; reflexivity.
  - left; reflexivity.
Defined.

Lemma upcoming_of_returns_iff (rt : c_runtime) (today : date)
    (record : ContactRecord) (b : Birthday) :
  birthday record = Some b ->
  returns (upcoming_of rt today record)
  = returns (next_birthday today (birthday_value b)).
Proof.
  intros Hb.
  destruct (upcoming_of_inv rt today record b Hb)
    as [(msg & -> & ->)|(tyb & c & -> & _ & _ & _ & _ & _ & ->)]; reflexivity.
Qed.

(** X17: a record whose birthday is 29 February can be processed only
    in a leap year and only until 29 February of it: from 1 March of a
    leap year on, as in every other year, the record makes
    [get_upcoming_birthdays] raise. *)
Theorem X17_feb29_only_until_feb29 (rt : c_runtime) (today : date)
    (record : ContactRecord) (b : Birthday) :
  date_ok today = true ->
  birthday record = Some b ->
  month (birthday_value b) = 2 -> day (birthday_value b) = 29 ->
  returns (upcoming_of rt today record) = true
  <-> is_leap (year today) = true /\ up_to_feb29 today.
Proof.
  intros Ok Hb Hm Hd; rewrite (upcoming_of_returns_iff rt today record b Hb).
  apply date_ok_iff in Ok as (Y & M & D).
  unfold next_birthday, replace_year, up_to_feb29; rewrite Hm, Hd.
  destruct (is_leap (year today)) eqn:L.
  - assert (V : date_ok (mkdate (year today) 2 29) = true).
    { apply date_ok_iff; cbn [year month day]; unfold days_in_month.
      rewrite L; cbn; lia. }
    rewrite (date_new_valid _ _ _ V); cbn [bind month day].
    destruct (date_ltb (mkdate (year today) 2 29) today) eqn:Lt.
    + assert (Bad : date_ok (mkdate (year today + 1) 2 29) = false).
      { unfold date_ok; cbn [year month day]; unfold days_in_month.
        rewrite (leap_not_consecutive _ L); cbn [andb Z.eqb DAYS_IN_MONTH].
        replace (29 <=? 28) with false by reflexivity.
        rewrite andb_false_r; reflexivity. }
      destruct (date_new_inv (year today + 1) 2 29 _ eq_refl)
        as [[_ Good]|[msg [-> _]]]; [congruence|].
      cbn [returns]; split; [discriminate|].
      intros [_ U]; exfalso.
      unfold date_ltb in Lt; cbn [year month day] in Lt.
      rewrite Z.ltb_irrefl, Z.eqb_refl in Lt; cbn [orb andb] in Lt.
      apply orb_true_iff in Lt as [Lt|Lt].
      * apply Z.ltb_lt in Lt; lia.
      * apply andb_true_iff in Lt as [E Lt].
        apply Z.eqb_eq in E; apply Z.ltb_lt in Lt; lia.
    + cbn [returns]; split; [|reflexivity].
      intros _; split; [reflexivity|].
      unfold date_ltb in Lt; cbn [year month day] in Lt.
      rewrite Z.ltb_irrefl, Z.eqb_refl in Lt; cbn [orb andb] in Lt.
      apply orb_false_iff in Lt as [L1 L2]; apply Z.ltb_ge in L1.
      apply andb_false_iff in L2.
      destruct (Z.eq_dec (month today) 2) as [E|E]; [|lia].
      right; split; [exact E|].
      destruct L2 as [L2|L2];
        [apply Z.eqb_neq in L2; lia | apply Z.ltb_ge in L2; lia].
  - assert (Bad : date_ok (mkdate (year today) 2 29) = false).
    { unfold date_ok; cbn [year month day]; unfold days_in_month.
      rewrite L; cbn [andb Z.eqb DAYS_IN_MONTH].
      replace (29 <=? 28) with false by reflexivity.
      rewrite andb_false_r; reflexivity. }
    destruct (date_new_inv (year today) 2 29 _ eq_refl)
      as [[_ Good]|[msg [-> _]]]; [congruence|].
    cbn [bind returns]; split; [discriminate | intros [? _]; discriminate].
Qed.

Lemma X17_feb29_only_until_feb29_witness :
  returns (upcoming_of UnpaddedYear (mkdate 2024 3 1)
             (mkRecord (mkName (lit "Bob")) []
                (Some (mkBirthday (mkdate 2000 2 29))))) = true
  <-> is_leap (year (mkdate 2024 3 1)) = true /\ up_to_feb29 (mkdate 2024 3 1).
Proof.
  apply (X17_feb29_only_until_feb29 UnpaddedYear (mkdate 2024 3 1)
           (mkRecord (mkName (lit "Bob")) []
              (Some (mkBirthday (mkdate 2000 2 29))))
           (mkBirthday (mkdate 2000 2 29))); reflexivity.
Defined.

(** X18: [get_upcoming_birthdays] raises nothing but the [ValueError]
    of the date constructor, and it returns a result whenever the
    current year is before 9999 and no record has its birthday on
    29 February. *)
Theorem X18_upcoming_returns_or_value_error (rt : c_runtime) (today : date)
    (book : AddressBook) :
  (forall e,
     get_upcoming_birthdays rt today book = Raise e -> is_ValueError e = true)
  /\ (book_wf book -> date_ok today = true -> year today < 9999 ->
      (forall record b,
         In record (dict_values book) -> birthday record = Some b ->
         not_feb29 (birthday_value b)) ->
      exists res, get_upcoming_birthdays rt today book = Return res).
Proof.
  split.
  - intros e; apply get_upcoming_birthdays_raises.
  - apply get_upcoming_birthdays_returns.
Qed.

(** ** Handlers *)

(** X19: a handler called with the wrong number of arguments returns
    its usage hint and leaves the address book as it was;
    [handle_birthdays] ignores its arguments. *)
Theorem X19_wrong_argument_count (rt : c_runtime) (today : date)
    (args : list str) (book : AddressBook) :
  (List.length args <> 2%nat ->
   handle_add_contact args book
   = (book, lit "Please provide contact name and phone number."))
  /\ (List.length args <> 3%nat ->
      handle_change_contact args book
      = (book, lit
           "Please provide contact name, old phone number and new phone number."))
  /\ (List.length args <> 1%nat ->
      handle_show_phone args book = (book, lit "Please provide contact name."))
  /\ (List.length args <> 2%nat ->
      handle_add_birthday args book
      = (book, lit "Please provide contact name and birthday date."))
  /\ (List.length args <> 1%nat ->
      handle_show_birthday rt args book
      = (book, lit "Please provide contact name."))
  /\ handle_birthdays rt today args book = handle_birthdays rt today [] book.
Proof.
  repeat split; try reflexivity; intros H;
    destruct args as [|a [|b [|c [|? ?]]]]; simpl in H; try lia; reflexivity.
Qed.

(** X20: every exception raised inside a handler is a usage error
    ([IndexError]), a [ValidationException], the [ValueError] of a date
    that cannot be constructed, or the [KeyError] of a missing contact,
    whose message is always "Contact not found."; a handler never
    meets an [OverflowError]. *)
Theorem X20_exceptions_of_handlers (rt : c_runtime) (today : date)
    (args : list str) (book book' : AddressBook) (e : exn) :
  (handle_add_contact_body args book = (book', Raise e) -> handler_exn e)
  /\ (handle_change_contact_body args book = (book', Raise e) -> handler_exn e)
  /\ (handle_show_phone_body args book = (book', Raise e) -> handler_exn e)
  /\ (handle_add_birthday_body args book = (book', Raise e) -> handler_exn e)
  /\ (handle_show_birthday_body rt args book = (book', Raise e) ->
      handler_exn e)
  /\ (handle_birthdays_body rt today args book = (book', Raise e) ->
      handler_exn e)
  /\ (handle_show_all_body rt tt book = (book', Raise e) -> handler_exn e).
Proof. apply handlers_raise. Qed.

Lemma add_contact_state (key : str) (phone : option str)
    (book book' : AddressBook) (r : result str) :
  add_contact key phone book = (book', r) ->
  book' = book
  \/ (find key book = None
      /\ book' = book ++ [(key, mkRecord (mkName key) (phones_added phone) None)]
      /\ returns r = true)
  \/ (find key book = None
      /\ book' = book ++ [(key, mkRecord (mkName key) [] None)]
      /\ returns r = false)
  \/ (exists record p,
        find key book = Some record /\ phone = Some p
        /\ book' = mutated key (with_phones record [mkPhone p]) book
        /\ returns r = true).
Proof.
  unfold add_contact.
  destruct (find key book) as [record|] eqn:F.
  - destruct phone as [p|]; [|intros [= <- _]; auto].
    destruct (str_truthy p); [|intros [= <- _]; auto].
    destruct (add_phone record p) as [r'|e] eqn:A; [|intros [= <- _]; auto].
    apply add_phone_inv in A; subst r'.
    intros [= <- <-]; right; right; right; exists record, p; auto.
  - unfold Record_init, Name_init.
    destruct (validate_name key); cbn [bind]; [|intros [= <- _]; auto].
    unfold add_record; cbn [name name_value].
    rewrite (dict_set_absent _ _ _ F).
    destruct phone as [p|]; [|intros [= <- <-]; right; left; auto].
    cbn [phones_added]; destruct (str_truthy p);
      [|intros [= <- <-]; right; left; auto].
    destruct (add_phone _ p) as [r'|e] eqn:A.
    + apply add_phone_inv in A; subst r'.
      intros [= <- <-]; right; left; repeat split; auto.
      unfold mutated; apply dict_set_app_absent; exact F.
    + intros [= <- <-]; right; right; left; auto.
Qed.

(** X21: a command that fails leaves the address book as it was, with
    one exception: when [add] fails, the book is either unchanged or,
    for a name that was new, has gained a record of that name without
    phones.  The commands that only show something return the book
    they were given. *)
Theorem X21_book_after_failure (rt : c_runtime) (today : date)
    (args : list str) (book book' : AddressBook) (e : exn) :
  (handle_change_contact_body args book = (book', Raise e) -> book' = book)
  /\ (handle_add_birthday_body args book = (book', Raise e) -> book' = book)
  /\ (handle_add_contact_body args book = (book', Raise e) ->
      book' = book
      \/ exists key phone,
           args = [key; phone] /\ find key book = None
           /\ book' = book ++ [(key, mkRecord (mkName key) [] None)])
  /\ fst (handle_show_phone args book) = book
  /\ fst (handle_show_birthday rt args book) = book
  /\ fst (handle_birthdays rt today args book) = book
  /\ fst (handle_show_all rt tt book) = book.
Proof.
  split; [|split; [|split; [|split; [|split; [|split]]]]].
  - unfold handle_change_contact_body, change_contact.
    destruct args as [|key [|old [|new [|? ?]]]]; try (intros [= <- _]; auto).
    destruct (find key book); [|intros [= <- _]; auto].
    destruct (edit_phone _ _ _); [discriminate | intros [= <- _]; auto].
  - unfold handle_add_birthday_body.
    destruct args as [|key [|text [|? ?]]]; try (intros [= <- _]; auto).
    destruct (find key book); [|intros [= <- _]; auto].
    destruct (add_birthday _ _); [discriminate | intros [= <- _]; auto].
  - unfold handle_add_contact_body.
    destruct args as [|key [|phone [|? ?]]]; try (intros [= <- _]; auto).
    intros H; apply add_contact_state in H
      as [H|[(_ & _ & R)|[(F & H & _)|(record & p & _ & _ & _ & R)]]];
      try discriminate; [auto|].
    right; exists key, phone; auto.
  - unfold handle_show_phone; rewrite input_error_state.
    unfold handle_show_phone_body; destruct args as [|key [|? ?]]; reflexivity.
  - unfold handle_show_birthday; rewrite input_error_state.
    unfold handle_show_birthday_body; destruct args as [|key [|? ?]];
      try reflexivity.
    destruct (find key book); reflexivity.
  - unfold handle_birthdays; rewrite input_error_state.
    unfold handle_birthdays_body.
    destruct (get_upcoming_birthdays rt today book) as [[|? ?]|]; reflexivity.
  - unfold handle_show_all; rewrite input_error_state; reflexivity.
Qed.

Lemma dict_set_names (k : str) (v : ContactRecord) (book : AddressBook) :
  names_valid book -> dict_get k book <> None \/ str_isalpha k = true ->
  names_valid (dict_set k v book).
Proof.
  unfold names_valid; intros Nv H.
  destruct (dict_get k book) eqn:G.
  - rewrite dict_set_keys; [exact Nv | congruence].
  - destruct H as [H|H]; [congruence|].
    rewrite (dict_set_absent _ _ _ G), map_app; apply Forall_app; split;
      [exact Nv | repeat constructor; exact H].
Qed.

Lemma add_contact_names (key : str) (phone : option str) (book : AddressBook) :
  names_valid book -> names_valid (fst (add_contact key phone book)).
Proof.
  intros Nv; unfold add_contact.
  destruct (find key book) as [record|] eqn:F.
  - destruct phone as [p|]; [|exact Nv].
    destruct (str_truthy p); [|exact Nv].
    destruct (add_phone record p); [|exact Nv].
    apply dict_set_names; [exact Nv | left; unfold find in F; congruence].
  - unfold Record_init, Name_init, validate_name.
    destruct (str_isalpha key) eqn:A; cbn [negb bind]; [|exact Nv].
    assert (N1 : names_valid (add_record (mkRecord (mkName key) [] None) book))
      by (apply dict_set_names; auto).
    destruct phone as [p|]; [|exact N1].
    destruct (str_truthy p); [|exact N1].
    destruct (add_phone _ p); [|exact N1].
    apply dict_set_names; auto.
Qed.

Lemma reachable_names_valid (book : AddressBook) :
  reachable book -> names_valid book.
Proof.
  induction 1 as [|args book _ IH|args book _ IH|args book _ IH].
  - constructor.
  - unfold handle_add_contact; rewrite input_error_state.
    unfold handle_add_contact_body.
    destruct args as [|key [|phone [|? ?]]]; try exact IH.
    apply add_contact_names; exact IH.
  - unfold handle_change_contact; rewrite input_error_state.
    unfold handle_change_contact_body, change_contact.
    destruct args as [|key [|old [|new [|? ?]]]]; try exact IH.
    destruct (find key book) eqn:F; [|exact IH].
    destruct (edit_phone _ _ _); [|exact IH].
    apply dict_set_names; [exact IH | left; unfold find in F; congruence].
  - unfold handle_add_birthday; rewrite input_error_state.
    unfold handle_add_birthday_body.
    destruct args as [|key [|text [|? ?]]]; try exact IH.
    destruct (find key book) eqn:F; [|exact IH].
    destruct (add_birthday _ _); [|exact IH].
    apply dict_set_names; [exact IH | left; unfold find in F; congruence].
Qed.

(** X22: whatever commands were given, the address book keeps its
    invariant: one record per name, every record stored under its own
    name, every name valid (alphabetic) and every birthday a valid
    calendar date. *)
Theorem X22_reachable_invariant (book : AddressBook) :
  reachable book -> book_wf book /\ names_valid book.
Proof.
  intros R; split; [exact (reachable_wf book R)|].
  exact (reachable_names_valid book R).
Qed.

Lemma X22_reachable_invariant_witness :
  book_wf book_ann_bob /\ names_valid book_ann_bob.
Proof. apply (X22_reachable_invariant book_ann_bob book_ann_bob_reachable). Defined.

(** X23: for a contact that exists, [add-birthday] with the text of a
    valid date answers "Birthday added" and [show-birthday] then
    answers with that text, provided the year is printed with four
    digits; before any birthday was set, [show-birthday] answers
    "Birthday not set". *)
Theorem X23_add_then_show_birthday (rt : c_runtime) (key : str)
    (record : ContactRecord) (d : date) (book : AddressBook) :
  find key book = Some record ->
  date_ok d = true -> rt = PaddedYear \/ 1000 <= year d ->
  let text := strftime rt d "%d.%m.%Y" in
  let after := fst (handle_add_birthday [key; text] book) in
  snd (handle_add_birthday [key; text] book) = lit "Birthday added"
  /\ snd (handle_show_birthday rt [key] after) = text
  /\ (birthday record = None ->
      snd (handle_show_birthday rt [key] book) = lit "Birthday not set").
Proof.
  intros F Ok Hy; cbv zeta.
  unfold handle_add_birthday, handle_show_birthday, input_error,
    handle_add_birthday_body, handle_show_birthday_body, add_birthday.
  rewrite F, (Birthday_init_strftime rt d Ok Hy); cbn [bind fst snd].
  rewrite find_mutated_same; cbn [snd]; repeat split.
  intros Hb; unfold show_birthday; rewrite Hb; reflexivity.
Qed.

Lemma X23_add_then_show_birthday_witness :
  let text := strftime UnpaddedYear (mkdate 1990 5 4) "%d.%m.%Y" in
  let book := fst (handle_add_contact [lit "Ann"; lit "0501234567"] []) in
  let after := fst (handle_add_birthday [lit "Ann"; text] book) in
  snd (handle_add_birthday [lit "Ann"; text] book) = lit "Birthday added"
  /\ snd (handle_show_birthday UnpaddedYear [lit "Ann"] after) = text
  /\ (birthday (mkRecord (mkName (lit "Ann")) [mkPhone (lit "0501234567")] None)
      = None ->
      snd (handle_show_birthday UnpaddedYear [lit "Ann"] book)
      = lit "Birthday not set").
Proof.
  apply (X23_add_then_show_birthday UnpaddedYear (lit "Ann")
           (mkRecord (mkName (lit "Ann")) [mkPhone (lit "0501234567")] None)
           (mkdate 1990 5 4)
           (fst (handle_add_contact [lit "Ann"; lit "0501234567"] []))).
  - vm_compute; reflexivity.
  - reflexivity.
  - right; simpl; lia.
Defined.

(** ** Reading a command line *)

Lemma lstrip_blank (s : str) : lstrip s = [] <-> blank s.
Proof.
  unfold blank; induction s as [|c s IH]; simpl.
  - split; [constructor | reflexivity].
  - destruct (Unicode.isspace c) eqn:E.
    + rewrite IH; split; [intros H; constructor; assumption|].
      intros H; inversion H; assumption.
    + split; [discriminate|].
      intros H; inversion H; congruence.
Qed.

Lemma lstrip_head (s : str) :
  match lstrip s with
  | [] => True
  | c :: _ => Unicode.isspace c = false
  end.
Proof.
  induction s as [|c s IH]; simpl; [exact I|].
  destruct (Unicode.isspace c) eqn:E; [exact IH | exact E].
Qed.

Lemma lstrip_suffix (s : str) : exists pre, blank pre /\ s = pre ++ lstrip s.
Proof.
  induction s as [|c s (pre & B & E)]; simpl.
  - exists []; split; [constructor | reflexivity].
  - destruct (Unicode.isspace c) eqn:Sp.
    + exists (c :: pre); split; [constructor; assumption|].
      simpl; f_equal; exact E.
    + exists []; split; [constructor | reflexivity].
Qed.

Lemma blank_app (s t : str) : blank (s ++ t) <-> blank s /\ blank t.
Proof. apply Forall_app. Qed.

Lemma blank_rev (s : str) : blank (rev s) <-> blank s.
Proof.
  unfold blank; split; intros H.
  - rewrite <- (rev_involutive s); apply Forall_rev; exact H.
  - apply Forall_rev; exact H.
Qed.

Lemma strip_blank (s : str) : strip s = [] <-> blank s.
Proof.
  unfold strip.
  destruct (lstrip_suffix s) as (pre & B & E).
  assert (R : rev (lstrip (rev (lstrip s))) = [] <-> blank (lstrip s)).
  { split.
    - intros H; apply (f_equal (@rev N)) in H.
      rewrite rev_involutive in H; simpl in H.
      apply lstrip_blank in H; apply blank_rev; exact H.
    - intros H; apply blank_rev in H; apply lstrip_blank in H.
      rewrite H; reflexivity. }
  rewrite R; split.
  - intros H; rewrite E; apply blank_app; auto.
  - intros H; rewrite E in H; apply blank_app in H; tauto.
Qed.

Lemma lstrip_word (w : str) : word w -> lstrip w = w.
Proof.
  intros [Ne Hw]; destruct w as [|c w]; [congruence|].
  inversion Hw as [|? ? Hc _]; subst; simpl; rewrite Hc; reflexivity.
Qed.

Lemma strip_word (w : str) : word w -> strip w = w.
Proof.
  intros Hw; unfold strip; rewrite (lstrip_word w Hw), (lstrip_word (rev w)).
  - apply rev_involutive.
  - destruct Hw as [Ne Hw]; split; [|apply Forall_rev; exact Hw].
    intros H; apply Ne; rewrite <- (rev_involutive w), H; reflexivity.
Qed.

Lemma split_go_words (acc s : str) :
  Forall (fun c => Unicode.isspace c = false) acc ->
  Forall word (split_go acc s).
Proof.
  revert acc; induction s as [|c s IH]; intros acc Ha; simpl.
  - destruct acc as [|a acc]; [constructor|].
    repeat constructor; [|apply Forall_rev; exact Ha].
    intros H; apply (f_equal (@List.length N)) in H.
    rewrite length_rev in H; discriminate.
  - destruct (Unicode.isspace c) eqn:Sp.
    + destruct acc as [|a acc]; [apply IH; constructor|].
      constructor; [|apply IH; constructor].
      split; [|apply Forall_rev; exact Ha].
      intros H; apply (f_equal (@List.length N)) in H.
      rewrite length_rev in H; discriminate.
    + apply IH; constructor; assumption.
Qed.

Lemma split_go_nil (acc s : str) :
  split_go acc s = [] <-> acc = [] /\ blank s.
Proof.
  unfold blank; revert acc; induction s as [|c s IH]; intros acc; simpl.
  - destruct acc; split; try discriminate; auto.
    + intros [H _]; discriminate.
  - destruct (Unicode.isspace c) eqn:Sp.
    + destruct acc as [|a acc].
      * rewrite IH; split; intros [_ H]; split; auto.
        inversion H; assumption.
      * split; [discriminate | intros [H _]; discriminate].
    + rewrite IH; split; [intros [H _]; discriminate|].
      intros [_ H]; inversion H; congruence.
Qed.

Lemma map_strip_words (ws : list str) : Forall word ws -> map strip ws = ws.
Proof.
  induction 1 as [|w ws Hw _ IH]; simpl; [reflexivity|].
  rewrite (strip_word w Hw), IH; reflexivity.
Qed.

Lemma parse_input_words (user_input : str) :
  parse_input user_input
  = Return match split user_input with
           | [] => ([], [])
           | cmd :: args => (lower cmd, args)
           end.
Proof.
  unfold parse_input.
  pose proof (split_go_words [] user_input (Forall_nil _)) as W.
  fold (split user_input) in W.
  destruct (strip user_input) as [|c t] eqn:S.
  - apply strip_blank in S.
    assert (E : split user_input = [])
      by (apply split_go_nil; split; [reflexivity | exact S]).
    rewrite E; reflexivity.
  - destruct (split user_input) as [|cmd args] eqn:E.
    + exfalso; apply split_go_nil in E as [_ B].
      apply strip_blank in B; congruence.
    + inversion W as [|? ? Hc Ha]; subst.
      rewrite (strip_word cmd Hc), (map_strip_words args Ha); reflexivity.
Qed.

(** X24: [parse_input] never raises.  A line that is empty or all
    white space gives the empty command with no arguments; any other
    line gives the lower-cased first word as the command and the
    remaining words as the arguments, where the words are the maximal
    runs of characters that are not white space: no argument is empty
    or contains white space, and stripping the words changes nothing. *)
Theorem X24_parse_input (user_input : str) :
  parse_input user_input
  = Return match split user_input with
           | [] => ([], [])
           | cmd :: args => (lower cmd, args)
           end
  /\ Forall word (split user_input)
  /\ (split user_input = [] <-> blank user_input).
Proof.
  split; [apply parse_input_words|]. split.
  - apply split_go_words; constructor.
  - unfold split; rewrite split_go_nil; tauto.
Qed.

Lemma split_go_word (w acc rest : str) :
  Forall (fun c => Unicode.isspace c = false) w ->
  split_go acc (w ++ rest) = split_go (rev w ++ acc) rest.
Proof.
  revert acc; induction w as [|c w IH]; intros acc Hw; [reflexivity|].
  inversion Hw as [|? ? Hc Hw']; subst; simpl; rewrite Hc, IH by assumption.
  rewrite <- app_assoc; reflexivity.
Qed.

Lemma split_join (ws : list str) :
  Forall word ws -> split (join [32%N] ws) = ws.
Proof.
  unfold split; induction 1 as [|w ws [Ne Hw] Hws IH]; [reflexivity|].
  assert (Nr : rev w <> []).
  { intros H; apply Ne; rewrite <- (rev_involutive w), H; reflexivity. }
  destruct ws as [|w2 ws].
  - cbn [join]; rewrite <- (app_nil_r w) at 1.
    rewrite split_go_word, app_nil_r by assumption; simpl.
    destruct (rev w) eqn:R; [congruence|].
    rewrite <- R, rev_involutive; reflexivity.
  - change (join [32%N] (w :: w2 :: ws))
      with (w ++ 32%N :: join [32%N] (w2 :: ws)).
    rewrite split_go_word, app_nil_r by assumption.
    cbn [split_go]; change (Unicode.isspace 32) with true; cbv iota.
    destruct (rev w) eqn:R; [congruence|].
    rewrite <- R, rev_involutive, IH; reflexivity.
Qed.

Lemma lower_char_ascii (c : N) :
  (c < 128)%N -> UnicodeCase.lower_char c = [ascii_lower c].
Proof.
  intros Hc.
  assert (A : forallb
                (fun c => str_eqb (UnicodeCase.lower_char c) [ascii_lower c])
                (map N.of_nat (seq 0 128)) = true)
    by (vm_compute; reflexivity).
  apply str_eqb_eq; exact (below_enumerated _ 128 A c Hc).
Qed.

Lemma lower_ascii (s : str) :
  Forall (fun c => (c < 128)%N) s -> lower s = map ascii_lower s.
Proof.
  unfold lower; generalize (@nil N) as before.
  induction s as [|c s IH]; intros before Hs; [reflexivity|].
  inversion Hs as [|? ? Hc Hs']; subst; cbn [lower_go map].
  replace (c =? 931)%N with false by (symmetry; apply N.eqb_neq; lia).
  rewrite (lower_char_ascii c Hc), IH by assumption; reflexivity.
Qed.

(** X25: a command line made of words separated by single spaces is
    read back as these words: the first, lower-cased, is the command
    and the others are the arguments, unchanged.  For a command of
    ASCII characters lower-casing turns A-Z into a-z and changes
    nothing else, so commands are recognised whatever their case. *)
Theorem X25_parse_input_of_words (cmd : str) (args : list str) :
  word cmd -> Forall word args ->
  parse_input (join [32%N] (cmd :: args)) = Return (lower cmd, args)
  /\ (Forall (fun c => (c < 128)%N) cmd -> lower cmd = map ascii_lower cmd).
Proof.
  intros Hc Ha; split; [|apply lower_ascii].
  rewrite parse_input_words, split_join; [reflexivity|].
  constructor; assumption.
Qed.

Lemma X25_parse_input_of_words_witness :
  parse_input (join [32%N] [lit "ADD"; lit "Ann"; lit "0501234567"])
  = Return (lower (lit "ADD"), [lit "Ann"; lit "0501234567"])
  /\ (Forall (fun c => (c < 128)%N) (lit "ADD") ->
      lower (lit "ADD") = map ascii_lower (lit "ADD")).
Proof.
  apply (X25_parse_input_of_words (lit "ADD") [lit "Ann"; lit "0501234567"]).
  - split; [discriminate | repeat constructor].
  - repeat constructor; discriminate.
Defined.

(** ** The command loop *)

Lemma readonly_dispatch (rt : c_runtime) (today : date) (command : str)
    (args : list str) (book : AddressBook) :
  one_of command ["add"; "change"; "add-birthday"]%string = false ->
  fst (dispatch rt today command args book) = book.
Proof.
  unfold one_of, dispatch; cbn [existsb]; rewrite !orb_false_iff.
  intros (A & C & B & _); rewrite A, C, B.
  destruct (str_eqb command (lit "hello")); [reflexivity|].
  destruct (str_eqb command (lit "phone")).
  { unfold handle_show_phone; rewrite input_error_state.
    unfold handle_show_phone_body; destruct args as [|key [|? ?]]; reflexivity. }
  destruct (str_eqb command (lit "all")).
  { unfold handle_show_all; rewrite input_error_state; reflexivity. }
  destruct (str_eqb command (lit "show-birthday")).
  { unfold handle_show_birthday; rewrite input_error_state.
    unfold handle_show_birthday_body; destruct args as [|key [|? ?]];
      try reflexivity.
    destruct (find key book); reflexivity. }
  destruct (str_eqb command (lit "birthdays")); [|reflexivity].
  unfold handle_birthdays; rewrite input_error_state.
  unfold handle_birthdays_body.
  destruct (get_upcoming_birthdays rt today book) as [[|? ?]|]; reflexivity.
Qed.

Lemma dispatch_reachable (rt : c_runtime) (today : date) (command : str)
    (args : list str) (book : AddressBook) :
  reachable book -> reachable (fst (dispatch rt today command args book)).
Proof.
  intros R.
  destruct (one_of command ["add"; "change"; "add-birthday"]%string) eqn:O.
  - unfold one_of in O; cbn [existsb] in O; unfold dispatch.
    destruct (str_eqb command (lit "hello")); [exact R|].
    destruct (str_eqb command (lit "add")); [apply reach_add; exact R|].
    destruct (str_eqb command (lit "change")); [apply reach_change; exact R|].
    destruct (str_eqb command (lit "phone")) eqn:P;
      [|destruct (str_eqb command (lit "all")) eqn:A;
        [|destruct (str_eqb command (lit "add-birthday"));
          [apply reach_add_birthday; exact R | discriminate]]].
    + apply str_eqb_eq in P; subst; vm_compute in O; discriminate.
    + apply str_eqb_eq in A; subst; vm_compute in O; discriminate.
  - rewrite (readonly_dispatch _ _ _ _ _ O); exact R.
Qed.

(** X26: only the commands [add], [change] and [add-birthday] can
    change the address book: a turn of the loop on any other command,
    known or not, leaves it as it was. *)
Theorem X26_only_three_commands_mutate (rt : c_runtime) (today : date)
    (command : str) (args : list str) (book : AddressBook) :
  one_of command ["add"; "change"; "add-birthday"]%string = false ->
  fst (dispatch rt today command args book) = book.
Proof. apply readonly_dispatch. Qed.

Lemma X26_only_three_commands_mutate_witness :
  fst (dispatch UnpaddedYear (mkdate 2024 5 1) (lit "birthdays") [] book_ann_bob)
  = book_ann_bob.
Proof.
  apply (X26_only_three_commands_mutate UnpaddedYear (mkdate 2024 5 1)
           (lit "birthdays") [] book_ann_bob).
  vm_compute; reflexivity.
Defined.

Lemma one_of_nonempty (command : str) (names : list string) :
  Forall (fun n => n <> ""%string) names ->
  one_of command names = true -> command <> [].
Proof.
  unfold one_of; intros Hn H ->.
  apply existsb_exists in H as (n & Hin & E).
  rewrite Forall_forall in Hn; specialize (Hn n Hin).
  destruct n; [congruence | discriminate].
Qed.

Lemma main_loop_step (rt : c_runtime) (today : date) (user_input : str)
    (lines : list (date * str)) (book : AddressBook) (printed : list str) :
  main_loop rt ((today, user_input) :: lines) book printed
  = match split user_input with
    | [] => main_loop rt lines book (printed ++ [lit "Please enter a command"])
    | cmd :: args =>
        match lower cmd with
        | [] => main_loop rt lines book
                  (printed ++ [lit "Please enter a command"])
        | c :: rest =>
            if one_of (c :: rest) ["close"; "exit"]%string
            then (book, printed ++ [lit "Good bye!"], Exited)
            else
              main_loop rt lines
                (fst (dispatch rt today (c :: rest) args book))
                (printed ++ [snd (dispatch rt today (c :: rest) args book)])
        end
    end.
Proof.
  cbn [main_loop]; rewrite parse_input_words.
  destruct (split user_input) as [|cmd args]; [reflexivity|].
  destruct (lower cmd) as [|c command]; [reflexivity|].
  destruct (one_of (c :: command) ["close"; "exit"]%string); [reflexivity|].
  destruct (dispatch rt today (c :: command) args book); reflexivity.
Qed.

Lemma one_of_exit (command : str) :
  one_of command ["close"; "exit"]%string
  = str_eqb command (lit "close") || str_eqb command (lit "exit").
Proof. unfold one_of; cbn [existsb]; rewrite orb_false_r; reflexivity. Qed.

Lemma session_end_cons (today : date) (user_input text : str)
    (lines : list (date * str)) (texts : list str) (e : ending) :
  exit_line user_input = false ->
  session_end lines texts e ->
  session_end ((today, user_input) :: lines) (text :: texts) e.
Proof.
  intros X [(-> & F & L)|(-> & read & line & rest & before & -> & F & X' & -> & L)];
    [left|right]; (split; [reflexivity|]).
  - split; [constructor; assumption | simpl; congruence].
  - exists ((today, user_input) :: read), line, rest, (text :: before).
    split; [reflexivity|]. split; [constructor; assumption|].
    split; [exact X'|]. split; [reflexivity | simpl; congruence].
Qed.

Lemma main_loop_trace (rt : c_runtime) (lines : list (date * str))
    (book : AddressBook) (printed : list str) :
  reachable book ->
  exists book' texts e,
    main_loop rt lines book printed = (book', printed ++ texts, e)
    /\ reachable book'
    /\ session_end lines texts e.
Proof.
  revert book printed; induction lines as [|[today user_input] lines IH];
    intros book printed R.
  - exists book, [], EndOfInput; rewrite app_nil_r.
    split; [reflexivity|]. split; [exact R|]. left; auto.
  - rewrite main_loop_step.
    assert (Next : forall book1 text,
               exit_line user_input = false ->
               reachable book1 ->
               exists book' texts e,
                 main_loop rt lines book1 (printed ++ [text])
                 = (book', printed ++ texts, e)
                 /\ reachable book'
                 /\ session_end ((today, user_input) :: lines) texts e).
    { intros book1 text X R1.
      destruct (IH book1 (printed ++ [text]) R1)
        as (book' & texts & e & E & R' & H).
      exists book', (text :: texts), e; rewrite E, <- app_assoc.
      split; [reflexivity|]. split; [exact R'|].
      apply session_end_cons; assumption. }
    unfold exit_line in Next.
    destruct (split user_input) as [|cmd args] eqn:S;
      [apply Next; [reflexivity | exact R]|].
    destruct (lower cmd) as [|c command] eqn:Lw;
      [apply Next; [reflexivity | exact R]|].
    rewrite <- one_of_exit in Next.
    destruct (one_of (c :: command) ["close"; "exit"]%string) eqn:O.
    + exists book, [lit "Good bye!"], Exited.
      split; [reflexivity|]. split; [exact R|].
      right; split; [reflexivity|].
      exists [], (today, user_input), lines, [].
      split; [reflexivity|]. split; [constructor|].
      split; [|split; reflexivity].
      unfold exit_line; cbn [snd]; rewrite S, Lw, <- one_of_exit; exact O.
    + apply Next; [reflexivity | apply dispatch_reachable; exact R].
Qed.

(** X27: [main] never stops on an error of its own, whatever lines are
    entered.  It prints the welcome text and then one text for each
    line it reads.  When no line asks to stop, that is when no line
    has [close] or [exit], in any case, as its first word, it reads
    every line.  Otherwise it stops at the first line that asks to
    stop: it prints one text for each line before that one, then
    "Good bye!", and nothing for the lines after it.  The address book
    it ends with satisfies the state invariant. *)
Theorem X27_main_session (rt : c_runtime) (lines : list (date * str)) :
  exists book texts e,
    main rt lines = (book, lit "Welcome to the assistant bot!" :: texts, e)
    /\ reachable book /\ book_wf book /\ names_valid book
    /\ (e = EndOfInput
        /\ Forall (fun line => exit_line (snd line) = false) lines
        /\ List.length texts = List.length lines
        \/ e = Exited
           /\ exists read line rest before,
                lines = read ++ line :: rest
                /\ Forall (fun line => exit_line (snd line) = false) read
                /\ exit_line (snd line) = true
                /\ texts = before ++ [lit "Good bye!"]
                /\ List.length before = List.length read).
Proof.
  destruct (main_loop_trace rt lines [] [lit "Welcome to the assistant bot!"]
              reach_empty) as (book & texts & e & E & R & H).
  exists book, texts, e; unfold main; rewrite E.
  split; [reflexivity|]. split; [exact R|].
  split; [exact (reachable_wf book R)|].
  split; [exact (reachable_names_valid book R) | exact H].
Qed.

Lemma main_loop_app (rt : c_runtime) (pre post : list (date * str))
    (book : AddressBook) (printed : list str) :
  main_loop rt (pre ++ post) book printed
  = match main_loop rt pre book printed with
    | (book', printed', EndOfInput) => main_loop rt post book' printed'
    | stopped => stopped
    end.
Proof.
  revert book printed; induction pre as [|[today user_input] pre IH];
    intros book printed; [reflexivity|].
  cbn [app main_loop].
  destruct (parse_input user_input) as [[command args]|e]; [|reflexivity].
  destruct command as [|c command]; [apply IH|].
  destruct (one_of (c :: command) ["close"; "exit"]%string); [reflexivity|].
  destruct (dispatch rt _ (c :: command) args book); apply IH.
Qed.

(** X28: the loop stops at the first exit command: a line whose first
    word is [close] or [exit], in any case, prints "Good bye!" and ends
    the session with the address book unchanged, and nothing entered
    after it is read.  Until then a session can be cut anywhere: running
    the lines [pre ++ post] is running [pre] and then, if [pre] did not
    exit, running [post] from where [pre] left off. *)
Theorem X28_exit_ends_the_session (rt : c_runtime) (today : date)
    (user_input : str) (pre post : list (date * str))
    (book : AddressBook) (printed : list str) :
  (forall command args,
     parse_input user_input = Return (command, args) ->
     one_of command ["close"; "exit"]%string = true ->
     main_loop rt ((today, user_input) :: post) book printed
     = (book, printed ++ [lit "Good bye!"], Exited))
  /\ main_loop rt (pre ++ post) book printed
     = match main_loop rt pre book printed with
       | (book', printed', EndOfInput) => main_loop rt post book' printed'
       | stopped => stopped
       end.
Proof.
  split; [|apply main_loop_app].
  intros command args P O; cbn [main_loop]; rewrite P.
  assert (Ne : command <> []).
  { apply (one_of_nonempty command ["close"; "exit"]%string); [|exact O].
    repeat constructor; discriminate. }
  destruct command; [congruence|]; rewrite O; reflexivity.
Qed.
